(** * auth-service: token lifecycle

    A shallow embedding of the Go backend of the auth-service
    (packages [models], [config], [pkg/jwt], [internal/auth] and
    [internal/handlers]) and the properties of its token lifecycle:
    access-token issuance and validation, rotating refresh tokens,
    revocation, user reconciliation and the redirect check of the login
    entry point.

    Storage is the PostgreSQL schema of [001_initial_schema.up.sql] and
    [002_add_user_roles.up.sql], kept as lists of rows in insertion order.
    The third-party libraries (crypto/rsa and golang-jwt, bcrypt, oauth2,
    encoding/pem and crypto/x509) are an interface, [Libraries]; each
    handler or service call receives the outcome of its non-deterministic
    collaborators (clock, random source, storage faults, the Google
    exchange) in a [World].  Instants and durations are counted in
    nanoseconds. *)

From Stdlib Require Import ZArith NArith List String Ascii Bool Lia.
From Stdlib.Strings Require Import Byte.
Import ListNotations.

Local Open Scope string_scope.
Local Open Scope Z_scope.

(** ** Base types *)

(** [uuid.UUID]: a 128-bit value; [uuid.Nil] is the zero value. *)
Definition UUID := N.
Definition uuid_Nil : UUID := 0%N.

(** [time.Time] and [time.Duration], counted in nanoseconds as Go counts
    them: an instant is the number of nanoseconds since the epoch. *)
Definition Time := Z.
Definition Duration := Z.
Definition Add (t : Time) (d : Duration) : Time := t + d.

(** ** package time *)
Module time.

Definition Nanosecond : Duration := 1.
Definition Microsecond : Duration := 1000.
Definition Millisecond : Duration := 1000000.
Definition Second : Duration := 1000000000.
Definition Minute : Duration := 60000000000.
Definition Hour : Duration := 3600000000000.

(** [t.Truncate(d)]: [t] rounded down to a multiple of [d], and [t] itself
    for [d <= 0].  Go counts the multiples from its zero time, which lies
    a whole number of seconds before the epoch; for a [d] that divides a
    second they are the multiples counted from the epoch. *)
Definition Truncate (t : Time) (d : Duration) : Time :=
  if d <=? 0 then t else t - t mod d.

End time.

(** ** crypto/rand *)
Module rand.

(** [b := make([]byte, n); rand.Read(b)]: the buffer afterwards, each of
    its [n] bytes from the source in the order read, or nothing when the
    source fails. *)
Definition Read (source : option (nat -> byte)) (n : nat) : option (list byte) :=
  match source with
  | Some byte_at => Some (map byte_at (seq 0 n))
  | None => None
  end.

End rand.

(** Go [error] values.  [Errorf msg] is [fmt.Errorf(msg)] and
    [Errorf_w msg e] is [fmt.Errorf(msg + ": %w", e)]; the other
    constructors are the errors of the libraries. *)
Inductive error : Type :=
| pgx_ErrNoRows
| pgx_failure
| rand_failure
| bcrypt_failure
| bcrypt_ErrMismatchedHashAndPassword
| rsa_failure
| jwt_ErrTokenUnverifiable (cause : error)
| jwt_ErrTokenSignatureInvalid
| jwt_ErrTokenExpired
| jwt_ErrTokenNotValidYet
| Errorf (msg : string)
| Errorf_w (msg : string) (wrapped : error).

Inductive result (A : Type) : Type :=
| Ok (a : A)
| Err (e : error).
Arguments Ok {A} a.
Arguments Err {A} e.

Definition option_eqb {A} (eqb : A -> A -> bool) (x y : option A) : bool :=
  match x, y with
  | Some a, Some b => eqb a b
  | None, None => true
  | _, _ => false
  end.

Definition is_null {A} (x : option A) : bool :=
  match x with None => true | Some _ => false end.

(** ** package models *)
Module models.

Definition RoleUser : string := "user".
Definition RoleAdmin : string := "admin".

Record User := {
  u_ID : UUID;
  u_Email : string;
  u_GoogleID : option string;
  u_Name : string;
  u_AvatarURL : option string;
  u_Role : string;
  u_IsActive : bool;
  u_CreatedAt : Time;
  u_UpdatedAt : Time;
  u_DeletedAt : option Time
}.

Record RefreshToken := {
  rt_ID : UUID;
  rt_UserID : UUID;
  rt_TokenHash : string;
  rt_ExpiresAt : Time;
  rt_CreatedAt : Time;
  rt_RevokedAt : option Time
}.

Record AuthAuditLog := {
  al_UserID : option UUID;
  al_Action : string;
  al_IPAddress : string;
  al_UserAgent : string;
  al_CreatedAt : Time
}.

Record TokenPair (AccessToken : Type) := {
  AccessToken_ : AccessToken;
  RefreshToken_ : string
}.
Arguments AccessToken_ {AccessToken} t.
Arguments RefreshToken_ {AccessToken} t.

Record GoogleUserInfo := {
  g_ID : string;
  g_Email : string;
  g_VerifiedEmail : bool;
  g_Name : string;
  g_Picture : string
}.

End models.
Import models.

(** ** encoding/base64: [URLEncoding.EncodeToString]

    Three bytes become four characters of the URL-safe alphabet; a last
    group of one or two bytes is padded with '='. *)
Module base64.

Definition sextet := (bool * bool * bool * bool * bool * bool)%type.

Definition encodeURL : string :=
  "ABCDEFGHIJKLMNOPQRSTUVWXYZabcdefghijklmnopqrstuvwxyz0123456789-_".

(** Value of a sextet, most significant bit first. *)
Definition sextet_index (s : sextet) : nat :=
  let '(b5, b4, b3, b2, b1, b0) := s in
  (Nat.b2n b5 * 32 + Nat.b2n b4 * 16 + Nat.b2n b3 * 8
   + Nat.b2n b2 * 4 + Nat.b2n b1 * 2 + Nat.b2n b0)%nat.

Definition enc (s : sextet) : ascii :=
  match String.get (sextet_index s) encodeURL with
  | Some c => c
  | None => "="%char
  end.

Definition StdPadding : ascii := "="%char.

(** Bits of a byte, most significant first. *)
Definition bits (x : byte) : bool * bool * bool * bool * bool * bool * bool * bool :=
  let '(b0, (b1, (b2, (b3, (b4, (b5, (b6, b7))))))) := Byte.to_bits x in
  (b7, b6, b5, b4, b3, b2, b1, b0).

Fixpoint Encode (src : list byte) : list ascii :=
  match src with
  | [] => []
  | [x] =>
      let '(x7, x6, x5, x4, x3, x2, x1, x0) := bits x in
      [enc (x7, x6, x5, x4, x3, x2); enc (x1, x0, false, false, false, false);
       StdPadding; StdPadding]
  | [x; y] =>
      let '(x7, x6, x5, x4, x3, x2, x1, x0) := bits x in
      let '(y7, y6, y5, y4, y3, y2, y1, y0) := bits y in
      [enc (x7, x6, x5, x4, x3, x2); enc (x1, x0, y7, y6, y5, y4);
       enc (y3, y2, y1, y0, false, false); StdPadding]
  | x :: y :: z :: rest =>
      let '(x7, x6, x5, x4, x3, x2, x1, x0) := bits x in
      let '(y7, y6, y5, y4, y3, y2, y1, y0) := bits y in
      let '(z7, z6, z5, z4, z3, z2, z1, z0) := bits z in
      enc (x7, x6, x5, x4, x3, x2) :: enc (x1, x0, y7, y6, y5, y4)
      :: enc (y3, y2, y1, y0, z7, z6) :: enc (z5, z4, z3, z2, z1, z0)
      :: Encode rest
  end.

Definition EncodeToString (src : list byte) : string :=
  string_of_list_ascii (Encode src).

End base64.

(** ** The third-party libraries

    [golang-jwt/jwt/v5] with [crypto/rsa], [golang.org/x/crypto/bcrypt] and
    [golang.org/x/oauth2] are not part of the repository: the code is
    embedded over this interface, and the properties that need more than
    the interface say which law of the library they rely on. *)

(** The signing methods golang-jwt registers, by their concrete Go type
    and hash size.  [SigningMethodRSAPSS] embeds [*SigningMethodRSA] but is
    a type of its own, so a type assertion to [*SigningMethodRSA] fails for
    it. *)
Inductive HashBits := SHA256 | SHA384 | SHA512.

Inductive SigningMethod :=
| SigningMethodRSA (h : HashBits)
| SigningMethodRSAPSS (h : HashBits)
| SigningMethodHMAC (h : HashBits)
| SigningMethodECDSA (h : HashBits)
| SigningMethodEd25519
| SigningMethodNone.

Definition SigningMethodRS256 := SigningMethodRSA SHA256.

(** [jwt.Claims] of this service: the custom fields and the embedded
    [jwt.RegisteredClaims] fields that are set or validated.  [pkg/jwt] is
    present in a revision without [Role]; [auth.Service.GenerateTokens]
    passes [user.Role] and [middleware.AuthMiddleware] reads [claims.Role],
    so the field is kept. *)
Record Claims := {
  UserID : UUID;
  Email : string;
  Name : string;
  Role : string;
  Issuer : string;
  IssuedAt : option Time;
  ExpiresAt : option Time;
  NotBefore : option Time
}.

(** What a signature covers: the encoded header and claims. *)
Definition SigningString := (SigningMethod * Claims)%type.

Class Libraries := {
  (* crypto/rsa *)
  PrivateKey : Type;
  PublicKey : Type;
  Public : PrivateKey -> PublicKey;
  (* jwt.SigningMethod: Sign and Verify *)
  Signature : Type;
  Sign : SigningMethod -> PrivateKey -> SigningString -> option Signature;
  Verify : SigningMethod -> PublicKey -> SigningString -> Signature -> bool;
  (* bcrypt: the salt is drawn inside GenerateFromPassword *)
  GenerateFromPassword : list byte -> string -> Z -> option string;
  CompareHashAndPassword : string -> string -> bool;
  (* oauth2.Config.AuthCodeURL *)
  AuthCodeURL : string -> string;
  (* encoding/pem: EncodeToMemory of a block of a type and bytes, and
     Decode, the bytes of the first block *)
  pem_EncodeToMemory : string -> string -> string;
  pem_Decode : string -> option string;
  (* crypto/x509, on the bytes of a block; a key that parses and is of
     another kind than RSA is [Some None] *)
  MarshalPKCS1PublicKey : PublicKey -> string;
  ParsePKCS1PublicKey : string -> option PublicKey;
  ParsePKIXPublicKey : string -> option (option PublicKey);
  ParseCertificate : string -> option (option PublicKey)
}.

(** ** package jwt (pkg/jwt) *)
Module jwt.
Section WithLibraries.
Context {L : Libraries}.

(** A token in compact serialization, seen as its three parts. *)
Record Token := {
  Method : SigningMethod;
  Claims_ : Claims;
  Signature_ : Signature
}.

(** [jwt.TimePrecision]: the precision of a [NumericDate], one second
    unless a program sets it; this one does not. *)
Definition TimePrecision : Duration := time.Second.

(** [jwt.NewNumericDate(t)]: a pointer to [t.Truncate(TimePrecision)]. *)
Definition NewNumericDate (t : Time) : option Time :=
  Some (time.Truncate t TimePrecision).

(** [token.SignedString(key)]. *)
Definition SignedString (m : SigningMethod) (c : Claims) (key : PrivateKey)
  : result Token :=
  match Sign m key (m, c) with
  | Some sig => Ok {| Method := m; Claims_ := c; Signature_ := sig |}
  | None => Err rsa_failure
  end.

Definition GenerateAccessToken (now : Time) (userID : UUID)
    (email name role : string) (privateKey : PrivateKey) (expiry : Duration)
  : result Token :=
  let claims := {|
    UserID := userID;
    Email := email;
    Name := name;
    Role := role;
    Issuer := "auth-service";
    IssuedAt := NewNumericDate now;
    ExpiresAt := NewNumericDate (Add now expiry);
    NotBefore := None
  |} in
  SignedString SigningMethodRS256 claims privateKey.

(** The default claims validation of [jwt.Parser]: an expiry, when
    present, must lie after [now]; a not-before, when present, must not.
    (Issued-at is only checked under [WithIssuedAt].) *)
Definition Validate (now : Time) (c : Claims) : option error :=
  match ExpiresAt c with
  | Some exp => if now <? exp then
      match NotBefore c with
      | Some nbf => if nbf <=? now then None else Some jwt_ErrTokenNotValidYet
      | None => None
      end
    else Some jwt_ErrTokenExpired
  | None =>
      match NotBefore c with
      | Some nbf => if nbf <=? now then None else Some jwt_ErrTokenNotValidYet
      | None => None
      end
  end.

(** [jwt.ParseWithClaims(tokenString, &Claims{}, keyFunc)]: the key
    function chooses the key, the method of the header verifies the
    signature, then the claims are validated.  The result carries
    [token.Valid]. *)
Definition ParseWithClaims (now : Time) (tokenString : Token)
    (keyFunc : Token -> result PublicKey) : result (Token * bool) :=
  match keyFunc tokenString with
  | Err e => Err (jwt_ErrTokenUnverifiable e)
  | Ok key =>
      if Verify (Method tokenString) key
           (Method tokenString, Claims_ tokenString) (Signature_ tokenString)
      then match Validate now (Claims_ tokenString) with
           | Some e => Err e
           | None => Ok (tokenString, true)
           end
      else Err jwt_ErrTokenSignatureInvalid
  end.

(** [now] is the clock the parser reads.  The error of the key function is
    [fmt.Errorf("unexpected signing method: %v", token.Header["alg"])]; the
    name of the method is left out of the message. *)
Definition ValidateAccessToken (now : Time) (tokenString : Token)
    (publicKey : PublicKey) : result Claims :=
  match ParseWithClaims now tokenString (fun token =>
          match Method token with
          | SigningMethodRSA _ => Ok publicKey
          | _ => Err (Errorf "unexpected signing method")
          end) with
  | Err err => Err err
  | Ok (token, valid) =>
      if valid then Ok (Claims_ token) else Err (Errorf "invalid token")
  end.

(** [source] is what [crypto/rand] delivers to this call. *)
Definition GenerateRefreshToken (source : option (nat -> byte)) : result string :=
  match rand.Read source 32 with
  | None => Err rand_failure
  | Some b => Ok (base64.EncodeToString b)
  end.

(** [bcrypt.DefaultCost]. *)
Definition DefaultCost : Z := 10.

Definition HashRefreshToken (salt : list byte) (token : string) : result string :=
  match GenerateFromPassword salt token DefaultCost with
  | Some hash => Ok hash
  | None => Err bcrypt_failure
  end.

(** [CompareRefreshToken(hash, token) == nil]. *)
Definition CompareRefreshToken (hash token : string) : bool :=
  CompareHashAndPassword hash token.

(** [jwt.ParseRSAPublicKeyFromPEM(key)] of golang-jwt, the parser the
    integration guide of the repository gives to clients: the first PEM
    block, read as a PKIX public key, else as a certificate, else as a
    PKCS#1 public key. *)
Definition ParseRSAPublicKeyFromPEM (key : string) : result PublicKey :=
  match pem_Decode key with
  | None => Err (Errorf "invalid key: Key must be a PEM encoded PKCS1 or PKCS8 key")
  | Some block =>
      match ParsePKIXPublicKey block with
      | Some (Some pkey) => Ok pkey
      | Some None => Err (Errorf "key is not a valid RSA public key")
      | None =>
          match ParseCertificate block with
          | Some (Some pkey) => Ok pkey
          | Some None => Err (Errorf "key is not a valid RSA public key")
          | None =>
              match ParsePKCS1PublicKey block with
              | Some pkey => Ok pkey
              | None => Err (Errorf "x509: failed to parse public key")
              end
          end
      end
  end.

End WithLibraries.
End jwt.

(** ** package config *)
Module config.
Section WithLibraries.
Context {L : Libraries}.

Record Config := {
  Env : string;
  JWTPrivateKey : PrivateKey;
  JWTPublicKey : PublicKey;
  JWTAccessTokenExpiry : Duration;
  JWTRefreshTokenExpiry : Duration;
  AllowedOrigins : list string;
  AdminEmails : list string
}.

End WithLibraries.
End config.
Import config.

(** ** Storage

    The tables of the schema, and the statements the service sends.  Every
    statement is one atomic step of the store; the service opens no
    transaction around several of them. *)
Module database.

Record DB := {
  users : list User;
  refresh_tokens : list RefreshToken;
  auth_audit_log : list AuthAuditLog
}.

(** The statements, named for the fault they may suffer. *)
Inductive Statement :=
| SelectUserByGoogleID
| InsertUser
| UpdateUser
| InsertRefreshToken
| SelectValidRefreshTokens
| RevokeRefreshTokenByID
| SelectActiveUserByID
| DeactivateUserByID
| InsertAuditLog.

(** What one call meets outside the service: the clock ([time.Now()] and
    SQL [NOW()]), the bytes [crypto/rand] delivers in the order they are
    read (none when the source fails), the salt bcrypt
    draws, [gen_random_uuid()], which statements fail for a reason of the
    store (connection, timeout), and Google's answer to the code
    exchange. *)
Record World := {
  now : Time;
  rand_Read : option (nat -> byte);
  bcrypt_salt : list byte;
  gen_random_uuid : UUID;
  fails : Statement -> bool;
  google : result GoogleUserInfo
}.

(** A service call: it reads and writes the store and returns a value or
    an error. *)
Definition M (A : Type) : Type := DB -> result A * DB.

Definition ret {A} (a : A) : M A := fun db => (Ok a, db).
Definition fail {A} (e : error) : M A := fun db => (Err e, db).
Definition bind {A B} (m : M A) (k : A -> M B) : M B :=
  fun db => match m db with
            | (Ok a, db') => k a db'
            | (Err e, db') => (Err e, db')
            end.
(** [v, err := m; if err != nil { return nil, fmt.Errorf(msg + ": %w", err) }] *)
Definition wrap {A} (msg : string) (m : M A) : M A :=
  fun db => match m db with
            | (Ok a, db') => (Ok a, db')
            | (Err e, db') => (Err (Errorf_w msg e), db')
            end.
Definition lift {A} (r : result A) : M A := fun db => (r, db).

Definition set_users (us : list User) (db : DB) : DB :=
  {| users := us; refresh_tokens := refresh_tokens db;
     auth_audit_log := auth_audit_log db |}.
Definition set_refresh_tokens (ts : list RefreshToken) (db : DB) : DB :=
  {| users := users db; refresh_tokens := ts;
     auth_audit_log := auth_audit_log db |}.
Definition set_auth_audit_log (ls : list AuthAuditLog) (db : DB) : DB :=
  {| users := users db; refresh_tokens := refresh_tokens db;
     auth_audit_log := ls |}.

Section Statements.
Variable w : World.

(** [SELECT ... FROM users WHERE google_id = $1 AND deleted_at IS NULL] *)
Definition select_user_by_google_id (google_id : string) : M User :=
  fun db =>
    if fails w SelectUserByGoogleID then (Err pgx_failure, db) else
    match find (fun u => option_eqb String.eqb (u_GoogleID u) (Some google_id)
                         && is_null (u_DeletedAt u)) (users db) with
    | Some u => (Ok u, db)
    | None => (Err pgx_ErrNoRows, db)
    end.

(** [INSERT INTO users (email, google_id, name, avatar_url, role, is_active)
     VALUES ($1, $2, $3, $4, $5, true) RETURNING ...]; the primary key
    and the UNIQUE constraints on email and google_id reject a clash. *)
Definition insert_user (email google_id name avatar_url role : string) : M User :=
  fun db =>
    let row := {| u_ID := gen_random_uuid w; u_Email := email;
                  u_GoogleID := Some google_id; u_Name := name;
                  u_AvatarURL := Some avatar_url; u_Role := role;
                  u_IsActive := true; u_CreatedAt := now w;
                  u_UpdatedAt := now w; u_DeletedAt := None |} in
    if fails w InsertUser
       || existsb (fun u => N.eqb (u_ID u) (u_ID row)
                            || String.eqb (u_Email u) email
                            || option_eqb String.eqb (u_GoogleID u) (Some google_id))
            (users db)
    then (Err pgx_failure, db)
    else (Ok row, set_users (users db ++ [row])%list db).

(** [UPDATE users SET name = $1, avatar_url = $2, role = $3,
     updated_at = NOW() WHERE id = $4 RETURNING ...] *)
Definition update_user (name avatar_url role : string) (id : UUID) : M User :=
  fun db =>
    let upd u :=
      if N.eqb (u_ID u) id then
        {| u_ID := u_ID u; u_Email := u_Email u; u_GoogleID := u_GoogleID u;
           u_Name := name; u_AvatarURL := Some avatar_url; u_Role := role;
           u_IsActive := u_IsActive u; u_CreatedAt := u_CreatedAt u;
           u_UpdatedAt := now w; u_DeletedAt := u_DeletedAt u |}
      else u in
    if fails w UpdateUser then (Err pgx_failure, db) else
    match find (fun u => N.eqb (u_ID u) id) (users db) with
    | Some u => (Ok (upd u), set_users (map upd (users db)) db)
    | None => (Err pgx_ErrNoRows, db)
    end.

(** [INSERT INTO refresh_tokens (user_id, token_hash, expires_at)
     VALUES ($1, $2, $3)]; the primary key, UNIQUE(token_hash) and the
    foreign key to users reject a bad row.  The row keeps [expires_at] as
    the instant that was passed. *)
Definition insert_refresh_token (user_id : UUID) (token_hash : string)
    (expires_at : Time) : M unit :=
  fun db =>
    let row := {| rt_ID := gen_random_uuid w; rt_UserID := user_id;
                  rt_TokenHash := token_hash; rt_ExpiresAt := expires_at;
                  rt_CreatedAt := now w; rt_RevokedAt := None |} in
    if fails w InsertRefreshToken
       || existsb (fun t => N.eqb (rt_ID t) (rt_ID row)
                            || String.eqb (rt_TokenHash t) token_hash)
            (refresh_tokens db)
       || negb (existsb (fun u => N.eqb (u_ID u) user_id) (users db))
    then (Err pgx_failure, db)
    else (Ok tt, set_refresh_tokens (refresh_tokens db ++ [row])%list db).

(** [WHERE revoked_at IS NULL AND expires_at > NOW()] *)
Definition valid (t : RefreshToken) : bool :=
  is_null (rt_RevokedAt t) && (now w <? rt_ExpiresAt t).

(** [SELECT id, user_id, token_hash, expires_at FROM refresh_tokens
     WHERE revoked_at IS NULL AND expires_at > NOW()] *)
Definition select_valid_refresh_tokens : M (list RefreshToken) :=
  fun db =>
    if fails w SelectValidRefreshTokens then (Err pgx_failure, db)
    else (Ok (filter valid (refresh_tokens db)), db).

(** [UPDATE refresh_tokens SET revoked_at = NOW() WHERE id = $1] *)
Definition revoke (id : UUID) (t : RefreshToken) : RefreshToken :=
  if N.eqb (rt_ID t) id then
    {| rt_ID := rt_ID t; rt_UserID := rt_UserID t;
       rt_TokenHash := rt_TokenHash t; rt_ExpiresAt := rt_ExpiresAt t;
       rt_CreatedAt := rt_CreatedAt t; rt_RevokedAt := Some (now w) |}
  else t.

Definition revoke_refresh_token_by_id (id : UUID) : M unit :=
  fun db =>
    if fails w RevokeRefreshTokenByID then (Err pgx_failure, db)
    else (Ok tt, set_refresh_tokens (map (revoke id) (refresh_tokens db)) db).

(** [SELECT ... FROM users
     WHERE id = $1 AND is_active = true AND deleted_at IS NULL] *)
Definition select_active_user_by_id (id : UUID) : M User :=
  fun db =>
    if fails w SelectActiveUserByID then (Err pgx_failure, db) else
    match find (fun u => N.eqb (u_ID u) id && u_IsActive u
                         && is_null (u_DeletedAt u)) (users db) with
    | Some u => (Ok u, db)
    | None => (Err pgx_ErrNoRows, db)
    end.

(** [UPDATE users SET is_active = false, updated_at = NOW()
     WHERE id = $1 AND deleted_at IS NULL RETURNING ...] *)
Definition deactivate_user (id : UUID) : M User :=
  fun db =>
    let hit u := N.eqb (u_ID u) id && is_null (u_DeletedAt u) in
    let upd u :=
      if hit u then
        {| u_ID := u_ID u; u_Email := u_Email u; u_GoogleID := u_GoogleID u;
           u_Name := u_Name u; u_AvatarURL := u_AvatarURL u; u_Role := u_Role u;
           u_IsActive := false; u_CreatedAt := u_CreatedAt u;
           u_UpdatedAt := now w; u_DeletedAt := u_DeletedAt u |}
      else u in
    if fails w DeactivateUserByID then (Err pgx_failure, db) else
    match find hit (users db) with
    | Some u => (Ok (upd u), set_users (map upd (users db)) db)
    | None => (Err pgx_ErrNoRows, db)
    end.

(** [INSERT INTO auth_audit_log (user_id, action, ip_address, user_agent)
     VALUES ($1, $2, $3, $4)] *)
Definition insert_audit_log (user_id : option UUID)
    (action ip_address user_agent : string) : M unit :=
  fun db =>
    if fails w InsertAuditLog then (Err pgx_failure, db)
    else (Ok tt, set_auth_audit_log
                   (auth_audit_log db ++
                    [{| al_UserID := user_id; al_Action := action;
                        al_IPAddress := ip_address; al_UserAgent := user_agent;
                        al_CreatedAt := now w |}])%list db).

End Statements.
End database.
Import database.

Declare Scope service_scope.
Delimit Scope service_scope with service.
Notation "x <- m ;; k" := (bind m (fun x => k))
  (at level 61, m at next level, right associativity) : service_scope.
Notation "m ;;; k" := (bind m (fun _ => k))
  (at level 61, right associativity) : service_scope.

(** ** package auth (internal/auth/service.go) *)
Module auth.
Section Service.
Context {L : Libraries}.
Variable cfg : Config.
Variable w : World.
Local Open Scope service_scope.

Definition TokenPair := models.TokenPair jwt.Token.

(** The exchange with Google is the world's answer. *)
Definition ExchangeGoogleCode (code : string) : M GoogleUserInfo :=
  lift (google w).

(** [for _, adminEmail := range s.cfg.AdminEmails { if email == adminEmail ... }] *)
Definition inAdminEmails (email : string) : bool :=
  existsb (fun adminEmail => String.eqb email adminEmail) (AdminEmails cfg).

Definition CreateOrUpdateUser (googleUserInfo : GoogleUserInfo) : M User :=
  fun db =>
    match select_user_by_google_id w (g_ID googleUserInfo) db with
    | (Err pgx_ErrNoRows, db) =>
        (* Create new user - determine initial role *)
        let initialRole :=
          if inAdminEmails (g_Email googleUserInfo) then RoleAdmin else RoleUser in
        wrap "failed to create user"
          (insert_user w (g_Email googleUserInfo) (g_ID googleUserInfo)
             (g_Name googleUserInfo) (g_Picture googleUserInfo) initialRole) db
    | (Err err, db) => (Err (Errorf_w "failed to query user" err), db)
    | (Ok user, db) =>
        (* Auto-upgrade to admin if in ADMIN_EMAILS config but role is still 'user' *)
        let role :=
          if String.eqb (u_Role user) RoleUser then
            if inAdminEmails (u_Email user) then RoleAdmin else u_Role user
          else u_Role user in
        wrap "failed to update user"
          (update_user w (g_Name googleUserInfo) (g_Picture googleUserInfo)
             role (u_ID user)) db
    end.

Definition GenerateTokens (user : User) : M TokenPair :=
  accessToken <- wrap "failed to generate access token"
    (lift (jwt.GenerateAccessToken (now w) (u_ID user) (u_Email user)
             (u_Name user) (u_Role user) (JWTPrivateKey cfg)
             (JWTAccessTokenExpiry cfg))) ;;
  refreshToken <- wrap "failed to generate refresh token"
    (lift (jwt.GenerateRefreshToken (rand_Read w))) ;;
  tokenHash <- wrap "failed to hash refresh token"
    (lift (jwt.HashRefreshToken (bcrypt_salt w) refreshToken)) ;;
  wrap "failed to store refresh token"
    (insert_refresh_token w (u_ID user) tokenHash
       (Add (now w) (JWTRefreshTokenExpiry cfg))) ;;;
  ret {| AccessToken_ := accessToken; RefreshToken_ := refreshToken |}.

(** The loop over the rows: the first whose hash bcrypt accepts.  (A row of
    the four selected columns scans without error, so the [continue] of a
    failed [rows.Scan] never runs.) *)
Definition scan (refreshToken : string) (rows : list RefreshToken)
  : option RefreshToken :=
  find (fun rt => jwt.CompareRefreshToken (rt_TokenHash rt) refreshToken) rows.

Definition ErrInvalidRefreshToken : error :=
  Errorf "invalid or expired refresh token".

Definition RefreshAccessToken (refreshToken : string) : M TokenPair :=
  rows <- wrap "failed to query refresh tokens" (select_valid_refresh_tokens w) ;;
  match scan refreshToken rows with
  | None => fail ErrInvalidRefreshToken
  | Some tokenRecord =>
      (* Revoke old refresh token (rotating tokens) *)
      wrap "failed to revoke old token"
        (revoke_refresh_token_by_id w (rt_ID tokenRecord)) ;;;
      user <- wrap "user not found or inactive"
        (select_active_user_by_id w (rt_UserID tokenRecord)) ;;
      GenerateTokens user
  end.

Definition RevokeRefreshToken (refreshToken : string) : M unit :=
  rows <- wrap "failed to query refresh tokens" (select_valid_refresh_tokens w) ;;
  let tokenID :=
    match scan refreshToken rows with
    | Some rt => rt_ID rt
    | None => uuid_Nil
    end in
  if N.eqb tokenID uuid_Nil then fail (Errorf "refresh token not found")
  else revoke_refresh_token_by_id w tokenID.

(** The result of [Exec] is dropped. *)
Definition LogAuthEvent (userID : option UUID)
    (action ipAddress userAgent : string) : DB -> DB :=
  fun db => snd (insert_audit_log w userID action ipAddress userAgent db).

(** *** Rotation, statement by statement

    [RefreshAccessToken] sends four statements.  Between two of them
    another request may run, so a call in flight is at one of these
    points. *)
Inductive Rotation :=
| Scanning (refreshToken : string)
| Revoking (tokenRecord : RefreshToken)
| FetchingUser (tokenRecord : RefreshToken)
| Issuing (user : User)
| Returned (r : result TokenPair).

Definition step (at_ : Rotation) (db : DB) : Rotation * DB :=
  match at_ with
  | Scanning refreshToken =>
      match wrap "failed to query refresh tokens" (select_valid_refresh_tokens w) db with
      | (Err e, db') => (Returned (Err e), db')
      | (Ok rows, db') =>
          match scan refreshToken rows with
          | None => (Returned (Err ErrInvalidRefreshToken), db')
          | Some tokenRecord => (Revoking tokenRecord, db')
          end
      end
  | Revoking tokenRecord =>
      match wrap "failed to revoke old token"
              (revoke_refresh_token_by_id w (rt_ID tokenRecord)) db with
      | (Err e, db') => (Returned (Err e), db')
      | (Ok _, db') => (FetchingUser tokenRecord, db')
      end
  | FetchingUser tokenRecord =>
      match wrap "user not found or inactive"
              (select_active_user_by_id w (rt_UserID tokenRecord)) db with
      | (Err e, db') => (Returned (Err e), db')
      | (Ok user, db') => (Issuing user, db')
      end
  | Issuing user =>
      let (r, db') := GenerateTokens user db in (Returned r, db')
  | Returned r => (Returned r, db)
  end.

End Service.

Section Concurrent.
Context {L : Libraries}.
Variable cfg : Config.

(** Two rotation requests in flight, each with its own world, and a
    schedule that says whose statement runs next. *)
Inductive Who := First | Second.

Fixpoint interleave (wA wB : World) (schedule : list Who)
    (a b : Rotation) (db : DB) : Rotation * Rotation * DB :=
  match schedule with
  | [] => (a, b, db)
  | First :: rest =>
      let (a', db') := step cfg wA a db in interleave wA wB rest a' b db'
  | Second :: rest =>
      let (b', db') := step cfg wB b db in interleave wA wB rest a b' db'
  end.

End Concurrent.
End auth.

(** ** package handlers (internal/handlers) *)
Module handlers.

Inductive SameSite := SameSiteDefaultMode | SameSiteLaxMode | SameSiteStrictMode.

Record Cookie := {
  c_Name : string;
  c_Value : string;
  c_Expires : Time;
  c_HttpOnly : bool;
  c_Secure : bool;
  c_SameSite : SameSite;
  c_Path : string
}.

(** The parts of [*http.Request] the handlers read: [r.URL.Query().Get]
    (the empty string for an absent parameter), [r.Cookie] (no value for
    [http.ErrNoCookie]), the peer and the user id a middleware may have
    put in the context. *)
Record Request := {
  Query_Get : string -> string;
  Cookie_ : string -> option string;
  RemoteAddr : string;
  UserAgent : string;
  ctx_UserID : option UUID
}.

Section Handlers.
Context {L : Libraries}.

Inductive Body :=
| Empty
| Text (msg : string)
| TextWithError (msg : string) (err : error)
| JSON_access_token (accessToken : jwt.Token)
| JSON_message (msg : string)
| JSON_user (u : User).

(** Where a redirect points: a plain URL, or
    [redirectURI + "/auth/callback?access_token=" + tokens.AccessToken]. *)
Inductive Target :=
| URL (u : string)
| AuthCallback (redirectURI : string) (accessToken : jwt.Token).

Record Response := {
  StatusCode : Z;
  SetCookie : list Cookie;
  Location : option Target;
  Body_ : Body
}.

Definition StatusOK := 200.
Definition StatusTemporaryRedirect := 307.
Definition StatusBadRequest := 400.
Definition StatusUnauthorized := 401.
Definition StatusForbidden := 403.
Definition StatusNotFound := 404.
Definition StatusInternalServerError := 500.

(** [http.Error(w, msg, code)] after the cookies already set on [w]. *)
Definition http_Error (cookies : list Cookie) (body : Body) (code : Z) : Response :=
  {| StatusCode := code; SetCookie := cookies; Location := None; Body_ := body |}.

Definition http_Redirect (cookies : list Cookie) (url : Target) (code : Z) : Response :=
  {| StatusCode := code; SetCookie := cookies; Location := Some url; Body_ := Empty |}.

Variable cfg : Config.
Variable w : World.

Definition production : bool := String.eqb (Env cfg) "production".

(** [strings.HasPrefix(s, prefix)] *)
Definition HasPrefix (s prefix : string) : bool := String.prefix prefix s.

(** The loop over [h.cfg.AllowedOrigins]. *)
Definition validRedirect (redirectURI : string) : bool :=
  existsb (fun origin => String.eqb redirectURI origin
                         || HasPrefix redirectURI (origin ++ "/"))
    (AllowedOrigins cfg).

(** [None] is the run-time panic of [h.cfg.AllowedOrigins[0]] on an
    empty slice. *)
Definition GoogleLogin (r : Request) : option Response :=
  let redirectURI := Query_Get r "redirect_uri" in
  match (if String.eqb redirectURI ""
         then nth_error (AllowedOrigins cfg) 0
         else Some redirectURI) with
  | None => None
  | Some redirectURI =>
      if negb (validRedirect redirectURI) then
        Some (http_Error [] (Text "Invalid redirect_uri") StatusBadRequest)
      else
        (* Generate random state; the error of rand.Read is dropped *)
        let b := match rand.Read (rand_Read w) 16 with
                 | Some b => b
                 | None => repeat x00 16
                 end in
        let state := base64.EncodeToString b in
        let cookie name value :=
          {| c_Name := name; c_Value := value;
             c_Expires := Add (now w) (10 * time.Minute); c_HttpOnly := true;
             c_Secure := production; c_SameSite := SameSiteLaxMode;
             c_Path := "/" |} in
        Some (http_Redirect
                [cookie "oauth_state" state; cookie "oauth_redirect" redirectURI]
                (URL (AuthCodeURL state)) StatusTemporaryRedirect)
  end.

Definition clearCookie (name : string) : Cookie :=
  {| c_Name := name; c_Value := "";
     c_Expires := Add (now w) (-1 * time.Hour);
     c_HttpOnly := true; c_Secure := false; c_SameSite := SameSiteDefaultMode;
     c_Path := "/" |}.

Definition refreshCookie (value : string) : Cookie :=
  {| c_Name := "refresh_token"; c_Value := value;
     c_Expires := Add (now w) (JWTRefreshTokenExpiry cfg); c_HttpOnly := true;
     c_Secure := production; c_SameSite := SameSiteStrictMode; c_Path := "/" |}.

Definition GoogleCallback (r : Request) (db : DB) : Response * DB :=
  (* Verify state *)
  match Cookie_ r "oauth_state" with
  | None => (http_Error [] (Text "State cookie not found") StatusBadRequest, db)
  | Some stateCookie =>
  if negb (String.eqb (Query_Get r "state") stateCookie) then
    (http_Error [] (Text "Invalid state parameter") StatusBadRequest, db)
  else
  match Cookie_ r "oauth_redirect" with
  | None => (http_Error [] (Text "Redirect URI cookie not found") StatusBadRequest, db)
  | Some redirectURI =>
  (* Clear state and redirect cookies *)
  let cleared := [clearCookie "oauth_state"; clearCookie "oauth_redirect"] in
  let code := Query_Get r "code" in
  if String.eqb code "" then
    (http_Error cleared (Text "Code not found") StatusBadRequest, db)
  else
  match auth.ExchangeGoogleCode w code db with
  | (Err err, db) =>
      (http_Error cleared (TextWithError "Failed to exchange code: " err)
         StatusInternalServerError, db)
  | (Ok userInfo, db) =>
  match auth.CreateOrUpdateUser cfg w userInfo db with
  | (Err err, db) =>
      (http_Error cleared (TextWithError "Failed to create user: " err)
         StatusInternalServerError, db)
  | (Ok user, db) =>
  (* Check if user is active *)
  if negb (u_IsActive user) then
    (http_Error cleared (Text "User account is inactive") StatusForbidden, db)
  else
  match auth.GenerateTokens cfg w user db with
  | (Err err, db) =>
      (http_Error cleared (TextWithError "Failed to generate tokens: " err)
         StatusInternalServerError, db)
  | (Ok tokens, db) =>
      let db := auth.LogAuthEvent w (Some (u_ID user)) "LOGIN"
                  (RemoteAddr r) (UserAgent r) db in
      (http_Redirect (cleared ++ [refreshCookie (RefreshToken_ tokens)])%list
         (AuthCallback redirectURI (AccessToken_ tokens))
         StatusTemporaryRedirect, db)
  end end end end end.

Definition RefreshToken (r : Request) (db : DB) : Response * DB :=
  match Cookie_ r "refresh_token" with
  | None => (http_Error [] (Text "Refresh token not found") StatusUnauthorized, db)
  | Some cookie =>
      match auth.RefreshAccessToken cfg w cookie db with
      | (Err err, db) =>
          (http_Error [] (TextWithError "Failed to refresh token: " err)
             StatusUnauthorized, db)
      | (Ok tokens, db) =>
          ({| StatusCode := StatusOK;
              SetCookie := [refreshCookie (RefreshToken_ tokens)];
              Location := None;
              Body_ := JSON_access_token (AccessToken_ tokens) |}, db)
      end
  end.

Definition Logout (r : Request) (db : DB) : Response * DB :=
  let db :=
    match Cookie_ r "refresh_token" with
    | Some cookie =>
        (* Revoke refresh token; the returned error is dropped *)
        snd (auth.RevokeRefreshToken w cookie db)
    | None => db
    end in
  let cleared :=
    {| c_Name := "refresh_token"; c_Value := "";
       c_Expires := Add (now w) (-1 * time.Hour);
       c_HttpOnly := true; c_Secure := production;
       c_SameSite := SameSiteStrictMode; c_Path := "/" |} in
  let db :=
    match ctx_UserID r with
    | Some userID =>
        auth.LogAuthEvent w (Some userID) "LOGOUT" (RemoteAddr r) (UserAgent r) db
    | None => db
    end in
  ({| StatusCode := StatusOK; SetCookie := [cleared]; Location := None;
      Body_ := JSON_message "Logged out successfully" |}, db).

Definition DeactivateUser (userID : UUID) (db : DB) : Response * DB :=
  match deactivate_user w userID db with
  | (Err _, db) => (http_Error [] (Text "User not found") StatusNotFound, db)
  | (Ok user, db) =>
      ({| StatusCode := StatusOK; SetCookie := []; Location := None;
          Body_ := JSON_user user |}, db)
  end.

(** The body of [GetPublicKey]: a PEM block of type "RSA PUBLIC KEY"
    around the PKCS#1 encoding of [h.cfg.JWTPublicKey]. *)
Definition GetPublicKey : string :=
  let publicKeyBytes := MarshalPKCS1PublicKey (JWTPublicKey cfg) in
  pem_EncodeToMemory "RSA PUBLIC KEY" publicKeyBytes.

End Handlers.
End handlers.

(** ** The life of the store

    Every entry point that writes to the store, so that a property of
    "whatever happens afterwards" can be stated over lists of calls.  The
    user-administration handlers (update, soft delete, activate) only write
    the users table; [UserAdministration] stands for any of them. *)
Module lifecycle.
Section Calls.
Context {L : Libraries}.
Variable cfg : Config.

Inductive Call :=
| CallCreateOrUpdateUser (googleUserInfo : GoogleUserInfo)
| CallGenerateTokens (user : User)
| CallRefreshAccessToken (refreshToken : string)
| CallRevokeRefreshToken (refreshToken : string)
| CallLogAuthEvent (userID : option UUID) (action ipAddress userAgent : string)
| CallGoogleCallback (r : handlers.Request)
| CallRefreshToken (r : handlers.Request)
| CallLogout (r : handlers.Request)
| CallDeactivateUser (userID : UUID)
| CallUserAdministration (write : list User -> list User).

Definition exec (c : World * Call) (db : DB) : DB :=
  let (w, call) := c in
  match call with
  | CallCreateOrUpdateUser i => snd (auth.CreateOrUpdateUser cfg w i db)
  | CallGenerateTokens u => snd (auth.GenerateTokens cfg w u db)
  | CallRefreshAccessToken t => snd (auth.RefreshAccessToken cfg w t db)
  | CallRevokeRefreshToken t => snd (auth.RevokeRefreshToken w t db)
  | CallLogAuthEvent u a i ua => auth.LogAuthEvent w u a i ua db
  | CallGoogleCallback r => snd (handlers.GoogleCallback cfg w r db)
  | CallRefreshToken r => snd (handlers.RefreshToken cfg w r db)
  | CallLogout r => snd (handlers.Logout cfg w r db)
  | CallDeactivateUser id => snd (handlers.DeactivateUser w id db)
  | CallUserAdministration write => set_users (write (users db)) db
  end.

Definition run (calls : list (World * Call)) (db : DB) : DB :=
  fold_left (fun db c => exec c db) calls db.

End Calls.

Section Predicates.
Context {L : Libraries}.

(** [revoked_at IS NOT NULL] *)
Definition revoked (t : RefreshToken) : Prop := is_null (rt_RevokedAt t) = false.

(** The hash of the record accepts the raw value. *)
Definition accepts (raw : string) (t : RefreshToken) : Prop :=
  jwt.CompareRefreshToken (rt_TokenHash t) raw = true.

(** No two records of the store answer to the same raw value: the
    tokens drawn from the random source do not repeat and bcrypt accepts
    a hash for one password only. *)
Definition single_match (raw : string) (db : DB) : Prop :=
  forall t t', In t (refresh_tokens db) -> In t' (refresh_tokens db) ->
    accepts raw t -> accepts raw t' -> rt_ID t = rt_ID t'.

(** Every row with this id is revoked. *)
Definition all_revoked (id : UUID) (db : DB) : Prop :=
  forall t, In t (refresh_tokens db) -> rt_ID t = id -> revoked t.

(** A later version of a row: nothing changed but, possibly, the
    revocation time, and a revoked row stays revoked. *)
Definition later_row (t t' : RefreshToken) : Prop :=
  rt_ID t' = rt_ID t /\ rt_UserID t' = rt_UserID t /\
  rt_TokenHash t' = rt_TokenHash t /\ rt_ExpiresAt t' = rt_ExpiresAt t /\
  (revoked t -> revoked t').

(** A later version of the table: the old rows in place, and new rows
    with new ids after them. *)
Definition later_table (ts ts' : list RefreshToken) : Prop :=
  exists old new,
    ts' = (old ++ new)%list /\ Forall2 later_row ts old /\
    Forall (fun n => ~ In (rt_ID n) (map rt_ID ts)) new.

(** The laws of the libraries the properties rely on. *)

(** A signature verifies under the public half of the key that made it. *)
Definition signatures_verify : Prop :=
  forall m k s sig, Sign m k s = Some sig -> Verify m (Public k) s sig = true.

(** A signature made with one private key verifies under the public half
    of no other. *)
Definition signatures_name_their_key : Prop :=
  forall m m' k k' s s' sig,
    Sign m' k' s' = Some sig -> k' <> k -> Verify m (Public k) s sig = false.

(** A PEM block decodes to its bytes. *)
Definition pem_round_trip : Prop :=
  forall type bytes, pem_Decode (pem_EncodeToMemory type bytes) = Some bytes.

(** The PKCS#1 encoding of a public key parses back to the key. *)
Definition pkcs1_round_trip : Prop :=
  forall k, ParsePKCS1PublicKey (MarshalPKCS1PublicKey k) = Some k.

(** The PKCS#1 encoding of a public key is neither a PKIX public key nor
    a certificate. *)
Definition pkcs1_only : Prop :=
  forall k, ParsePKIXPublicKey (MarshalPKCS1PublicKey k) = None /\
            ParseCertificate (MarshalPKCS1PublicKey k) = None.



End Predicates.
End lifecycle.
Import lifecycle.

(** ** A small instance

    Stand-ins for the libraries that satisfy the laws above, and a store
    with one user and one refresh token, to run the code on. *)
Module Sample.

Definition method_eqb (a b : SigningMethod) : bool :=
  let h x := match x with SHA256 => 0 | SHA384 => 1 | SHA512 => 2 end in
  match a, b with
  | SigningMethodRSA x, SigningMethodRSA y
  | SigningMethodRSAPSS x, SigningMethodRSAPSS y
  | SigningMethodHMAC x, SigningMethodHMAC y
  | SigningMethodECDSA x, SigningMethodECDSA y => h x =? h y
  | SigningMethodEd25519, SigningMethodEd25519
  | SigningMethodNone, SigningMethodNone => true
  | _, _ => false
  end.

Definition claims_eqb (a b : Claims) : bool :=
  N.eqb (UserID a) (UserID b) && String.eqb (Email a) (Email b)
  && String.eqb (Name a) (Name b) && String.eqb (Role a) (Role b)
  && String.eqb (Issuer a) (Issuer b)
  && option_eqb Z.eqb (IssuedAt a) (IssuedAt b)
  && option_eqb Z.eqb (ExpiresAt a) (ExpiresAt b)
  && option_eqb Z.eqb (NotBefore a) (NotBefore b).

Definition toy : Libraries := {|
  PrivateKey := nat;
  PublicKey := nat;
  Public := fun k => k;
  Signature := (nat * SigningString)%type;
  Sign := fun m k s => Some (k, s);
  Verify := fun m pk s sig =>
    Nat.eqb (fst sig) pk && method_eqb (fst (snd sig)) (fst s)
    && claims_eqb (snd (snd sig)) (snd s);
  GenerateFromPassword := fun salt password cost => Some ("$2a$" ++ password);
  CompareHashAndPassword := fun hash password => String.eqb hash ("$2a$" ++ password);
  AuthCodeURL := fun state => "https://accounts.google.com/o/oauth2/auth?state=" ++ state;
  pem_EncodeToMemory := fun type bytes => bytes;
  pem_Decode := fun data => Some data;
  MarshalPKCS1PublicKey := fun k => "PKCS1:" ++ string_of_list_ascii (repeat "k"%char k);
  ParsePKCS1PublicKey := fun s =>
    if String.prefix "PKCS1:" s then Some (String.length s - 6)%nat else None;
  ParsePKIXPublicKey := fun s =>
    if String.prefix "PKIX:" s then Some (Some (String.length s - 5)%nat) else None;
  ParseCertificate := fun s => None
|}.

Definition cfg : @Config toy :=
  @config.Build_Config toy
    "production"                                      (* Env *)
    7%nat                                             (* JWTPrivateKey *)
    7%nat                                             (* JWTPublicKey *)
    (15 * time.Minute)                                (* JWTAccessTokenExpiry *)
    (168 * time.Hour)                                 (* JWTRefreshTokenExpiry *)
    ["https://app.example.com"; "http://localhost:3000"]  (* AllowedOrigins *)
    ["root@example.com"].                             (* AdminEmails *)

Definition alice : User := {|
  u_ID := 1%N; u_Email := "alice@example.com"; u_GoogleID := Some "g-alice";
  u_Name := "Alice"; u_AvatarURL := None; u_Role := "user"; u_IsActive := true;
  u_CreatedAt := 0; u_UpdatedAt := 0; u_DeletedAt := None
|}.

Definition bob : User := {|
  u_ID := 2%N; u_Email := "bob@example.com"; u_GoogleID := Some "g-bob";
  u_Name := "Bob"; u_AvatarURL := None; u_Role := "user"; u_IsActive := false;
  u_CreatedAt := 0; u_UpdatedAt := 0; u_DeletedAt := None
|}.

Definition raw0 : string := "cmF3LXJlZnJlc2gtdG9rZW4tb2YtYWxpY2UtMDAwMDA=".
Definition raw_bob : string := "cmF3LXJlZnJlc2gtdG9rZW4tb2YtYm9iLTAwMDAwMDA=".

Definition token0 : RefreshToken := {|
  rt_ID := 10%N; rt_UserID := 1%N; rt_TokenHash := "$2a$" ++ raw0;
  rt_ExpiresAt := 168 * time.Hour; rt_CreatedAt := 0; rt_RevokedAt := None
|}.

Definition token_bob : RefreshToken := {|
  rt_ID := 11%N; rt_UserID := 2%N; rt_TokenHash := "$2a$" ++ raw_bob;
  rt_ExpiresAt := 168 * time.Hour; rt_CreatedAt := 0; rt_RevokedAt := None
|}.

Definition db0 : DB := {|
  users := [alice; bob];
  refresh_tokens := [token0; token_bob];
  auth_audit_log := []
|}.


Definition healthy (_ : Statement) : bool := false.

(** The worlds below take their instant in seconds. *)
Definition world (t : Z) (x : byte) (id : UUID) : World := {|
  now := t * time.Second;
  rand_Read := Some (fun _ => x);
  bcrypt_salt := [];
  gen_random_uuid := id;
  fails := healthy;
  google := Err (Errorf "failed to exchange code")
|}.

(** A world whose store is unreachable. *)
Definition outage (t : Z) : World := {|
  now := t * time.Second;
  rand_Read := Some (fun _ => x00);
  bcrypt_salt := [];
  gen_random_uuid := 99%N;
  fails := fun _ => true;
  google := Err (Errorf "failed to exchange code")
|}.

(** A world in which only the insertion of the refresh token fails. *)
Definition insert_fails (t : Z) : World := {|
  now := t * time.Second;
  rand_Read := Some (fun _ => x05);
  bcrypt_salt := [];
  gen_random_uuid := 30%N;
  fails := fun s => match s with InsertRefreshToken => true | _ => false end;
  google := Err (Errorf "failed to exchange code")
|}.

Definition bob_identity : GoogleUserInfo := {|
  g_ID := "g-bob"; g_Email := "bob@example.com"; g_VerifiedEmail := true;
  g_Name := "Bob B."; g_Picture := "https://lh3.example.com/bob"
|}.

(** A world in which Google answers the exchange with an identity. *)
Definition google_answers (t : Z) (info : GoogleUserInfo) : World := {|
  now := t * time.Second;
  rand_Read := Some (fun _ => x06);
  bcrypt_salt := [];
  gen_random_uuid := 31%N;
  fails := healthy;
  google := Ok info
|}.

Definition alice_identity : GoogleUserInfo := {|
  g_ID := "g-alice"; g_Email := "alice@example.com"; g_VerifiedEmail := true;
  g_Name := "Alice A."; g_Picture := "https://lh3.example.com/alice"
|}.

(** A configuration whose access tokens live for 1500ms, and a world
    600ms after second 100. *)
Definition brief : @Config toy :=
  @config.Build_Config toy "production" 7%nat 7%nat
    (1500 * time.Millisecond) (168 * time.Hour)
    ["https://app.example.com"] [].

Definition late : World := {|
  now := 100 * time.Second + 600 * time.Millisecond;
  rand_Read := Some (fun _ => x09);
  bcrypt_salt := [];
  gen_random_uuid := 40%N;
  fails := healthy;
  google := Err (Errorf "failed to exchange code")
|}.

(** A store with a user whose address is on the list of administrators,
    an administrator whose address is not, and Alice. *)
Definition promoted : User := {|
  u_ID := 6%N; u_Email := "root@example.com"; u_GoogleID := Some "g-root";
  u_Name := "Root"; u_AvatarURL := None; u_Role := "user"; u_IsActive := true;
  u_CreatedAt := 0; u_UpdatedAt := 0; u_DeletedAt := None
|}.

Definition former : User := {|
  u_ID := 7%N; u_Email := "former@example.com"; u_GoogleID := Some "g-former";
  u_Name := "Former"; u_AvatarURL := None; u_Role := "admin"; u_IsActive := true;
  u_CreatedAt := 0; u_UpdatedAt := 0; u_DeletedAt := None
|}.

Definition staff : DB := {|
  users := [promoted; former; alice];
  refresh_tokens := [];
  auth_audit_log := []
|}.

Definition root_identity : GoogleUserInfo := {|
  g_ID := "g-root"; g_Email := "root@example.com"; g_VerifiedEmail := true;
  g_Name := "Root"; g_Picture := ""
|}.

Definition former_identity : GoogleUserInfo := {|
  g_ID := "g-former"; g_Email := "former@example.com"; g_VerifiedEmail := true;
  g_Name := "Former"; g_Picture := ""
|}.

(** Alice is issued a pair at 100, and is deactivated at 120. *)
Definition issued : result (models.TokenPair (@jwt.Token toy)) * DB :=
  @auth.GenerateTokens toy cfg (world 100 x01 20%N) alice db0.

Definition deactivated : DB :=
  snd (@handlers.DeactivateUser toy (world 120 x00 0%N) 1%N (snd issued)).

(** The callback request of a login flow that passes the state check. *)
Definition callback_request : handlers.Request := {|
  handlers.Query_Get := fun k =>
    if String.eqb k "state" then "c3RhdGU=" else
    if String.eqb k "code" then "4/0AfJohXk" else "";
  handlers.Cookie_ := fun k =>
    if String.eqb k "oauth_state" then Some "c3RhdGU=" else
    if String.eqb k "oauth_redirect" then Some "https://app.example.com" else None;
  handlers.RemoteAddr := "203.0.113.7:5555";
  handlers.UserAgent := "Mozilla/5.0";
  handlers.ctx_UserID := None
|}.

Definition request (redirect_uri : string) (refresh_token : option string)
  : handlers.Request := {|
  handlers.Query_Get := fun k =>
    if String.eqb k "redirect_uri" then redirect_uri else "";
  handlers.Cookie_ := fun k =>
    if String.eqb k "refresh_token" then refresh_token else None;
  handlers.RemoteAddr := "203.0.113.7:5555";
  handlers.UserAgent := "curl/8";
  handlers.ctx_UserID := None
|}.

End Sample.

(** ** Vocabulary of the properties *)
Section Vocabulary.
Context {L : Libraries}.

(** The redirect target is an allowed origin, or an allowed origin
    followed by '/' and a path. *)
Definition allowed_target (cfg : Config) (target : string) : Prop :=
  exists origin, In origin (AllowedOrigins cfg) /\
    (target = origin \/ exists path, target = origin ++ "/" ++ path).

(** The cookies a successful [GoogleLogin] sets for a state and a target. *)
Definition login_cookies (cfg : Config) (w : World) (state redirectURI : string)
  : list handlers.Cookie :=
  let cookie name value :=
    {| handlers.c_Name := name; handlers.c_Value := value;
       handlers.c_Expires := Add (now w) (10 * time.Minute);
       handlers.c_HttpOnly := true;
       handlers.c_Secure := handlers.production cfg;
       handlers.c_SameSite := handlers.SameSiteLaxMode;
       handlers.c_Path := "/" |} in
  [cookie "oauth_state" state; cookie "oauth_redirect" redirectURI].

(** The store after [UPDATE refresh_tokens SET revoked_at = NOW()
    WHERE id = $1]. *)
Definition revoked_in (w : World) (id : UUID) (db : DB) : DB :=
  set_refresh_tokens (map (revoke w id) (refresh_tokens db)) db.

(** The row a scan of the valid rows stops at. *)
Definition candidate (w : World) (raw : string) (db : DB) : option RefreshToken :=
  auth.scan raw (filter (valid w) (refresh_tokens db)).

(** The claims [GenerateAccessToken] signs for a user at [now w]. *)
Definition issued_claims (cfg : Config) (w : World) (user : User) : Claims :=
  {| UserID := u_ID user; Email := u_Email user; Name := u_Name user;
     Role := u_Role user; Issuer := "auth-service";
     IssuedAt := jwt.NewNumericDate (now w);
     ExpiresAt := jwt.NewNumericDate (Add (now w) (JWTAccessTokenExpiry cfg));
     NotBefore := None |}.

(** The expiry of the access token issued at [now w]: the instant
    [now w + JWTAccessTokenExpiry], to the second. *)
Definition access_expiry (cfg : Config) (w : World) : Time :=
  time.Truncate (Add (now w) (JWTAccessTokenExpiry cfg)) jwt.TimePrecision.

(** The row [GenerateTokens] stores for a hash. *)
Definition issued_row (cfg : Config) (w : World) (user : User) (hash : string)
  : RefreshToken :=
  {| rt_ID := gen_random_uuid w; rt_UserID := u_ID user; rt_TokenHash := hash;
     rt_ExpiresAt := Add (now w) (JWTRefreshTokenExpiry cfg);
     rt_CreatedAt := now w; rt_RevokedAt := None |}.


(** The stored, not deleted, user of a Google subject id. *)
Definition stored_user (google_id : string) (db : DB) : option User :=
  find (fun u => option_eqb String.eqb (u_GoogleID u) (Some google_id)
                 && is_null (u_DeletedAt u)) (users db).

(** The response sets a cookie of this name. *)
Definition sets_cookie (name : string) (resp : handlers.Response) : Prop :=
  exists c, In c (handlers.SetCookie resp) /\ handlers.c_Name c = name.

End Vocabulary.

(** * The rest of the backend

    The packages below complete the embedding: the standard-library
    helpers the code calls ([strings], [strconv]), the loading of the
    configuration, the authorization middleware, the user-administration
    handlers and the routes the router puts behind the middleware. *)

From Stdlib Require Import Permutation.

(** ** strings: [Split], [SplitN] with a limit of two, [TrimSpace], [Join]

    The separators the code passes are the one-byte strings "," and " ". *)
Module strings.

(** [strings.Split(s, sep)]: the pieces of [s] between the separators; a
    string without separator is its only piece, the empty string
    included. *)
Fixpoint Split (s : string) (sep : ascii) : list string :=
  match s with
  | EmptyString => [EmptyString]
  | String c rest =>
      if Ascii.eqb c sep then EmptyString :: Split rest sep
      else match Split rest sep with
           | piece :: pieces => String c piece :: pieces
           | [] => [String c EmptyString]
           end
  end.

(** [strings.SplitN(s, sep, 2)]: [s] cut at its first separator, or [s]
    alone when it has none. *)
Fixpoint SplitN2 (s : string) (sep : ascii) : list string :=
  match s with
  | EmptyString => [EmptyString]
  | String c rest =>
      if Ascii.eqb c sep then [EmptyString; rest]
      else match SplitN2 rest sep with
           | piece :: pieces => String c piece :: pieces
           | [] => [String c EmptyString]
           end
  end.

(** [strings.Join(elems, sep)] *)
Fixpoint Join (elems : list string) (sep : string) : string :=
  match elems with
  | [] => EmptyString
  | [e] => e
  | e :: rest => e ++ sep ++ Join rest sep
  end.

(** The table [asciiSpace]: tab, line feed, vertical tab, form feed,
    carriage return, space. *)
Definition asciiSpace (c : ascii) : bool :=
  Ascii.eqb c "009" || Ascii.eqb c "010" || Ascii.eqb c "011"
  || Ascii.eqb c "012" || Ascii.eqb c "013" || Ascii.eqb c " ".

(** [c >= utf8.RuneSelf]: a byte of a multi-byte rune. *)
Definition RuneSelf (c : ascii) : bool :=
  match c with Ascii _ _ _ _ _ _ _ b7 => b7 end.

Section TrimSpace.
(** [TrimFunc(s, unicode.IsSpace)] and [TrimRightFunc(s, unicode.IsSpace)],
    which [TrimSpace] falls back to when it meets a byte that is not
    ASCII. *)
Variable TrimFunc_IsSpace : string -> string.
Variable TrimRightFunc_IsSpace : string -> string.

(** The second loop of [TrimSpace], on the reversed string: from the end,
    skip ASCII spaces. *)
Fixpoint trim_right (reversed : list ascii) : string :=
  match reversed with
  | [] => EmptyString
  | c :: before =>
      if RuneSelf c then TrimRightFunc_IsSpace (string_of_list_ascii (rev reversed))
      else if asciiSpace c then trim_right before
      else string_of_list_ascii (rev reversed)
  end.

(** [strings.TrimSpace(s)]: the first loop skips ASCII spaces from the
    start, the second from the end. *)
Fixpoint TrimSpace (s : string) : string :=
  match s with
  | EmptyString => EmptyString
  | String c rest =>
      if RuneSelf c then TrimFunc_IsSpace s
      else if asciiSpace c then TrimSpace rest
      else trim_right (rev (list_ascii_of_string s))
  end.

End TrimSpace.
End strings.

(** ** strconv: [Atoi] on a 64-bit platform *)
Module strconv.

Definition MaxInt : Z := 2 ^ 63 - 1.
Definition MinInt : Z := - 2 ^ 63.

(** A Go [int]: the value of an arithmetic result after wrap-around. *)
Definition int (z : Z) : Z := (z + 2 ^ 63) mod 2 ^ 64 - 2 ^ 63.

Definition digit (c : ascii) : option Z :=
  let n := Z.of_nat (nat_of_ascii c) in
  if (48 <=? n) && (n <=? 57) then Some (n - 48) else None.

(** The value of a string of decimal digits; nothing else is accepted. *)
Fixpoint digits (acc : Z) (s : string) : option Z :=
  match s with
  | EmptyString => Some acc
  | String c rest =>
      match digit c with
      | Some d => digits (acc * 10 + d) rest
      | None => None
      end
  end.

(** The value [strconv.Atoi(s)] returns next to its error: the number for
    an optional sign followed by digits, [0] for anything else, and the
    nearest bound for a number out of range. *)
Definition Atoi (s : string) : Z :=
  let '(neg, body) :=
    match s with
    | String "-" rest => (true, rest)
    | String "+" rest => (false, rest)
    | _ => (false, s)
    end in
  match body with
  | EmptyString => 0
  | _ =>
      match digits 0 body with
      | None => 0
      | Some n =>
          let v := if neg then - n else n in
          Z.max MinInt (Z.min MaxInt v)
      end
  end.

End strconv.

(** ** What the process finds around it

    The files, the parsers of the standard library that need more than
    bytes, and the token parser of golang-jwt. *)
Class Runtime {L : Libraries} := {
  (* the fallbacks of strings.TrimSpace *)
  TrimFunc_IsSpace : string -> string;
  TrimRightFunc_IsSpace : string -> string;
  (* time.ParseDuration *)
  ParseDuration : string -> option Duration;
  (* os.ReadFile *)
  ReadFile : string -> option string;
  (* x509: a key of another kind than RSA parses to [Some None] *)
  ParsePKCS8PrivateKey : string -> option (option PrivateKey);
  ParsePKCS1PrivateKey : string -> option PrivateKey;
  (* jwt.Parser: the three parts of a compact serialization *)
  ParseCompact : string -> option jwt.Token
}.

(** ** package config: [Load] and its helpers *)
Module loading.
Section WithRuntime.
Context {L : Libraries} {R : Runtime}.

(** [os.Getenv]: the empty string for a variable that is not set. *)
Variable Getenv : string -> string.

Definition getEnv (key defaultValue : string) : string :=
  if String.eqb (Getenv key) "" then defaultValue else Getenv key.

Definition parseCSV (s : string) : list string :=
  if String.eqb s "" then []
  else
    filter (fun trimmed => negb (String.eqb trimmed ""))
      (map (strings.TrimSpace TrimFunc_IsSpace TrimRightFunc_IsSpace)
         (strings.Split s ",")).

Definition loadPrivateKey (path : string) : result PrivateKey :=
  match ReadFile path with
  | None => Err (Errorf "open")
  | Some data =>
      match pem_Decode data with
      | None => Err (Errorf "failed to decode PEM block")
      | Some block =>
          (* Try PKCS8 format first *)
          match ParsePKCS8PrivateKey block with
          | Some (Some rsaKey) => Ok rsaKey
          | Some None => Err (Errorf "key is not RSA private key")
          | None =>
              (* Try PKCS1 format *)
              match ParsePKCS1PrivateKey block with
              | Some key => Ok key
              | None => Err (Errorf "x509: failed to parse private key")
              end
          end
      end
  end.

Definition loadPublicKey (path : string) : result PublicKey :=
  match ReadFile path with
  | None => Err (Errorf "open")
  | Some data =>
      match pem_Decode data with
      | None => Err (Errorf "failed to decode PEM block")
      | Some block =>
          match ParsePKIXPublicKey block with
          | None => Err (Errorf "x509: failed to parse public key")
          | Some None => Err (Errorf "not an RSA public key")
          | Some (Some rsaPub) => Ok rsaPub
          end
      end
  end.

(** A placeholder in the source: it generates nothing and returns the
    error that asks for the keys. *)
Definition generateAndSaveKeys (privateKeyPath publicKeyPath : string)
  : result (PrivateKey * PublicKey) :=
  Err (Errorf "RSA keys not found").

Definition loadOrGenerateKeys (privateKeyPath publicKeyPath : string)
  : result (PrivateKey * PublicKey) :=
  match loadPrivateKey privateKeyPath with
  | Ok privateKey =>
      match loadPublicKey publicKeyPath with
      | Ok publicKey => Ok (privateKey, publicKey)
      | Err _ => generateAndSaveKeys privateKeyPath publicKeyPath
      end
  | Err _ => generateAndSaveKeys privateKeyPath publicKeyPath
  end.

(** The fields of [config.Config] the token lifecycle does not read, next
    to those it does. *)
Record Loaded := {
  Port : string;
  DatabaseURL : string;
  GoogleClientID : string;
  GoogleClientSecret : string;
  GoogleRedirectURL : string;
  Core : Config
}.

Definition Load : result Loaded :=
  match ParseDuration (getEnv "JWT_ACCESS_TOKEN_EXPIRY" "15m") with
  | None => Err (Errorf "invalid JWT_ACCESS_TOKEN_EXPIRY")
  | Some accessExpiry =>
  match ParseDuration (getEnv "JWT_REFRESH_TOKEN_EXPIRY" "168h") with
  | None => Err (Errorf "invalid JWT_REFRESH_TOKEN_EXPIRY")
  | Some refreshExpiry =>
  match loadOrGenerateKeys
          (getEnv "JWT_PRIVATE_KEY_PATH" "./keys/private_key.pem")
          (getEnv "JWT_PUBLIC_KEY_PATH" "./keys/public_key.pem") with
  | Err err => Err (Errorf_w "failed to load RSA keys" err)
  | Ok (privateKey, publicKey) =>
  (* Validate required fields *)
  if String.eqb (getEnv "DATABASE_URL" "") "" then
    Err (Errorf "DATABASE_URL is required")
  else if String.eqb (getEnv "GOOGLE_CLIENT_ID" "") "" then
    Err (Errorf "GOOGLE_CLIENT_ID is required")
  else if String.eqb (getEnv "GOOGLE_CLIENT_SECRET" "") "" then
    Err (Errorf "GOOGLE_CLIENT_SECRET is required")
  else
    Ok {| Port := getEnv "PORT" "8080";
          DatabaseURL := getEnv "DATABASE_URL" "";
          GoogleClientID := getEnv "GOOGLE_CLIENT_ID" "";
          GoogleClientSecret := getEnv "GOOGLE_CLIENT_SECRET" "";
          GoogleRedirectURL :=
            getEnv "GOOGLE_REDIRECT_URL"
              "http://localhost:8080/api/auth/google/callback";
          Core :=
            {| Env := getEnv "ENV" "development";
               JWTPrivateKey := privateKey;
               JWTPublicKey := publicKey;
               JWTAccessTokenExpiry := accessExpiry;
               JWTRefreshTokenExpiry := refreshExpiry;
               AllowedOrigins :=
                 parseCSV (getEnv "ALLOWED_ORIGINS"
                             "http://localhost:3000,http://localhost:5173");
               AdminEmails := parseCSV (getEnv "ADMIN_EMAILS" "") |} |}
  end end end.

End WithRuntime.
End loading.


(** ** package middleware (internal/middleware/auth.go) *)
Module middleware.
Section WithRuntime.
Context {L : Libraries} {R : Runtime}.

(** The values of the request context under [UserIDKey], [EmailKey],
    [NameKey] and [RoleKey]; none is set on an incoming request. *)
Record Context := {
  UserIDKey : option UUID;
  EmailKey : option string;
  NameKey : option string;
  RoleKey : option string
}.

Definition Background : Context :=
  {| UserIDKey := None; EmailKey := None; NameKey := None; RoleKey := None |}.

(** What a middleware does with a request: it answers with
    [http.Error(w, msg, code)], or it calls [next.ServeHTTP] with a
    context. *)
Inductive Served :=
| Refused (msg : string) (code : Z)
| Next (ctx : Context).

(** [customJWT.ValidateAccessToken] on the string of the header: the
    parser first takes the serialization apart. *)
Definition ValidateAccessToken (now : Time) (tokenString : string)
    (publicKey : PublicKey) : result Claims :=
  match ParseCompact tokenString with
  | None => Err (Errorf "token is malformed")
  | Some token => jwt.ValidateAccessToken now token publicKey
  end.

(** [authHeader] is [r.Header.Get("Authorization")], empty when the header
    is absent. *)
Definition AuthMiddleware (publicKey : PublicKey) (now : Time)
    (authHeader : string) : Served :=
  if String.eqb authHeader "" then
    Refused "Missing authorization header" handlers.StatusUnauthorized
  else
    match strings.SplitN2 authHeader " " with
    | [scheme; tokenString] =>
        if negb (String.eqb scheme "Bearer") then
          Refused "Invalid authorization header format" handlers.StatusUnauthorized
        else
          match ValidateAccessToken now tokenString publicKey with
          | Err _ => Refused "Invalid or expired token" handlers.StatusUnauthorized
          | Ok claims =>
              Next {| UserIDKey := Some (UserID claims);
                      EmailKey := Some (Email claims);
                      NameKey := Some (Name claims);
                      RoleKey := Some (Role claims) |}
          end
    | _ => Refused "Invalid authorization header format" handlers.StatusUnauthorized
    end.

(** Must be used after [AuthMiddleware]. *)
Definition AdminMiddleware (ctx : Context) : Served :=
  match RoleKey ctx with
  | None => Refused "Role not found in context" handlers.StatusInternalServerError
  | Some role =>
      if negb (String.eqb role "admin") then
        Refused "Admin access required" handlers.StatusForbidden
      else Next ctx
  end.

Definition IsAdmin (ctx : Context) : bool :=
  match RoleKey ctx with
  | Some role => String.eqb role "admin"
  | None => false
  end.

Definition GetRole (ctx : Context) : string * bool :=
  match RoleKey ctx with
  | Some role => (role, true)
  | None => (EmptyString, false)
  end.

End WithRuntime.
End middleware.

(** ** package handlers: user administration (ListUsers, GetUser,
    UpdateUser, DeleteUser, ActivateUser, GetCurrentUser) *)
Module administration.

(** The statements of these handlers, named for the fault they may
    suffer. *)
Inductive Statement :=
| CountUsers
| SelectUsersPage
| SelectUserByID
| UpdateUserProfile
| SoftDeleteUser
| ActivateUserByID.

(** [UserResponse]: a user row without its role. *)
Record UserResponse := {
  ID : UUID;
  Email : string;
  GoogleID : option string;
  Name : string;
  AvatarURL : option string;
  IsActive : bool;
  CreatedAt : Time;
  UpdatedAt : Time;
  DeletedAt : option Time
}.

Definition scanned (u : User) : UserResponse :=
  {| ID := u_ID u; Email := u_Email u; GoogleID := u_GoogleID u;
     Name := u_Name u; AvatarURL := u_AvatarURL u; IsActive := u_IsActive u;
     CreatedAt := u_CreatedAt u; UpdatedAt := u_UpdatedAt u;
     DeletedAt := u_DeletedAt u |}.

Record ListUsersResponse := {
  Users : list UserResponse;
  Total : Z;
  Page : Z;
  PageSize : Z;
  TotalPages : Z
}.

Inductive Body :=
| Text (msg : string)
| JSON_list (response : ListUsersResponse)
| JSON_user (user : UserResponse)
| JSON_current (user : User)
| JSON_message (msg : string).

Record Response := {
  StatusCode : Z;
  Body_ : Body
}.

Definition http_Error (msg : string) (code : Z) : Response :=
  {| StatusCode := code; Body_ := Text msg |}.

Definition OK (body : Body) : Response :=
  {| StatusCode := handlers.StatusOK; Body_ := body |}.

(** [deleted_at IS NULL] *)
Definition live (u : User) : bool := is_null (u_DeletedAt u).

(** [WHERE id = $1 AND deleted_at IS NULL] *)
Definition hit (id : UUID) (u : User) : bool := N.eqb (u_ID u) id && live u.

(** [ORDER BY created_at DESC]: rows created at the same instant keep the
    order of the table here; the statement leaves their order open. *)
Fixpoint insert_desc (u : User) (sorted : list User) : list User :=
  match sorted with
  | [] => [u]
  | v :: rest =>
      if u_CreatedAt v <=? u_CreatedAt u then u :: sorted
      else v :: insert_desc u rest
  end.

Definition order_by_created_at_desc (rows : list User) : list User :=
  fold_right insert_desc [] rows.

(** [SELECT ... FROM users WHERE deleted_at IS NULL
     ORDER BY created_at DESC] *)
Definition listing (db : DB) : list User :=
  order_by_created_at_desc (filter live (users db)).

Section Handlers.
Variable w : World.
Variable failing : Statement -> bool.

(** [page] and [pageSize] after the defaults. *)
Definition page_of (r : handlers.Request) : Z :=
  let page := strconv.Atoi (handlers.Query_Get r "page") in
  if page <? 1 then 1 else page.

Definition pageSize_of (r : handlers.Request) : Z :=
  let pageSize := strconv.Atoi (handlers.Query_Get r "page_size") in
  if (pageSize <? 1) || (100 <? pageSize) then 20 else pageSize.

Definition ListUsers (r : handlers.Request) (db : DB) : Response :=
  let page := page_of r in
  let pageSize := pageSize_of r in
  let offset := strconv.int ((page - 1) * pageSize) in
  (* Get total count *)
  if failing CountUsers then
    http_Error "Failed to count users" handlers.StatusInternalServerError
  else
  let total := Z.of_nat (List.length (filter live (users db))) in
  (* Get users: a negative OFFSET is an error of the statement *)
  if failing SelectUsersPage || (offset <? 0) then
    http_Error "Failed to query users" handlers.StatusInternalServerError
  else
  let rows := firstn (Z.to_nat pageSize) (skipn (Z.to_nat offset) (listing db)) in
  let totalPages := Z.quot (strconv.int (total + pageSize - 1)) pageSize in
  OK (JSON_list {| Users := map scanned rows; Total := total; Page := page;
                   PageSize := pageSize; TotalPages := totalPages |}).

(** [id] is the result of [uuid.Parse] on the path parameter. *)
Definition GetUser (id : option UUID) (db : DB) : Response :=
  match id with
  | None => http_Error "Invalid user ID" handlers.StatusBadRequest
  | Some userID =>
      if failing SelectUserByID then
        http_Error "User not found" handlers.StatusNotFound
      else
        match find (hit userID) (users db) with
        | Some user => OK (JSON_user (scanned user))
        | None => http_Error "User not found" handlers.StatusNotFound
        end
  end.

(** [COALESCE($1, column)] *)
Definition COALESCE {A} (new : option A) (old : A) : A :=
  match new with Some v => v | None => old end.

(** [body] is the decoded request body, the [name] and [avatar_url] it
    gives; no body for one that does not decode. *)
Definition UpdateUser (id : option UUID)
    (body : option (option string * option string)) (db : DB) : Response * DB :=
  match id with
  | None => (http_Error "Invalid user ID" handlers.StatusBadRequest, db)
  | Some userID =>
  match body with
  | None => (http_Error "Invalid request body" handlers.StatusBadRequest, db)
  | Some (name, avatar_url) =>
      let upd u :=
        if hit userID u then
          {| u_ID := u_ID u; u_Email := u_Email u; u_GoogleID := u_GoogleID u;
             u_Name := COALESCE name (u_Name u);
             u_AvatarURL := match avatar_url with
                            | Some a => Some a
                            | None => u_AvatarURL u
                            end;
             u_Role := u_Role u; u_IsActive := u_IsActive u;
             u_CreatedAt := u_CreatedAt u; u_UpdatedAt := now w;
             u_DeletedAt := u_DeletedAt u |}
        else u in
      if failing UpdateUserProfile then
        (http_Error "Failed to update user" handlers.StatusInternalServerError, db)
      else
        match find (hit userID) (users db) with
        | Some u => (OK (JSON_user (scanned (upd u))),
                     set_users (map upd (users db)) db)
        | None =>
            (http_Error "Failed to update user" handlers.StatusInternalServerError,
             db)
        end
  end end.

(** [UPDATE users SET deleted_at = NOW(), is_active = false
     WHERE id = $1 AND deleted_at IS NULL]; the trigger of the schema sets
    [updated_at]. *)
Definition DeleteUser (id : option UUID) (db : DB) : Response * DB :=
  match id with
  | None => (http_Error "Invalid user ID" handlers.StatusBadRequest, db)
  | Some userID =>
      let upd u :=
        if hit userID u then
          {| u_ID := u_ID u; u_Email := u_Email u; u_GoogleID := u_GoogleID u;
             u_Name := u_Name u; u_AvatarURL := u_AvatarURL u;
             u_Role := u_Role u; u_IsActive := false;
             u_CreatedAt := u_CreatedAt u; u_UpdatedAt := now w;
             u_DeletedAt := Some (now w) |}
        else u in
      if failing SoftDeleteUser then
        (http_Error "Failed to delete user" handlers.StatusInternalServerError, db)
      else
        let RowsAffected := List.length (filter (hit userID) (users db)) in
        if Nat.eqb RowsAffected 0 then
          (http_Error "User not found" handlers.StatusNotFound, db)
        else
          (OK (JSON_message "User deleted successfully"),
           set_users (map upd (users db)) db)
  end.

(** [UPDATE users SET is_active = true, updated_at = NOW()
     WHERE id = $1 AND deleted_at IS NULL RETURNING ...] *)
Definition ActivateUser (id : option UUID) (db : DB) : Response * DB :=
  match id with
  | None => (http_Error "Invalid user ID" handlers.StatusBadRequest, db)
  | Some userID =>
      let upd u :=
        if hit userID u then
          {| u_ID := u_ID u; u_Email := u_Email u; u_GoogleID := u_GoogleID u;
             u_Name := u_Name u; u_AvatarURL := u_AvatarURL u;
             u_Role := u_Role u; u_IsActive := true;
             u_CreatedAt := u_CreatedAt u; u_UpdatedAt := now w;
             u_DeletedAt := u_DeletedAt u |}
        else u in
      if failing ActivateUserByID then
        (http_Error "User not found" handlers.StatusNotFound, db)
      else
        match find (hit userID) (users db) with
        | Some u => (OK (JSON_user (scanned (upd u))),
                     set_users (map upd (users db)) db)
        | None => (http_Error "User not found" handlers.StatusNotFound, db)
        end
  end.

(** [userID] is [ctx.Value(middleware.UserIDKey).(uuid.UUID)]. *)
Definition GetCurrentUser (userID : option UUID) (db : DB) : Response :=
  match userID with
  | None => http_Error "User ID not found in context" handlers.StatusUnauthorized
  | Some userID =>
      if failing SelectUserByID then
        http_Error "User not found" handlers.StatusNotFound
      else
        match find (hit userID) (users db) with
        | Some user => OK (JSON_current user)
        | None => http_Error "User not found" handlers.StatusNotFound
        end
  end.

End Handlers.
End administration.

(** ** package main: the routes behind [AuthMiddleware] (cmd/api/main.go)

    [r.Group(func(r chi.Router) { r.Use(middleware.AuthMiddleware(...)) ... })]:
    the one middleware of the group, then the handler of the route.  The
    middlewares of the whole router (logger, recoverer, request id, real
    IP, CORS) hand a request of these methods on to the group. *)
Module api.
Section WithRuntime.
Context {L : Libraries} {R : Runtime}.
Variable cfg : Config.
Variable w : World.
Variable failing : administration.Statement -> bool.

(** The routes of the group, each with what its handler reads of the
    request: the query, the parse of the path parameter [id], the decoded
    body. *)
Inductive Protected :=
| GET_auth_me
| GET_users (r : handlers.Request)
| GET_users_id (id : option UUID)
| PUT_users_id (id : option UUID) (body : option (option string * option string))
| DELETE_users_id (id : option UUID)
| POST_users_id_activate (id : option UUID)
| POST_users_id_deactivate (id : option UUID).

(** Who answered: the middleware, or a handler. *)
Inductive Answer :=
| FromMiddleware (msg : string) (code : Z)
| FromAdministration (resp : administration.Response)
| FromHandlers (resp : handlers.Response).

(** The handler of a route, on the context the middleware passes. *)
Definition Handle (ctx : middleware.Context) (route : Protected) (db : DB)
  : Answer * DB :=
  match route with
  | GET_auth_me =>
      (FromAdministration
         (administration.GetCurrentUser failing (middleware.UserIDKey ctx) db), db)
  | GET_users r => (FromAdministration (administration.ListUsers failing r db), db)
  | GET_users_id id => (FromAdministration (administration.GetUser failing id db), db)
  | PUT_users_id id body =>
      let (resp, db') := administration.UpdateUser w failing id body db in
      (FromAdministration resp, db')
  | DELETE_users_id id =>
      let (resp, db') := administration.DeleteUser w failing id db in
      (FromAdministration resp, db')
  | POST_users_id_activate id =>
      let (resp, db') := administration.ActivateUser w failing id db in
      (FromAdministration resp, db')
  | POST_users_id_deactivate id =>
      match id with
      | None =>
          (FromAdministration
             (administration.http_Error "Invalid user ID" handlers.StatusBadRequest),
           db)
      | Some userID =>
          let (resp, db') := handlers.DeactivateUser w userID db in
          (FromHandlers resp, db')
      end
  end.

Definition Serve (authHeader : string) (route : Protected) (db : DB)
  : Answer * DB :=
  match middleware.AuthMiddleware (JWTPublicKey cfg) (now w) authHeader with
  | middleware.Refused msg code => (FromMiddleware msg code, db)
  | middleware.Next ctx => Handle ctx route db
  end.

End WithRuntime.
End api.


(** ** net/http: the value of a cookie on its way out and back

    [http.SetCookie] writes [Cookie.String()], which sanitizes the value;
    [r.Cookie] reads what [readCookies] parses from the Cookie header. *)
Module http.

Definition DQUOTE : ascii := ascii_of_nat 34.

(** [validCookieValueByte]: a printable ASCII byte other than the double
    quote, the semicolon and the backslash. *)
Definition validCookieValueByte (b : ascii) : bool :=
  let n := nat_of_ascii b in
  (32 <=? n)%nat && (n <? 127)%nat
  && negb (n =? 34)%nat && negb (n =? 59)%nat && negb (n =? 92)%nat.

(** [sanitizeOrWarn(fieldName, valid, v)]: [v] without its invalid bytes. *)
Definition sanitizeOrWarn (valid : ascii -> bool) (v : string) : string :=
  string_of_list_ascii (filter valid (list_ascii_of_string v)).

(** [sanitizeCookieValue(v, false)]: the invalid bytes are dropped, and a
    value with a space or a comma is put between double quotes. *)
Definition sanitizeCookieValue (v : string) : string :=
  let v := sanitizeOrWarn validCookieValueByte v in
  if (String.length v =? 0)%nat then v
  else if existsb (fun c => Ascii.eqb c " " || Ascii.eqb c ",")
            (list_ascii_of_string v)
       then String DQUOTE (v ++ String DQUOTE EmptyString)
       else v.

(** [parseCookieValue(raw, true)]: a pair of double quotes around the
    value is stripped, and a value with an invalid byte is no value. *)
Definition parseCookieValue (raw : string) : option string :=
  let bytes := list_ascii_of_string raw in
  let raw :=
    if (1 <? List.length bytes)%nat
       && Ascii.eqb (hd zero bytes) DQUOTE && Ascii.eqb (last bytes zero) DQUOTE
    then removelast (tl bytes)
    else bytes in
  if forallb validCookieValueByte raw then Some (string_of_list_ascii raw)
  else None.

End http.

(** ** The integration guide (INTEGRATION.md)

    The client the guide gives to the services that validate the tokens
    of this one. *)
Module integration.
Section WithLibraries.
Context {L : Libraries}.

(** [fetchPublicKey(authServiceURL)], from the body of the answer to
    [GET /api/public-key] on: the first PEM block of [data], read as a
    PKIX public key. *)
Definition fetchPublicKey (data : string) : result PublicKey :=
  match pem_Decode data with
  | None => Err (Errorf "failed to decode PEM block")
  | Some block =>
      match ParsePKIXPublicKey block with
      | None =>
          Err (Errorf "failed to parse public key: x509: failed to parse public key")
      | Some None => Err (Errorf "not an RSA public key")
      | Some (Some rsaPub) => Ok rsaPub
      end
  end.

End WithLibraries.
End integration.

(** ** Vocabulary of the further properties *)
Section FurtherVocabulary.
Context {L : Libraries}.

(** No byte of the string belongs to a multi-byte rune. *)
Definition ascii_only (s : string) : Prop :=
  Forall (fun c => strings.RuneSelf c = false) (list_ascii_of_string s).

(** An ASCII byte that is not white space. *)
Definition solid (c : ascii) : Prop :=
  strings.RuneSelf c = false /\ strings.asciiSpace c = false.

(** The string is empty, or starts and ends with an ASCII byte that is not
    white space. *)
Definition trimmed (s : string) : Prop :=
  match list_ascii_of_string s with
  | [] => True
  | c :: _ => solid c
  end /\
  match rev (list_ascii_of_string s) with
  | [] => True
  | c :: _ => solid c
  end.

(** The string has no comma. *)
Definition comma_free (s : string) : Prop :=
  ~ In ","%char (list_ascii_of_string s).

(** An entry of a comma-separated list as one would write it: not empty,
    no comma, no blank at either end. *)
Definition entry (s : string) : Prop :=
  s <> EmptyString /\ comma_free s /\ trimmed s.

(** A signature verifies for the signing string it was made for only. *)
Definition signatures_name_their_message : Prop :=
  forall m m' k pk s s' sig,
    Sign m k s = Some sig -> s' <> s -> Verify m' pk s' sig = false.

(** The world, with the insertion into the audit log failing or not. *)
Definition with_audit (failing : bool) (w : World) : World :=
  {| now := now w; rand_Read := rand_Read w; bcrypt_salt := bcrypt_salt w;
     gen_random_uuid := gen_random_uuid w;
     fails := fun s => match s with
                       | InsertAuditLog => failing
                       | _ => fails w s
                       end;
     google := google w |}.

(** The request carries the cookies a response set: what [r.Cookie]
    reads is what [http.SetCookie] wrote, a value that was sanitized on
    its way out and parsed on its way in. *)
Definition carries (r : handlers.Request) (resp : handlers.Response) : Prop :=
  forall c, In c (handlers.SetCookie resp) ->
    handlers.Cookie_ r (handlers.c_Name c)
      = http.parseCookieValue (http.sanitizeCookieValue (handlers.c_Value c)).

(** The string is made of bytes a cookie value may hold. *)
Definition cookie_safe (s : string) : Prop :=
  forallb http.validCookieValueByte (list_ascii_of_string s) = true.

(** The rows of a response of [ListUsers], none for an error. *)
Definition listed (resp : administration.Response) : list administration.UserResponse :=
  match administration.Body_ resp with
  | administration.JSON_list l => administration.Users l
  | _ => []
  end.

(** Who a row is: what the administration handlers never write. *)
Definition identity_of (u : User) : UUID * string * option string * string * Time :=
  (u_ID u, u_Email u, u_GoogleID u, u_Role u, u_CreatedAt u).

(** Two stores with the same accounts, sessions and audit log: the rows
    of the users table are the same persons in the same order, the other
    two tables are equal. *)
Definition same_accounts (db db' : DB) : Prop :=
  map identity_of (users db') = map identity_of (users db) /\
  refresh_tokens db' = refresh_tokens db /\
  auth_audit_log db' = auth_audit_log db.

(** Newest first, no two rows of one instant. *)
Fixpoint newest_first (rows : list User) : Prop :=
  match rows with
  | [] => True
  | u :: rest =>
      (forall v, In v rest -> u_CreatedAt v < u_CreatedAt u) /\ newest_first rest
  end.

(** The requests ask for the pages 1, 2, ... of one size, in this order. *)
Definition asks (pageSize : Z) (rs : list handlers.Request) : Prop :=
  forall i r, nth_error rs i = Some r ->
    administration.page_of r = Z.of_nat (S i) /\
    administration.pageSize_of r = pageSize.

(** No row of the user can pass [is_active = true AND deleted_at IS NULL]. *)
Definition locked_out (id : UUID) (db : DB) : Prop :=
  forall u, In u (users db) -> u_ID u = id ->
    u_IsActive u && administration.live u = false.

End FurtherVocabulary.

Section Stacked.
Context {L : Libraries} {R : Runtime}.

(** [AdminMiddleware] stacked on [AuthMiddleware], the use its comment asks
    for ("Must be used after AuthMiddleware").  The router installs
    [AuthMiddleware] only, see [api.Serve]. *)
Definition admin_only (publicKey : PublicKey) (now : Time) (authHeader : string)
  : middleware.Served :=
  match middleware.AuthMiddleware publicKey now authHeader with
  | middleware.Next ctx => middleware.AdminMiddleware ctx
  | refused => refused
  end.

End Stacked.


(** ** Further cases to run the code on *)
Module Cases.

(** The access token of [Sample.issued]. *)
Definition access_alice : @jwt.Token Sample.toy :=
  @jwt.Build_Token Sample.toy SigningMethodRS256
    (issued_claims Sample.cfg (Sample.world 100 x01 20%N) Sample.alice)
    (7%nat, (SigningMethodRS256,
             issued_claims Sample.cfg (Sample.world 100 x01 20%N) Sample.alice)).

Definition root : User := {|
  u_ID := 3%N; u_Email := "root@example.com"; u_GoogleID := Some "g-root";
  u_Name := "Root"; u_AvatarURL := None; u_Role := "admin"; u_IsActive := true;
  u_CreatedAt := 50 * time.Second; u_UpdatedAt := 50 * time.Second; u_DeletedAt := None
|}.

Definition access_root : @jwt.Token Sample.toy :=
  @jwt.Build_Token Sample.toy SigningMethodRS256
    (issued_claims Sample.cfg (Sample.world 100 x01 20%N) root)
    (7%nat, (SigningMethodRS256,
             issued_claims Sample.cfg (Sample.world 100 x01 20%N) root)).

(** A runtime with two key files, a copy of what [GetPublicKey] serves for
    [Sample.cfg], four durations and two tokens. *)
Definition runtime : @Runtime Sample.toy :=
  @Build_Runtime Sample.toy
    (fun s => s)
    (fun s => s)
    (fun s => if String.eqb s "15m" then Some (15 * time.Minute)
              else if String.eqb s "168h" then Some (168 * time.Hour)
              else if String.eqb s "1h" then Some time.Hour
              else if String.eqb s "1500ms" then Some (1500 * time.Millisecond)
              else None)
    (fun path => if String.eqb path "./keys/private_key.pem" then Some "PRIVATE"
                 else if String.eqb path "./keys/public_key.pem"
                 then Some "PKIX:kkkkkkk"
                 else if String.eqb path "./keys/served.pem"
                 then Some "PKCS1:kkkkkkk"
                 else None)
    (fun block => if String.eqb block "PRIVATE" then Some (Some 7%nat) else None)
    (fun _ => None)
    (fun s => if String.eqb s "alice.token" then Some access_alice
              else if String.eqb s "root.token" then Some access_root else None).

(** An environment with the required variables and a list of
    administrators. *)
Definition environ (key : string) : string :=
  if String.eqb key "DATABASE_URL" then "postgres://auth@db/auth"
  else if String.eqb key "GOOGLE_CLIENT_ID" then "client-id"
  else if String.eqb key "GOOGLE_CLIENT_SECRET" then "client-secret"
  else if String.eqb key "ADMIN_EMAILS" then " root@example.com , ,ops@example.com"
  else "".

(** An environment that asks for access tokens of 1500ms. *)
Definition hasty (key : string) : string :=
  if String.eqb key "JWT_ACCESS_TOKEN_EXPIRY" then "1500ms" else environ key.

(** An environment whose list of origins holds separators only. *)
Definition no_origins (key : string) : string :=
  if String.eqb key "ALLOWED_ORIGINS" then " , ," else environ key.

(** A configuration whose public key is the public half of another
    private key. *)
Definition mismatched : @Config Sample.toy :=
  @config.Build_Config Sample.toy "production" 7%nat 8%nat
    (15 * time.Minute) (168 * time.Hour)
    ["https://app.example.com"] ["root@example.com"].

Definition carol_identity : GoogleUserInfo := {|
  g_ID := "g-carol"; g_Email := "carol@example.com"; g_VerifiedEmail := true;
  g_Name := "Carol"; g_Picture := "https://lh3.example.com/carol"
|}.

(** Alice's identity after she changed her address at Google. *)
Definition alice_moved : GoogleUserInfo := {|
  g_ID := "g-alice"; g_Email := "alice@elsewhere.example"; g_VerifiedEmail := true;
  g_Name := "Alice A."; g_Picture := "https://lh3.example.com/alice"
|}.

Definition answering (_ : administration.Statement) : bool := false.

(** The callback request of a login Alice started in the world
    [Sample.world 100 x01 20], with the target the oauth_redirect cookie
    brings back. *)
Definition returning_to (target : string) : handlers.Request := {|
  handlers.Query_Get := fun k =>
    if String.eqb k "state" then "AQEBAQEBAQEBAQEBAQEBAQ=="
    else if String.eqb k "code" then "4/0AfJohXk" else "";
  handlers.Cookie_ := fun k =>
    if String.eqb k "oauth_state"
    then Some "AQEBAQEBAQEBAQEBAQEBAQ=="
    else if String.eqb k "oauth_redirect" then Some target
    else None;
  handlers.RemoteAddr := "203.0.113.7:5555";
  handlers.UserAgent := "Mozilla/5.0";
  handlers.ctx_UserID := None
|}.

Definition returning : handlers.Request :=
  returning_to "https://app.example.com/home".

Definition carol : User := {|
  u_ID := 4%N; u_Email := "carol@example.com"; u_GoogleID := Some "g-carol";
  u_Name := "Carol"; u_AvatarURL := Some "https://lh3.example.com/carol";
  u_Role := "user"; u_IsActive := true;
  u_CreatedAt := 70 * time.Second; u_UpdatedAt := 70 * time.Second; u_DeletedAt := None
|}.

(** A user who was deleted. *)
Definition dave : User := {|
  u_ID := 5%N; u_Email := "dave@example.com"; u_GoogleID := Some "g-dave";
  u_Name := "Dave"; u_AvatarURL := None; u_Role := "user"; u_IsActive := false;
  u_CreatedAt := 60 * time.Second; u_UpdatedAt := 90 * time.Second;
  u_DeletedAt := Some (90 * time.Second)
|}.

(** A store with three users and a deleted one, Alice with a session. *)
Definition office : DB := {|
  users := [Sample.alice; root; dave; carol];
  refresh_tokens := [Sample.token0];
  auth_audit_log := []
|}.

(** A request for a page of the list of users. *)
Definition page_request (page page_size : string) : handlers.Request := {|
  handlers.Query_Get := fun k =>
    if String.eqb k "page" then page
    else if String.eqb k "page_size" then page_size else "";
  handlers.Cookie_ := fun _ => None;
  handlers.RemoteAddr := "203.0.113.9:4444";
  handlers.UserAgent := "Mozilla/5.0";
  handlers.ctx_UserID := None
|}.

End Cases.

(** * Properties *)

(** ** Strings *)

Lemma prefix_iff_append (p s : string) :
  String.prefix p s = true <-> exists t, s = p ++ t.
Proof.
  revert s; induction p as [|c p IH]; intros s; simpl.
  - split; [intros _; exists s; reflexivity | intros _; destruct s; reflexivity].
  - destruct s as [|d s]; simpl.
    + split; [discriminate | intros [t Ht]; discriminate].
    + destruct (Ascii.ascii_dec c d) as [->|Hne].
      * rewrite IH. split; intros [t Ht]; exists t; [now rewrite Ht | now inversion Ht].
      * split; [discriminate | intros [t Ht]; inversion Ht; congruence].
Qed.

Lemma existsb_eqb_In (x : string) (l : list string) :
  existsb (fun y => String.eqb x y) l = true <-> In x l.
Proof.
  rewrite existsb_exists. split.
  - intros [y [Hin Heq]]. apply String.eqb_eq in Heq. now subst.
  - intros Hin. exists x. split; [assumption | apply String.eqb_refl].
Qed.

(** ** The redirect check of the login entry point *)
Section GoogleLogin.
Context {L : Libraries}.
Variable cfg : Config.

Lemma validRedirect_iff (target : string) :
  handlers.validRedirect cfg target = true <-> allowed_target cfg target.
Proof.
  unfold handlers.validRedirect, allowed_target, handlers.HasPrefix.
  rewrite existsb_exists.
  split; intros [origin [Hin H]]; exists origin; split; try assumption.
  - apply orb_true_iff in H. destruct H as [H|H].
    + left. now apply String.eqb_eq.
    + right. apply prefix_iff_append in H. destruct H as [t Ht].
      exists t. rewrite Ht.
      clear. induction origin; simpl; [reflexivity | now f_equal].
  - apply orb_true_iff. destruct H as [H|[path H]].
    + left. now apply String.eqb_eq.
    + right. apply prefix_iff_append. exists path. rewrite H.
      clear. induction origin; simpl; [reflexivity | now f_equal].
Qed.

(** C10.  A redirect target that is given is accepted exactly when it is
    an allowed origin or an allowed origin followed by '/' and a path.
    Any other target gets 400 "Invalid redirect_uri", with no cookie and
    whatever the random source would have delivered (the state is never
    drawn).  An accepted target is stored in the oauth_redirect cookie
    next to the fresh state.  An absent target stands for the first
    allowed origin, which is accepted. *)
Theorem GoogleLogin_redirect_target (w : World) (r : handlers.Request) :
  let asked := handlers.Query_Get r "redirect_uri" in
  let state := base64.EncodeToString
                 (match rand.Read (rand_Read w) 16 with
                  | Some b => b
                  | None => repeat x00 16
                  end) in
  (asked <> "" -> ~ allowed_target cfg asked ->
     forall w', handlers.GoogleLogin cfg w' r =
       Some (handlers.http_Error [] (handlers.Text "Invalid redirect_uri")
               handlers.StatusBadRequest)) /\
  (asked <> "" -> allowed_target cfg asked ->
     handlers.GoogleLogin cfg w r =
       Some (handlers.http_Redirect (login_cookies cfg w state asked)
               (handlers.URL (AuthCodeURL state))
               handlers.StatusTemporaryRedirect)) /\
  (asked = "" -> forall first rest, AllowedOrigins cfg = first :: rest ->
     handlers.GoogleLogin cfg w r =
       Some (handlers.http_Redirect (login_cookies cfg w state first)
               (handlers.URL (AuthCodeURL state))
               handlers.StatusTemporaryRedirect)).
Proof.
  intros asked state. unfold handlers.GoogleLogin. fold asked.
  repeat split.
  - intros Hne Hbad w'.
    destruct (String.eqb asked "") eqn:E; [apply String.eqb_eq in E; contradiction|].
    destruct (handlers.validRedirect cfg asked) eqn:V; [|reflexivity].
    apply validRedirect_iff in V. contradiction.
  - intros Hne Hok.
    destruct (String.eqb asked "") eqn:E; [apply String.eqb_eq in E; contradiction|].
    apply validRedirect_iff in Hok. rewrite Hok. reflexivity.
  - intros Hempty first rest Hcfg.
    rewrite Hempty, Hcfg. simpl.
    assert (V : handlers.validRedirect cfg first = true).
    { apply validRedirect_iff. exists first. split; [rewrite Hcfg; now left | now left]. }
    rewrite V. reflexivity.
Qed.

End GoogleLogin.

Lemma GoogleLogin_redirect_target_witness :
  let cfg := Sample.cfg in
  let w := Sample.world 100 x01 20%N in
  (forall w', @handlers.GoogleLogin Sample.toy cfg w'
                (Sample.request "https://app.example.com.evil.org" None) =
     Some (handlers.http_Error [] (handlers.Text "Invalid redirect_uri")
             handlers.StatusBadRequest)) /\
  sets_cookie "oauth_redirect"
    (match @handlers.GoogleLogin Sample.toy cfg w
             (Sample.request "https://app.example.com/home" None) with
     | Some resp => resp
     | None => handlers.http_Error [] handlers.Empty 0
     end) /\
  @handlers.GoogleLogin Sample.toy cfg w (Sample.request "" None) =
    Some (handlers.http_Redirect
            (login_cookies cfg w "AQEBAQEBAQEBAQEBAQEBAQ=="
               "https://app.example.com")
            (handlers.URL (@AuthCodeURL Sample.toy "AQEBAQEBAQEBAQEBAQEBAQ=="))
            handlers.StatusTemporaryRedirect).
Proof.
  intros cfg w.
  assert (Hbad : ~ @allowed_target Sample.toy cfg "https://app.example.com.evil.org").
  { intros [origin [Hin H]]. simpl in Hin.
    destruct Hin as [<-|[<-|[]]]; destruct H as [H|[path H]]; discriminate. }
  assert (Hgood : @allowed_target Sample.toy cfg "https://app.example.com/home").
  { exists "https://app.example.com". split; [now left|].
    right. exists "home". reflexivity. }
  split; [|split].
  - apply (proj1 (@GoogleLogin_redirect_target Sample.toy cfg w
                    (Sample.request "https://app.example.com.evil.org" None)));
      [discriminate | exact Hbad].
  - rewrite (proj1 (proj2 (@GoogleLogin_redirect_target Sample.toy cfg w
                    (Sample.request "https://app.example.com/home" None))));
      [|discriminate | exact Hgood].
    eexists. split; [right; left; reflexivity | reflexivity].
  - apply (proj2 (proj2 (@GoogleLogin_redirect_target Sample.toy cfg w
                    (Sample.request "" None))) eq_refl
             "https://app.example.com" ["http://localhost:3000"] eq_refl).
Defined.

(** ** Issuing a pair *)
Section Issue.
Context {L : Libraries}.
Variable cfg : Config.
Variable w : World.

(** A successful issue: the access token is the signed claims, the raw
    refresh token is the encoding of the random bytes, and the store
    gained one row, which holds the bcrypt hash. *)
Lemma GenerateTokens_Ok (user : User) (db db' : DB) (pair : auth.TokenPair) :
  auth.GenerateTokens cfg w user db = (Ok pair, db') ->
  exists sig b hash,
    Sign SigningMethodRS256 (JWTPrivateKey cfg)
      (SigningMethodRS256, issued_claims cfg w user) = Some sig /\
    rand.Read (rand_Read w) 32 = Some b /\
    GenerateFromPassword (bcrypt_salt w) (base64.EncodeToString b)
      jwt.DefaultCost = Some hash /\
    ~ In (gen_random_uuid w) (map rt_ID (refresh_tokens db)) /\
    pair = {| AccessToken_ := {| jwt.Method := SigningMethodRS256;
                                 jwt.Claims_ := issued_claims cfg w user;
                                 jwt.Signature_ := sig |};
              RefreshToken_ := base64.EncodeToString b |} /\
    db' = set_refresh_tokens (refresh_tokens db ++ [issued_row cfg w user hash])%list db.
Proof.
  unfold auth.GenerateTokens, bind, wrap, lift, ret, jwt.GenerateAccessToken,
    jwt.SignedString, jwt.GenerateRefreshToken, jwt.HashRefreshToken,
    insert_refresh_token.
  fold (issued_claims cfg w user).
  destruct (Sign SigningMethodRS256 (JWTPrivateKey cfg)
              (SigningMethodRS256, issued_claims cfg w user)) as [sig|] eqn:Es;
    [|discriminate].
  destruct (rand.Read (rand_Read w) 32) as [b|] eqn:Eb; [|discriminate].
  destruct (GenerateFromPassword (bcrypt_salt w) (base64.EncodeToString b)
              jwt.DefaultCost) as [hash|] eqn:Eh; [|discriminate].
  match goal with |- context [if ?c then _ else _] => destruct c eqn:C end;
    [discriminate|].
  intros H. inversion H; subst; clear H.
  exists sig, b, hash.
  split; [reflexivity|]. split; [reflexivity|]. split; [exact Eh|].
  split; [|split; reflexivity].
  apply orb_false_iff in C. destruct C as [C _].
  apply orb_false_iff in C. destruct C as [_ C].
  intros Hin. apply in_map_iff in Hin. destruct Hin as [t [Hid Hin]].
  assert (X : existsb (fun t0 => N.eqb (rt_ID t0) (gen_random_uuid w)
               || String.eqb (rt_TokenHash t0) hash) (refresh_tokens db) = true).
  { apply existsb_exists. exists t. split; [assumption|].
    simpl in Hid. rewrite Hid, N.eqb_refl. reflexivity. }
  simpl in C. rewrite X in C. discriminate.
Qed.

(** A failed issue leaves the store as it was. *)
Lemma GenerateTokens_Err (user : User) (db db' : DB) (e : error) :
  auth.GenerateTokens cfg w user db = (Err e, db') -> db' = db.
Proof.
  unfold auth.GenerateTokens, bind, wrap, lift, ret, insert_refresh_token.
  destruct (jwt.GenerateAccessToken _ _ _ _ _ _ _); [|now inversion 1].
  destruct (jwt.GenerateRefreshToken _); [|now inversion 1].
  destruct (jwt.HashRefreshToken _ _); [|now inversion 1].
  match goal with |- context [if ?c then _ else _] => destruct c end;
    now inversion 1.
Qed.

(** The access token of an issued pair validates before its expiry
    under the public half of the signing key, and the claims are the ones
    that were signed.  Validation reads the token, the key and the clock,
    and nothing of the store. *)
Lemma issued_access_token_validates
    (user : User) (db db' : DB) (pair : auth.TokenPair) (t : Time) :
  signatures_verify ->
  JWTPublicKey cfg = Public (JWTPrivateKey cfg) ->
  auth.GenerateTokens cfg w user db = (Ok pair, db') ->
  t < access_expiry cfg w ->
  jwt.ValidateAccessToken t (AccessToken_ pair) (JWTPublicKey cfg)
    = Ok (issued_claims cfg w user).
Proof.
  intros Hsig Hkey Hgen Ht.
  apply GenerateTokens_Ok in Hgen.
  destruct Hgen as [sig [b [hash [Hsign [_ [_ [_ [-> _]]]]]]]].
  unfold jwt.ValidateAccessToken, jwt.ParseWithClaims. simpl.
  rewrite Hkey, (Hsig _ _ _ _ Hsign).
  unfold jwt.Validate. simpl.
  fold (access_expiry cfg w).
  apply Z.ltb_lt in Ht. rewrite Ht. reflexivity.
Qed.

(** Truncation to the second: the whole second at or before the instant. *)
Lemma Truncate_Second (t : Time) :
  time.Truncate t time.Second <= t < time.Truncate t time.Second + time.Second /\
  time.Truncate t time.Second mod time.Second = 0.
Proof.
  unfold time.Truncate, time.Second. simpl.
  pose proof (Z.mod_pos_bound t 1000000000 ltac:(lia)) as Hb.
  split; [lia|].
  rewrite Zminus_mod, Z.mod_mod, Z.sub_diag by lia. reflexivity.
Qed.

(** The distance between the two truncated instants of a token: the TTL
    when that is a whole number of seconds, and else the whole number of
    seconds below or above it. *)
Lemma Truncate_Add (t : Time) (d : Duration) :
  let iat := time.Truncate t time.Second in
  let exp := time.Truncate (Add t d) time.Second in
  (exp = Add iat d <-> d mod time.Second = 0) /\
  Add iat d - time.Second < exp < Add iat d + time.Second.
Proof.
  intros iat exp.
  destruct (Truncate_Second t) as [Ht Ht0].
  destruct (Truncate_Second (Add t d)) as [He He0].
  fold iat in Ht, Ht0. fold exp in He, He0. unfold Add in *.
  split; [|lia]. split.
  - intros E. rewrite E in He0.
    rewrite Zplus_mod, Ht0, Z.add_0_l, Z.mod_mod in He0
      by (unfold time.Second; lia).
    exact He0.
  - intros Hd. unfold time.Second in *.
    apply Z.mod_divide in Ht0, He0, Hd; try lia.
    destruct Ht0 as [a Ha], He0 as [e Hee], Hd as [k Hk]. nia.
Qed.

(** The block that [GetPublicKey] serves parses, with the parser of
    golang-jwt, to the configured public key: the PKIX and the
    certificate parsers refuse a PKCS#1 encoding, the third one reads
    it. *)
Lemma GetPublicKey_parses :
  pem_round_trip -> pkcs1_round_trip -> pkcs1_only ->
  jwt.ParseRSAPublicKeyFromPEM (handlers.GetPublicKey cfg) = Ok (JWTPublicKey cfg).
Proof.
  intros Hpem H1 Honly.
  unfold jwt.ParseRSAPublicKeyFromPEM, handlers.GetPublicKey.
  rewrite Hpem. destruct (Honly (JWTPublicKey cfg)) as [-> ->].
  now rewrite H1.
Qed.

(** Signing is all an access token needs: when the key signs the claims,
    [GenerateAccessToken] returns them signed. *)
Lemma GenerateAccessToken_Ok (user : User) (sig : Signature) :
  Sign SigningMethodRS256 (JWTPrivateKey cfg)
    (SigningMethodRS256, issued_claims cfg w user) = Some sig ->
  jwt.GenerateAccessToken (now w) (u_ID user) (u_Email user) (u_Name user)
    (u_Role user) (JWTPrivateKey cfg) (JWTAccessTokenExpiry cfg)
  = Ok {| jwt.Method := SigningMethodRS256;
          jwt.Claims_ := issued_claims cfg w user;
          jwt.Signature_ := sig |}.
Proof.
  intros Hs. unfold jwt.GenerateAccessToken, jwt.SignedString.
  fold (issued_claims cfg w user). now rewrite Hs.
Qed.

(** The access token [GenerateAccessToken] returns validates before its
    expiry under the public half of the signing key. *)
Lemma GenerateAccessToken_validates
    (user : User) (accessToken : jwt.Token) (t : Time) :
  signatures_verify ->
  JWTPublicKey cfg = Public (JWTPrivateKey cfg) ->
  jwt.GenerateAccessToken (now w) (u_ID user) (u_Email user) (u_Name user)
    (u_Role user) (JWTPrivateKey cfg) (JWTAccessTokenExpiry cfg)
  = Ok accessToken ->
  t < access_expiry cfg w ->
  jwt.ValidateAccessToken t accessToken (JWTPublicKey cfg)
    = Ok (issued_claims cfg w user).
Proof.
  intros Hsig Hkey Hgen Ht.
  unfold jwt.GenerateAccessToken, jwt.SignedString in Hgen.
  fold (issued_claims cfg w user) in Hgen.
  destruct (Sign SigningMethodRS256 (JWTPrivateKey cfg)
              (SigningMethodRS256, issued_claims cfg w user)) as [sig|] eqn:Hsign;
    [|discriminate].
  injection Hgen as <-.
  unfold jwt.ValidateAccessToken, jwt.ParseWithClaims. simpl.
  rewrite Hkey, (Hsig _ _ _ _ Hsign).
  unfold jwt.Validate. simpl.
  fold (access_expiry cfg w).
  apply Z.ltb_lt in Ht. rewrite Ht. reflexivity.
Qed.

(** The access token of a pair is the one [GenerateAccessToken] returns. *)
Lemma GenerateTokens_access (user : User) (db db' : DB) (pair : auth.TokenPair) :
  auth.GenerateTokens cfg w user db = (Ok pair, db') ->
  jwt.GenerateAccessToken (now w) (u_ID user) (u_Email user) (u_Name user)
    (u_Role user) (JWTPrivateKey cfg) (JWTAccessTokenExpiry cfg)
  = Ok (AccessToken_ pair).
Proof.
  intros Hgen. apply GenerateTokens_Ok in Hgen.
  destruct Hgen as [sig [b [hash [Hsign [_ [_ [_ [-> _]]]]]]]].
  now apply GenerateAccessToken_Ok.
Qed.

(** C4.  For every user, an access token is issued at [now w] whenever
    the key signs, and the token issued, by [GenerateAccessToken] alone
    or within the pair of [GenerateTokens], validates at any instant
    before its expiry under the configured public key, when that key is
    the public half of the signing key.  The claims returned have the
    user's id as subject, the instant of issue to the second as issued-at
    and the instant of issue plus the configured access-token TTL, to the
    second, as expiry.  The expiry is the issued-at plus the TTL exactly
    when the TTL is a whole number of seconds, and less than a second
    from it otherwise.  The same token validates under the key that
    golang-jwt's [ParseRSAPublicKeyFromPEM] reads out of the PEM block
    that [GetPublicKey] serves. *)
Theorem issue_then_validate (user : User) (t : Time) :
  signatures_verify -> pem_round_trip -> pkcs1_round_trip -> pkcs1_only ->
  JWTPublicKey cfg = Public (JWTPrivateKey cfg) ->
  t < access_expiry cfg w ->
  let issue :=
    jwt.GenerateAccessToken (now w) (u_ID user) (u_Email user) (u_Name user)
      (u_Role user) (JWTPrivateKey cfg) (JWTAccessTokenExpiry cfg) in
  exists claims iat exp,
    UserID claims = u_ID user /\
    IssuedAt claims = Some iat /\
    ExpiresAt claims = Some exp /\
    iat = time.Truncate (now w) time.Second /\
    exp = time.Truncate (Add (now w) (JWTAccessTokenExpiry cfg)) time.Second /\
    (exp = Add iat (JWTAccessTokenExpiry cfg)
     <-> JWTAccessTokenExpiry cfg mod time.Second = 0) /\
    Add iat (JWTAccessTokenExpiry cfg) - time.Second < exp
      < Add iat (JWTAccessTokenExpiry cfg) + time.Second /\
    (forall sig,
       Sign SigningMethodRS256 (JWTPrivateKey cfg) (SigningMethodRS256, claims)
         = Some sig ->
       exists accessToken, issue = Ok accessToken) /\
    (forall db pair db',
       auth.GenerateTokens cfg w user db = (Ok pair, db') ->
       issue = Ok (AccessToken_ pair)) /\
    (forall accessToken,
       issue = Ok accessToken ->
       jwt.ValidateAccessToken t accessToken (JWTPublicKey cfg) = Ok claims /\
       exists exported,
         jwt.ParseRSAPublicKeyFromPEM (handlers.GetPublicKey cfg) = Ok exported /\
         jwt.ValidateAccessToken t accessToken exported = Ok claims).
Proof.
  intros Hsig Hpem H1 Honly Hkey Ht issue.
  destruct (Truncate_Add (now w) (JWTAccessTokenExpiry cfg)) as [Hiff Hnear].
  exists (issued_claims cfg w user), (time.Truncate (now w) time.Second),
    (time.Truncate (Add (now w) (JWTAccessTokenExpiry cfg)) time.Second).
  split; [reflexivity|]. split; [reflexivity|].
  split; [reflexivity|]. split; [reflexivity|]. split; [reflexivity|].
  split; [exact Hiff|]. split; [exact Hnear|]. split; [|split].
  - intros sig Hs. eexists. unfold issue. apply GenerateAccessToken_Ok. exact Hs.
  - intros db pair db' Hgen. exact (GenerateTokens_access user db db' pair Hgen).
  - intros accessToken Hgen.
    pose proof (GenerateAccessToken_validates user accessToken t Hsig Hkey Hgen Ht)
      as V.
    split; [exact V|].
    exists (JWTPublicKey cfg). split; [|exact V].
    now apply GetPublicKey_parses.
Qed.

End Issue.

Lemma toy_signatures_verify : @signatures_verify Sample.toy.
Proof.
  intros m k [m' c] sig H. simpl in H. inversion H; subst; clear H. simpl.
  rewrite Nat.eqb_refl. simpl.
  assert (Hm : Sample.method_eqb m' m' = true)
    by (destruct m' as [[]|[]|[]|[]| |]; reflexivity).
  rewrite Hm. simpl. unfold Sample.claims_eqb.
  rewrite N.eqb_refl, !String.eqb_refl. simpl.
  destruct (IssuedAt c), (ExpiresAt c), (NotBefore c); simpl;
    rewrite ?Z.eqb_refl; reflexivity.
Qed.

Lemma toy_signatures_name_their_key : @signatures_name_their_key Sample.toy.
Proof.
  intros m m' k k' s s' sig H Hne. simpl in H. inversion H; subst; clear H. simpl.
  destruct (Nat.eqb k' k) eqn:E; [|reflexivity].
  apply Nat.eqb_eq in E. contradiction.
Qed.

Lemma toy_pem_round_trip : @pem_round_trip Sample.toy.
Proof. intros type bytes. reflexivity. Qed.

Lemma toy_pkcs1_round_trip : @pkcs1_round_trip Sample.toy.
Proof.
  intros k. simpl.
  replace (String.prefix "" (string_of_list_ascii (repeat "k"%char k))) with true
    by (now destruct (string_of_list_ascii (repeat "k"%char k))).
  f_equal. rewrite Nat.sub_0_r.
  induction k as [|k IH]; simpl; [reflexivity | now f_equal].
Qed.

Lemma toy_pkcs1_only : @pkcs1_only Sample.toy.
Proof. intros k. split; reflexivity. Qed.



Lemma issue_then_validate_witness :
  let w := Sample.world 100 x01 20%N in
  exists pair db' claims,
    @auth.GenerateTokens Sample.toy Sample.cfg w Sample.alice Sample.db0 = (Ok pair, db') /\
    @jwt.ValidateAccessToken Sample.toy (999 * time.Second) (AccessToken_ pair) 7%nat
      = Ok claims /\
    UserID claims = 1%N /\
    IssuedAt claims = Some (100 * time.Second) /\
    ExpiresAt claims = Some (1000 * time.Second) /\
    exists exported,
      @jwt.ParseRSAPublicKeyFromPEM Sample.toy
        (@handlers.GetPublicKey Sample.toy Sample.cfg) = Ok exported /\
      exported = 7%nat /\
      @jwt.ValidateAccessToken Sample.toy (999 * time.Second) (AccessToken_ pair)
        exported = Ok claims.
Proof.
  intros w.
  destruct (@auth.GenerateTokens Sample.toy Sample.cfg w Sample.alice Sample.db0)
    as [[pair|e] db'] eqn:E; [|vm_compute in E; discriminate].
  destruct (@issue_then_validate Sample.toy Sample.cfg w Sample.alice
              (999 * time.Second) toy_signatures_verify toy_pem_round_trip
              toy_pkcs1_round_trip toy_pkcs1_only eq_refl)
    as [claims [iat [exp [Hsub [Hiat [Hexp [-> [-> [_ [_ [_ [Hpair Hval]]]]]]]]]]]];
    [vm_compute; reflexivity|].
  destruct (Hval _ (Hpair _ _ _ E)) as [V [exported [P V']]].
  exists pair, db', claims.
  split; [reflexivity|]. split; [exact V|]. split; [exact Hsub|].
  split; [exact Hiat|]. split; [exact Hexp|].
  exists exported. split; [exact P|]. split; [|exact V'].
  vm_compute in P. now inversion P.
Defined.

(** C4 does not hold as it stands, on two counts.  For a TTL that is not
    a whole number of seconds: with a TTL of 1500ms, a token issued 600ms
    after second 100 is issued at second 100 and expires at second 102,
    not 1.5s after its issue.  And for the routine that reads the exported
    key: the client of the integration guide reads a PKIX key, and
    refuses the PKCS#1 block that [GetPublicKey] serves. *)
Lemma expiry_is_not_issued_at_plus_TTL :
  (exists pair db' claims iat exp,
     @auth.GenerateTokens Sample.toy Sample.brief Sample.late Sample.alice Sample.db0
       = (Ok pair, db') /\
     @jwt.ValidateAccessToken Sample.toy (101 * time.Second) (AccessToken_ pair) 7%nat
       = Ok claims /\
     IssuedAt claims = Some iat /\ ExpiresAt claims = Some exp /\
     exp <> Add iat (@JWTAccessTokenExpiry Sample.toy Sample.brief)) /\
  @integration.fetchPublicKey Sample.toy (@handlers.GetPublicKey Sample.toy Sample.brief)
    = Err (Errorf "failed to parse public key: x509: failed to parse public key").
Proof.
  split; [|reflexivity].
  eexists. eexists. eexists. eexists. eexists.
  split; [vm_compute; reflexivity|].
  split; [vm_compute; reflexivity|].
  split; [reflexivity|]. split; [reflexivity|].
  vm_compute. discriminate.
Qed.

(** ** Validation *)
Section Validate.
Context {L : Libraries}.

Lemma ValidateAccessToken_not_RSA (now : Time) (tok : jwt.Token) (pk : PublicKey) :
  (forall h, jwt.Method tok <> SigningMethodRSA h) ->
  jwt.ValidateAccessToken now tok pk =
    Err (jwt_ErrTokenUnverifiable (Errorf "unexpected signing method")).
Proof.
  intros H. unfold jwt.ValidateAccessToken, jwt.ParseWithClaims.
  destruct (jwt.Method tok) as [h| | | | |]; try reflexivity.
  exfalso. exact (H h eq_refl).
Qed.

(** C5.  A token whose signature was made with a private key other than
    the service's fails validation under the service's public key,
    whatever its header and claims say; and a token whose header names a
    method that is not RS256, RS384 or RS512 fails before any signature
    is looked at, with "unexpected signing method". *)
Theorem validate_rejects_other_keys (cfg : Config) (now : Time) (tok : jwt.Token) :
  signatures_name_their_key ->
  JWTPublicKey cfg = Public (JWTPrivateKey cfg) ->
  ((exists m' key' s', key' <> JWTPrivateKey cfg /\
                       Sign m' key' s' = Some (jwt.Signature_ tok))
   \/ (forall h, jwt.Method tok <> SigningMethodRSA h)) ->
  exists e, jwt.ValidateAccessToken now tok (JWTPublicKey cfg) = Err e /\
            ((forall h, jwt.Method tok <> SigningMethodRSA h) ->
             e = jwt_ErrTokenUnverifiable (Errorf "unexpected signing method")).
Proof.
  intros Hlaw Hkey [[m' [key' [s' [Hne Hsign]]]] | Hm].
  - unfold jwt.ValidateAccessToken, jwt.ParseWithClaims.
    destruct (jwt.Method tok) as [h| | | | |] eqn:M;
      try (eexists; split; [reflexivity | intros; reflexivity]).
    rewrite Hkey, (Hlaw _ _ _ _ _ _ _ Hsign Hne).
    eexists; split; [reflexivity|].
    intros Hm. exfalso. exact (Hm h eq_refl).
  - eexists. split; [now apply ValidateAccessToken_not_RSA | reflexivity].
Qed.

End Validate.

Lemma validate_rejects_other_keys_witness :
  let claims := {| UserID := 1%N; Email := "alice@example.com"; Name := "Alice";
                   Role := "admin"; Issuer := "auth-service";
                   IssuedAt := Some (100 * time.Second);
                   ExpiresAt := Some (1000 * time.Second);
                   NotBefore := None |} in
  let forged := @jwt.Build_Token Sample.toy SigningMethodRS256 claims
                  (8%nat, (SigningMethodRS256, claims)) in
  let hmac := @jwt.Build_Token Sample.toy (SigningMethodHMAC SHA256) claims
                (7%nat, (SigningMethodHMAC SHA256, claims)) in
  @jwt.ValidateAccessToken Sample.toy (500 * time.Second) forged 7%nat = Err jwt_ErrTokenSignatureInvalid /\
  @jwt.ValidateAccessToken Sample.toy (500 * time.Second) hmac 7%nat =
    Err (jwt_ErrTokenUnverifiable (Errorf "unexpected signing method")).
Proof.
  intros claims forged hmac. split.
  - destruct (@validate_rejects_other_keys Sample.toy Sample.cfg (500 * time.Second) forged
                toy_signatures_name_their_key eq_refl) as [e [He _]].
    + left. exists SigningMethodRS256, 8%nat, (SigningMethodRS256, claims).
      split; [discriminate | reflexivity].
    + vm_compute in He. inversion He. reflexivity.
  - destruct (@validate_rejects_other_keys Sample.toy Sample.cfg (500 * time.Second) hmac
                toy_signatures_name_their_key eq_refl) as [e [He Hm]].
    + right. intros h. discriminate.
    + rewrite <- Hm; [exact He | intros h; discriminate].
Defined.

(** ** Reconciliation *)
Section Reconcile.
Context {L : Libraries}.
Variable cfg : Config.
Variable w : World.

Lemma find_In_Some {A} (f : A -> bool) (l : list A) (x : A) :
  In x l -> f x = true -> exists y, find f l = Some y.
Proof.
  intros Hin Hf. destruct (find f l) as [y|] eqn:F; [now exists y|].
  pose proof (find_none _ _ F x Hin) as N. congruence.
Qed.

Lemma role_cases (email role : string) :
  ((if auth.inAdminEmails cfg email then RoleAdmin else role) = RoleAdmin
   <-> In email (AdminEmails cfg) \/ role = RoleAdmin) /\
  (role = RoleUser ->
   ((if auth.inAdminEmails cfg email then RoleAdmin else role) = RoleUser
    <-> ~ In email (AdminEmails cfg))).
Proof.
  unfold auth.inAdminEmails.
  destruct (existsb _ (AdminEmails cfg)) eqn:A.
  - apply existsb_eqb_In in A. split.
    + split; [now left | reflexivity].
    + intros _. split; [discriminate | contradiction].
  - assert (N : ~ In email (AdminEmails cfg)).
    { intros Hin. apply existsb_eqb_In in Hin. congruence. }
    split.
    + split; [now right | intros [H|H]; [contradiction | exact H]].
    + intros ->. split; [intros _; exact N | reflexivity].
Qed.

(** C7.  Reconciliation succeeds whenever the store answers and, for an
    identity with no stored user, takes the new row (no row holds the new
    id, the email or the subject id).  The user it returns is a row of
    the store and its role is: for an identity with no stored user,
    'admin' if the identity's email is in the allow-list and 'user'
    otherwise; for a stored user of role 'user', 'admin' if the stored
    email is in the allow-list and 'user' otherwise; for a stored user of
    any other role ('admin' is the only one the schema admits), the
    stored role.  No other outcome is a success: whenever the call
    returns a user, that user has this role. *)
Theorem CreateOrUpdateUser_role (googleUserInfo : GoogleUserInfo) (db : DB) :
  let role_of_new (user : User) :=
    (u_Role user = RoleAdmin <-> In (g_Email googleUserInfo) (AdminEmails cfg)) /\
    (u_Role user = RoleUser <-> ~ In (g_Email googleUserInfo) (AdminEmails cfg)) in
  let role_of_stored (existing user : User) :=
    (u_Role existing = RoleUser ->
       (u_Role user = RoleAdmin <-> In (u_Email existing) (AdminEmails cfg)) /\
       (u_Role user = RoleUser <-> ~ In (u_Email existing) (AdminEmails cfg))) /\
    (u_Role existing = RoleAdmin -> u_Role user = RoleAdmin) /\
    (u_Role existing <> RoleUser -> u_Role user = u_Role existing) in
  (fails w SelectUserByGoogleID = false ->
   match stored_user (g_ID googleUserInfo) db with
   | None =>
       fails w InsertUser = false ->
       (forall u, In u (users db) ->
          u_ID u <> gen_random_uuid w /\
          u_Email u <> g_Email googleUserInfo /\
          u_GoogleID u <> Some (g_ID googleUserInfo)) ->
       exists user,
         auth.CreateOrUpdateUser cfg w googleUserInfo db
           = (Ok user, set_users (users db ++ [user])%list db) /\
         role_of_new user
   | Some existing =>
       fails w UpdateUser = false ->
       exists user db',
         auth.CreateOrUpdateUser cfg w googleUserInfo db = (Ok user, db') /\
         In user (users db') /\
         List.length (users db') = List.length (users db) /\
         u_ID user = u_ID existing /\
         role_of_stored existing user
   end) /\
  (forall user db',
     auth.CreateOrUpdateUser cfg w googleUserInfo db = (Ok user, db') ->
     In user (users db') /\
     match stored_user (g_ID googleUserInfo) db with
     | None => role_of_new user
     | Some existing => role_of_stored existing user
     end).
Proof.
  intros role_of_new role_of_stored.
  assert (Hstored : forall existing name avatar,
    let role := if String.eqb (u_Role existing) RoleUser
                then if auth.inAdminEmails cfg (u_Email existing)
                     then RoleAdmin else u_Role existing
                else u_Role existing in
    forall u, u_ID u = u_ID existing ->
    role_of_stored existing
      {| u_ID := u_ID u; u_Email := u_Email u; u_GoogleID := u_GoogleID u;
         u_Name := name; u_AvatarURL := avatar; u_Role := role;
         u_IsActive := u_IsActive u; u_CreatedAt := u_CreatedAt u;
         u_UpdatedAt := now w; u_DeletedAt := u_DeletedAt u |}).
  { intros existing name avatar role u Hid. unfold role_of_stored, role. simpl.
    destruct (role_cases (u_Email existing) (u_Role existing)) as [Ha Hu].
    split; [|split].
    - intros Hrole. rewrite Hrole in *. simpl. split.
      + rewrite Ha. split; [intros [H|H]; [exact H | discriminate] | now left].
      + now apply Hu.
    - intros Hrole. rewrite Hrole. reflexivity.
    - intros Hrole. apply String.eqb_neq in Hrole. now rewrite Hrole. }
  assert (Hnew : forall user,
    u_Role user = (if auth.inAdminEmails cfg (g_Email googleUserInfo)
                   then RoleAdmin else RoleUser) ->
    role_of_new user).
  { intros user Hr. unfold role_of_new. rewrite Hr.
    destruct (role_cases (g_Email googleUserInfo) RoleUser) as [Ha Hu].
    split; [|now apply Hu].
    rewrite Ha. split; [intros [H|H]; [exact H | discriminate] | now left]. }
  split.
  - intros Hsel. unfold auth.CreateOrUpdateUser, select_user_by_google_id, stored_user.
    rewrite Hsel.
    destruct (find _ (users db)) as [existing|] eqn:F.
    + intros Hupd. unfold wrap, update_user. rewrite Hupd.
      apply find_some in F. destruct F as [Hin _].
      destruct (find_In_Some (fun u => N.eqb (u_ID u) (u_ID existing)) (users db)
                  existing Hin (N.eqb_refl _)) as [u F'].
      rewrite F'. apply find_some in F'. destruct F' as [Hin' Hid].
      apply N.eqb_eq in Hid. rewrite <- Hid, N.eqb_refl.
      eexists. eexists. split; [reflexivity|].
      split.
      { simpl. apply in_map_iff. exists u.
        rewrite N.eqb_refl. split; [reflexivity | exact Hin']. }
      split; [simpl; apply length_map|].
      split; [reflexivity|].
      apply Hstored. exact Hid.
    + intros Hins Hfree. unfold wrap, insert_user. rewrite Hins.
      assert (E : existsb
                    (fun u => N.eqb (u_ID u) (gen_random_uuid w)
                              || String.eqb (u_Email u) (g_Email googleUserInfo)
                              || option_eqb String.eqb (u_GoogleID u)
                                   (Some (g_ID googleUserInfo)))
                    (users db) = false).
      { apply not_true_is_false. intros E. apply existsb_exists in E.
        destruct E as [u [Hin E]]. destruct (Hfree u Hin) as [H1 [H2 H3]].
        apply orb_true_iff in E. destruct E as [E|E].
        - apply orb_true_iff in E. destruct E as [E|E].
          + apply N.eqb_eq in E. contradiction.
          + apply String.eqb_eq in E. contradiction.
        - destruct (u_GoogleID u) as [g|]; simpl in E; [|discriminate].
          apply String.eqb_eq in E. subst g. now apply H3. }
      simpl. rewrite E. simpl.
      eexists. split; [reflexivity|]. now apply Hnew.
  - intros user db'.
    unfold auth.CreateOrUpdateUser, select_user_by_google_id, stored_user.
    destruct (fails w SelectUserByGoogleID); [discriminate|].
    destruct (find _ (users db)) as [existing|] eqn:F.
    + unfold wrap, update_user.
      destruct (fails w UpdateUser); [discriminate|].
      destruct (find (fun u => N.eqb (u_ID u) (u_ID existing)) (users db))
        as [u|] eqn:F'; [|discriminate].
      intros H. inversion H; subst; clear H.
      apply find_some in F'. destruct F' as [Hin Hid]. rewrite Hid.
      split.
      { simpl. apply in_map_iff. exists u. rewrite Hid.
        split; [reflexivity|assumption]. }
      apply N.eqb_eq in Hid. now apply Hstored.
    + unfold wrap, insert_user.
      match goal with |- context [if ?c then _ else _ ] =>
        match c with orb _ _ => destruct c end end; [discriminate|].
      intros H. inversion H; subst; clear H.
      split; [simpl; apply in_or_app; right; now left|].
      now apply Hnew.
Qed.

End Reconcile.

Lemma CreateOrUpdateUser_role_witness :
  let w := Sample.world 100 x01 3%N in
  (exists user,
     @auth.CreateOrUpdateUser Sample.toy Sample.cfg w Sample.root_identity Sample.db0
       = (Ok user, set_users (users Sample.db0 ++ [user])%list Sample.db0) /\
     u_Role user = RoleAdmin) /\
  (exists user db',
     @auth.CreateOrUpdateUser Sample.toy Sample.cfg w Sample.root_identity Sample.staff
       = (Ok user, db') /\
     In user (users db') /\ u_ID user = 6%N /\ u_Role user = RoleAdmin) /\
  (exists user db',
     @auth.CreateOrUpdateUser Sample.toy Sample.cfg w Sample.former_identity Sample.staff
       = (Ok user, db') /\
     In user (users db') /\ u_ID user = 7%N /\ u_Role user = RoleAdmin) /\
  (exists user db',
     @auth.CreateOrUpdateUser Sample.toy Sample.cfg w Sample.alice_identity Sample.staff
       = (Ok user, db') /\
     In user (users db') /\ u_ID user = 1%N /\ u_Role user = RoleUser).
Proof.
  intros w. split; [|split; [|split]].
  - destruct (proj1 (@CreateOrUpdateUser_role Sample.toy Sample.cfg w
                       Sample.root_identity Sample.db0) eq_refl eq_refl)
      as [user [E [Hadmin _]]].
    + intros u [<-|[<-|[]]]; repeat split; discriminate.
    + exists user. split; [exact E|]. apply Hadmin. now left.
  - destruct (proj1 (@CreateOrUpdateUser_role Sample.toy Sample.cfg w
                       Sample.root_identity Sample.staff) eq_refl eq_refl)
      as [user [db' [E [Hin [_ [Hid [Hup _]]]]]]].
    exists user, db'. split; [exact E|]. split; [exact Hin|].
    split; [exact Hid|]. apply (proj1 (Hup eq_refl)). now left.
  - destruct (proj1 (@CreateOrUpdateUser_role Sample.toy Sample.cfg w
                       Sample.former_identity Sample.staff) eq_refl eq_refl)
      as [user [db' [E [Hin [_ [Hid [_ [Hkeep _]]]]]]]].
    exists user, db'. split; [exact E|]. split; [exact Hin|].
    split; [exact Hid|]. exact (Hkeep eq_refl).
  - destruct (proj1 (@CreateOrUpdateUser_role Sample.toy Sample.cfg w
                       Sample.alice_identity Sample.staff) eq_refl eq_refl)
      as [user [db' [E [Hin [_ [Hid [Hup _]]]]]]].
    exists user, db'. split; [exact E|]. split; [exact Hin|].
    split; [exact Hid|]. apply (proj2 (Hup eq_refl)).
    intros [H|[]]. discriminate.
Defined.

(** ** The refresh-token table only grows, and revocation is for good *)
Section LaterTable.

Lemma later_row_refl (t : RefreshToken) : later_row t t.
Proof. unfold later_row. tauto. Qed.

Lemma later_row_trans (a b c : RefreshToken) :
  later_row a b -> later_row b c -> later_row a c.
Proof. unfold later_row. intuition congruence. Qed.

Lemma later_rows_refl (ts : list RefreshToken) : Forall2 later_row ts ts.
Proof. induction ts; constructor; [apply later_row_refl | assumption]. Qed.

Lemma later_rows_trans (a b c : list RefreshToken) :
  Forall2 later_row a b -> Forall2 later_row b c -> Forall2 later_row a c.
Proof.
  intros H; revert c; induction H; intros c Hc; inversion Hc; subst; constructor.
  - eapply later_row_trans; eassumption.
  - now apply IHForall2.
Qed.

Lemma later_rows_ids (a b : list RefreshToken) :
  Forall2 later_row a b -> map rt_ID b = map rt_ID a.
Proof.
  induction 1 as [|x y a b Hxy _ IH]; simpl; [reflexivity|].
  destruct Hxy as [Hid _]. now rewrite Hid, IH.
Qed.

Lemma later_table_refl (ts : list RefreshToken) : later_table ts ts.
Proof.
  exists ts, []. rewrite app_nil_r.
  split; [reflexivity|]. split; [apply later_rows_refl | constructor].
Qed.

Lemma later_table_trans (a b c : list RefreshToken) :
  later_table a b -> later_table b c -> later_table a c.
Proof.
  intros [old [new [-> [Hold Hnew]]]] [old' [new' [-> [Hold' Hnew']]]].
  apply Forall2_app_inv_l in Hold'.
  destruct Hold' as [o1 [o2 [Ho1 [Ho2 ->]]]].
  exists o1, (o2 ++ new')%list. rewrite app_assoc.
  split; [reflexivity|]. split; [eapply later_rows_trans; eassumption|].
  apply Forall_app. split.
  - pose proof (later_rows_ids _ _ Ho2) as Hids.
    apply Forall_forall. intros n Hn Hin.
    assert (Hn' : In (rt_ID n) (map rt_ID new)).
    { rewrite <- Hids. now apply in_map. }
    apply in_map_iff in Hn'. destruct Hn' as [n0 [Hid Hn0]].
    rewrite Forall_forall in Hnew. apply (Hnew n0 Hn0). now rewrite Hid.
  - apply Forall_forall. intros n Hn Hin.
    rewrite Forall_forall in Hnew'. apply (Hnew' n Hn).
    rewrite map_app. apply in_or_app. left.
    now rewrite (later_rows_ids _ _ Hold).
Qed.

Lemma later_table_revoke (w : World) (id : UUID) (ts : list RefreshToken) :
  later_table ts (map (revoke w id) ts).
Proof.
  exists (map (revoke w id) ts), []. rewrite app_nil_r.
  split; [reflexivity|]. split; [|constructor].
  induction ts as [|t ts IH]; simpl; constructor; [|assumption].
  unfold later_row, revoke, revoked.
  destruct (N.eqb (rt_ID t) id); simpl; tauto.
Qed.

Lemma later_table_insert (row : RefreshToken) (ts : list RefreshToken) :
  ~ In (rt_ID row) (map rt_ID ts) -> later_table ts (ts ++ [row]).
Proof.
  intros H. exists ts, [row].
  split; [reflexivity|]. split; [apply later_rows_refl|].
  constructor; [assumption | constructor].
Qed.

(** A row keeps its place. *)
Lemma later_table_nth (ts ts' : list RefreshToken) (i : nat) (t : RefreshToken) :
  later_table ts ts' -> nth_error ts i = Some t ->
  exists t', nth_error ts' i = Some t' /\ later_row t t'.
Proof.
  intros [old [new [-> [Hold _]]]]. revert i.
  induction Hold as [|x y a b Hxy _ IH]; intros i Hi.
  - destruct i; discriminate.
  - destruct i as [|i]; simpl in *.
    + inversion Hi; subst. exists y. split; [reflexivity | assumption].
    + apply IH. assumption.
Qed.

Lemma later_table_In (ts ts' : list RefreshToken) (t : RefreshToken) :
  later_table ts ts' -> In t ts -> exists t', In t' ts' /\ later_row t t'.
Proof.
  intros Hl Hin. apply In_nth_error in Hin. destruct Hin as [i Hi].
  destruct (later_table_nth _ _ _ _ Hl Hi) as [t' [Ht' Hr]].
  exists t'. split; [eapply nth_error_In; eassumption | assumption].
Qed.

(** A row of the later table is a later version of an old row, or has an
    id the old table did not know. *)
Lemma later_table_origin (ts ts' : list RefreshToken) (t' : RefreshToken) :
  later_table ts ts' -> In t' ts' ->
  (exists t, In t ts /\ later_row t t') \/ ~ In (rt_ID t') (map rt_ID ts).
Proof.
  intros [old [new [-> [Hold Hnew]]]] Hin.
  apply in_app_or in Hin. destruct Hin as [Hin|Hin].
  - left. clear Hnew. induction Hold as [|x y a b Hxy _ IH]; [destruct Hin|].
    destruct Hin as [<-|Hin].
    + exists x. split; [now left | assumption].
    + destruct (IH Hin) as [t [Ht Hr]]. exists t. split; [now right | assumption].
  - right. rewrite Forall_forall in Hnew. now apply Hnew.
Qed.

End LaterTable.

(** ** Rotation and revocation, unfolded *)
Section Unfolded.
Context {L : Libraries}.
Variable cfg : Config.
Variable w : World.

Lemma RefreshAccessToken_unfold (raw : string) (db : DB) :
  auth.RefreshAccessToken cfg w raw db =
  if fails w SelectValidRefreshTokens
  then (Err (Errorf_w "failed to query refresh tokens" pgx_failure), db)
  else match candidate w raw db with
  | None => (Err auth.ErrInvalidRefreshToken, db)
  | Some tokenRecord =>
      if fails w RevokeRefreshTokenByID
      then (Err (Errorf_w "failed to revoke old token" pgx_failure), db)
      else if fails w SelectActiveUserByID
      then (Err (Errorf_w "user not found or inactive" pgx_failure),
            revoked_in w (rt_ID tokenRecord) db)
      else match find (fun u => N.eqb (u_ID u) (rt_UserID tokenRecord)
                                && u_IsActive u && is_null (u_DeletedAt u))
                   (users db) with
      | None => (Err (Errorf_w "user not found or inactive" pgx_ErrNoRows),
                 revoked_in w (rt_ID tokenRecord) db)
      | Some user =>
          auth.GenerateTokens cfg w user (revoked_in w (rt_ID tokenRecord) db)
      end
  end.
Proof.
  unfold auth.RefreshAccessToken, candidate, bind, wrap, fail,
    select_valid_refresh_tokens, revoke_refresh_token_by_id,
    select_active_user_by_id, revoked_in.
  destruct (fails w SelectValidRefreshTokens); [reflexivity|].
  destruct (auth.scan raw _) as [tokenRecord|]; [|reflexivity].
  destruct (fails w RevokeRefreshTokenByID); [reflexivity|].
  destruct (fails w SelectActiveUserByID); [reflexivity|].
  simpl. destruct (find _ (users db)); reflexivity.
Qed.

Lemma RevokeRefreshToken_unfold (raw : string) (db : DB) :
  auth.RevokeRefreshToken w raw db =
  if fails w SelectValidRefreshTokens
  then (Err (Errorf_w "failed to query refresh tokens" pgx_failure), db)
  else match candidate w raw db with
  | None => (Err (Errorf "refresh token not found"), db)
  | Some tokenRecord =>
      if N.eqb (rt_ID tokenRecord) uuid_Nil
      then (Err (Errorf "refresh token not found"), db)
      else if fails w RevokeRefreshTokenByID then (Err pgx_failure, db)
      else (Ok tt, revoked_in w (rt_ID tokenRecord) db)
  end.
Proof.
  unfold auth.RevokeRefreshToken, candidate, bind, wrap, fail,
    select_valid_refresh_tokens, revoke_refresh_token_by_id, revoked_in.
  destruct (fails w SelectValidRefreshTokens); [reflexivity|].
  destruct (auth.scan raw _) as [tokenRecord|]; [|reflexivity].
  destruct (N.eqb (rt_ID tokenRecord) uuid_Nil); [reflexivity|].
  destruct (fails w RevokeRefreshTokenByID); reflexivity.
Qed.

(** The candidate of a scan is a stored row, valid now, whose hash
    accepts the raw value. *)
Lemma candidate_Some (raw : string) (db : DB) (t : RefreshToken) :
  candidate w raw db = Some t ->
  In t (refresh_tokens db) /\ valid w t = true /\ accepts raw t.
Proof.
  unfold candidate, auth.scan. intros H. apply find_some in H.
  destruct H as [Hin Hacc]. apply filter_In in Hin. tauto.
Qed.


Lemma revoked_in_all_revoked (id : UUID) (db : DB) :
  all_revoked id (revoked_in w id db).
Proof.
  intros t Hin Hid. simpl in Hin. apply in_map_iff in Hin.
  destruct Hin as [t0 [<- Hin]]. unfold revoke, revoked in *.
  destruct (N.eqb (rt_ID t0) id) eqn:E; [reflexivity|].
  apply N.eqb_neq in E. contradiction.
Qed.

(** *** Every entry point leaves a later table *)

Lemma GenerateTokens_later (user : User) (db : DB) :
  later_table (refresh_tokens db)
    (refresh_tokens (snd (auth.GenerateTokens cfg w user db))).
Proof.
  destruct (auth.GenerateTokens cfg w user db) as [[pair|e] db'] eqn:E; simpl.
  - apply GenerateTokens_Ok in E.
    destruct E as [sig [b [hash [_ [_ [_ [Hid [_ ->]]]]]]]]. simpl.
    now apply later_table_insert.
  - apply GenerateTokens_Err in E. subst. apply later_table_refl.
Qed.

Lemma CreateOrUpdateUser_tokens (i : GoogleUserInfo) (db : DB) :
  refresh_tokens (snd (auth.CreateOrUpdateUser cfg w i db)) = refresh_tokens db.
Proof.
  unfold auth.CreateOrUpdateUser, select_user_by_google_id, wrap,
    insert_user, update_user.
  destruct (fails w SelectUserByGoogleID); [reflexivity|].
  destruct (find _ (users db)) as [u|].
  - destruct (fails w UpdateUser); [reflexivity|].
    destruct (find _ (users db)); reflexivity.
  - match goal with |- context [if ?c then _ else _ ] =>
      match c with orb _ _ => destruct c end end; reflexivity.
Qed.

Lemma LogAuthEvent_tokens (u : option UUID) (a i ua : string) (db : DB) :
  refresh_tokens (auth.LogAuthEvent w u a i ua db) = refresh_tokens db.
Proof.
  unfold auth.LogAuthEvent, insert_audit_log.
  destruct (fails w InsertAuditLog); reflexivity.
Qed.

Lemma RefreshAccessToken_later (raw : string) (db : DB) :
  later_table (refresh_tokens db)
    (refresh_tokens (snd (auth.RefreshAccessToken cfg w raw db))).
Proof.
  rewrite RefreshAccessToken_unfold.
  destruct (fails w SelectValidRefreshTokens); [apply later_table_refl|].
  destruct (candidate w raw db) as [t|]; [|apply later_table_refl].
  destruct (fails w RevokeRefreshTokenByID); [apply later_table_refl|].
  destruct (fails w SelectActiveUserByID); [apply later_table_revoke|].
  destruct (find _ (users db)) as [user|]; [|apply later_table_revoke].
  eapply later_table_trans; [|apply GenerateTokens_later].
  apply later_table_revoke.
Qed.

Lemma RevokeRefreshToken_later (raw : string) (db : DB) :
  later_table (refresh_tokens db)
    (refresh_tokens (snd (auth.RevokeRefreshToken w raw db))).
Proof.
  rewrite RevokeRefreshToken_unfold.
  destruct (fails w SelectValidRefreshTokens); [apply later_table_refl|].
  destruct (candidate w raw db) as [t|]; [|apply later_table_refl].
  destruct (N.eqb (rt_ID t) uuid_Nil); [apply later_table_refl|].
  destruct (fails w RevokeRefreshTokenByID);
    [apply later_table_refl | apply later_table_revoke].
Qed.

Lemma GoogleCallback_later (r : handlers.Request) (db : DB) :
  later_table (refresh_tokens db)
    (refresh_tokens (snd (handlers.GoogleCallback cfg w r db))).
Proof.
  unfold handlers.GoogleCallback, auth.ExchangeGoogleCode, lift.
  destruct (handlers.Cookie_ r "oauth_state"); [|apply later_table_refl].
  destruct (negb _); [apply later_table_refl|].
  destruct (handlers.Cookie_ r "oauth_redirect"); [|apply later_table_refl].
  destruct (String.eqb _ ""); [apply later_table_refl|].
  destruct (google w) as [info|e]; [|apply later_table_refl].
  pose proof (CreateOrUpdateUser_tokens info db) as Hc.
  destruct (auth.CreateOrUpdateUser cfg w info db) as [[user|e] db1];
    simpl in Hc; [|simpl; rewrite Hc; apply later_table_refl].
  destruct (negb (u_IsActive user)); [simpl; rewrite Hc; apply later_table_refl|].
  pose proof (GenerateTokens_later user db1) as Hg. rewrite Hc in Hg.
  destruct (auth.GenerateTokens cfg w user db1) as [[pair|e] db2];
    simpl in Hg |- *; [|assumption].
  now rewrite LogAuthEvent_tokens.
Qed.

Lemma exec_later (call : Call) (db : DB) :
  later_table (refresh_tokens db) (refresh_tokens (exec cfg (w, call) db)).
Proof.
  destruct call; simpl.
  - rewrite CreateOrUpdateUser_tokens. apply later_table_refl.
  - apply GenerateTokens_later.
  - apply RefreshAccessToken_later.
  - apply RevokeRefreshToken_later.
  - rewrite LogAuthEvent_tokens. apply later_table_refl.
  - apply GoogleCallback_later.
  - unfold handlers.RefreshToken.
    destruct (handlers.Cookie_ r "refresh_token") as [c|]; [|apply later_table_refl].
    pose proof (RefreshAccessToken_later c db) as H.
    destruct (auth.RefreshAccessToken cfg w c db) as [[p|e] db']; exact H.
  - unfold handlers.Logout. simpl.
    destruct (handlers.ctx_UserID r); rewrite ?LogAuthEvent_tokens;
      (destruct (handlers.Cookie_ r "refresh_token");
       [apply RevokeRefreshToken_later | apply later_table_refl]).
  - unfold handlers.DeactivateUser, deactivate_user.
    destruct (fails w DeactivateUserByID); [apply later_table_refl|].
    destruct (find _ (users db)); apply later_table_refl.
  - apply later_table_refl.
Qed.

End Unfolded.

Lemma run_later {L : Libraries} (cfg : Config) (calls : list (World * Call)) (db : DB) :
  later_table (refresh_tokens db) (refresh_tokens (run cfg calls db)).
Proof.
  revert db. induction calls as [|[w call] calls IH]; intros db; simpl.
  - apply later_table_refl.
  - eapply later_table_trans; [apply exec_later | apply IH].
Qed.

(** ** Rotation on use *)
Section RotateOnce.
Context {L : Libraries}.
Variable cfg : Config.

Lemma all_revoked_later (id : UUID) (db db' : DB) :
  later_table (refresh_tokens db) (refresh_tokens db') ->
  In id (map rt_ID (refresh_tokens db)) ->
  all_revoked id db -> all_revoked id db'.
Proof.
  intros Hl Hid Hall t' Hin' Hid'.
  destruct (later_table_origin _ _ _ Hl Hin') as [[t [Hin [Ht [_ [_ [_ Hrev]]]]]] | Hnew].
  - apply Hrev. apply Hall; [assumption | congruence].
  - exfalso. apply Hnew. now rewrite Hid'.
Qed.

(** A successful rotation had a candidate, revoked every row of its id,
    and then issued for the owner. *)
Lemma RefreshAccessToken_Ok (w : World) (raw : string) (db db1 : DB)
    (pair : auth.TokenPair) :
  auth.RefreshAccessToken cfg w raw db = (Ok pair, db1) ->
  exists tokenRecord user,
    candidate w raw db = Some tokenRecord /\
    In user (users db) /\ u_ID user = rt_UserID tokenRecord /\
    u_IsActive user = true /\
    auth.GenerateTokens cfg w user (revoked_in w (rt_ID tokenRecord) db)
      = (Ok pair, db1).
Proof.
  rewrite RefreshAccessToken_unfold.
  destruct (fails w SelectValidRefreshTokens); [discriminate|].
  destruct (candidate w raw db) as [t|]; [|discriminate].
  destruct (fails w RevokeRefreshTokenByID); [discriminate|].
  destruct (fails w SelectActiveUserByID); [discriminate|].
  destruct (find _ (users db)) as [user|] eqn:F; [|discriminate].
  intros H. exists t, user. apply find_some in F. destruct F as [Hin Hu].
  apply andb_true_iff in Hu. destruct Hu as [Hu _].
  apply andb_true_iff in Hu. destruct Hu as [Hid Hact].
  apply N.eqb_eq in Hid. tauto.
Qed.

(** C1.  After a successful rotation of a raw value, and whatever calls
    the service handles afterwards, a rotation that presents the same raw
    value fails and changes nothing: every row of the matched record's id
    was revoked by the first rotation, the scan only looks at rows that
    are not revoked, and no call clears a revocation.  The error is
    "invalid or expired refresh token" whenever the scan query itself
    is answered.  The premise [single_match] is that the raw value
    answers to one stored record only.  Revocation is for good: a revoked
    row of any store is, at the same place and with the same id and hash,
    still revoked after any calls. *)
Theorem rotate_at_most_once
    (w w' : World) (raw : string) (db db1 : DB) (pair : auth.TokenPair)
    (calls : list (World * Call)) :
  auth.RefreshAccessToken cfg w raw db = (Ok pair, db1) ->
  single_match raw (run cfg calls db1) ->
  (exists e,
     auth.RefreshAccessToken cfg w' raw (run cfg calls db1)
       = (Err e, run cfg calls db1) /\
     (fails w' SelectValidRefreshTokens = false ->
      e = auth.ErrInvalidRefreshToken)) /\
  (forall (s : DB) (cs : list (World * Call)) (i : nat) (t : RefreshToken),
     nth_error (refresh_tokens s) i = Some t -> revoked t ->
     exists t', nth_error (refresh_tokens (run cfg cs s)) i = Some t' /\
                rt_ID t' = rt_ID t /\ rt_TokenHash t' = rt_TokenHash t /\
                revoked t').
Proof.
  intros Hrot Hsingle. split.
  - apply RefreshAccessToken_Ok in Hrot.
    destruct Hrot as [rec [user [Hcand [_ [_ [_ Hgen]]]]]].
    apply candidate_Some in Hcand. destruct Hcand as [Hin [_ Hacc]].
    set (db2 := run cfg calls db1) in *.
    set (dbr := revoked_in w (rt_ID rec) db) in *.
    (* the revoked record, in the store right after the revocation *)
    assert (Hinr : In (revoke w (rt_ID rec) rec) (refresh_tokens dbr))
      by (simpl; now apply in_map).
    assert (Hidr : rt_ID (revoke w (rt_ID rec) rec) = rt_ID rec)
      by (unfold revoke; destruct (N.eqb _ _); reflexivity).
    assert (Hhashr : rt_TokenHash (revoke w (rt_ID rec) rec) = rt_TokenHash rec)
      by (unfold revoke; destruct (N.eqb _ _); reflexivity).
    assert (Hl : later_table (refresh_tokens dbr) (refresh_tokens db2)).
    { eapply later_table_trans; [|apply run_later].
      pose proof (GenerateTokens_later cfg w user dbr) as G.
      rewrite Hgen in G. exact G. }
    assert (Hall : all_revoked (rt_ID rec) db2).
    { eapply all_revoked_later; [exact Hl | | apply revoked_in_all_revoked].
      rewrite <- Hidr. now apply in_map. }
    destruct (later_table_In _ _ _ Hl Hinr) as [r2 [Hin2 [Hid2 [_ [Hhash2 _]]]]].
    assert (Hacc2 : accepts raw r2).
    { unfold accepts in *. now rewrite Hhash2, Hhashr. }
    rewrite RefreshAccessToken_unfold.
    destruct (fails w' SelectValidRefreshTokens) eqn:Fq.
    + eexists. split; [reflexivity | discriminate].
    + destruct (candidate w' raw db2) as [t|] eqn:C.
      * exfalso. apply candidate_Some in C. destruct C as [Hint [Hv Hacct]].
        assert (Hidt : rt_ID t = rt_ID rec).
        { rewrite (Hsingle t r2 Hint Hin2 Hacct Hacc2). congruence. }
        pose proof (Hall t Hint Hidt) as Hrev. unfold revoked in Hrev.
        unfold valid in Hv. rewrite Hrev in Hv. discriminate.
      * eexists. split; [reflexivity | reflexivity].
  - intros s cs i t Hi Hrev.
    destruct (later_table_nth _ _ _ _ (run_later cfg cs s) Hi)
      as [t' [Hi' [Hid [_ [Hhash [_ Hr]]]]]].
    exists t'. auto.
Qed.

End RotateOnce.

Lemma rotate_at_most_once_witness :
  let w := Sample.world 100 x01 20%N in
  let calls := [(Sample.world 150 x02 21%N, CallGenerateTokens Sample.alice);
                (Sample.world 160 x03 22%N,
                 CallLogout (Sample.request "" (Some Sample.raw_bob)))] in
  exists pair db1,
    @auth.RefreshAccessToken Sample.toy Sample.cfg w Sample.raw0 Sample.db0
      = (Ok pair, db1) /\
    @auth.RefreshAccessToken Sample.toy Sample.cfg (Sample.world 200 x04 23%N)
      Sample.raw0 (run Sample.cfg calls db1)
      = (Err auth.ErrInvalidRefreshToken, run Sample.cfg calls db1).
Proof.
  intros w calls.
  destruct (@auth.RefreshAccessToken Sample.toy Sample.cfg w Sample.raw0 Sample.db0)
    as [[pair|e] db1] eqn:E; [|vm_compute in E; discriminate].
  exists pair, db1. split; [reflexivity|].
  assert (Hsingle : @single_match Sample.toy Sample.raw0 (run Sample.cfg calls db1)).
  { vm_compute in E. inversion E; subst; clear E.
    intros t t' Hin Hin' Hacc Hacc'. vm_compute in Hin, Hin'.
    repeat match goal with H : _ \/ _ |- _ => destruct H end;
      try contradiction; subst; vm_compute in Hacc, Hacc';
      try discriminate; reflexivity. }
  destruct (proj1 (@rotate_at_most_once Sample.toy Sample.cfg w
                     (Sample.world 200 x04 23%N) Sample.raw0 Sample.db0 db1 pair
                     calls E Hsingle)) as [e [He Hinv]].
  rewrite He. f_equal. f_equal. apply Hinv. reflexivity.
Defined.

(** ** What a failed call leaves behind *)
Section Failure.
Context {L : Libraries}.
Variable cfg : Config.
Variable w : World.

Lemma RevokeRefreshToken_Err (raw : string) (db db' : DB) (e : error) :
  auth.RevokeRefreshToken w raw db = (Err e, db') -> db' = db.
Proof.
  rewrite RevokeRefreshToken_unfold.
  destruct (fails w SelectValidRefreshTokens); [now inversion 1|].
  destruct (candidate w raw db) as [t|]; [|now inversion 1].
  destruct (N.eqb (rt_ID t) uuid_Nil); [now inversion 1|].
  destruct (fails w RevokeRefreshTokenByID); [now inversion 1 | discriminate].
Qed.

(** C3, as the code has it.  Issue and revoke make one write each: a
    call that returns an error leaves the store as it was.  Rotation is
    not atomic: it sends the revocation as a statement of its own, before
    it fetches the owner and issues.  A rotation that fails before or at
    the revocation leaves the store as it was; one that fails after it
    (owner missing, inactive or deleted, or any failure of the issue)
    leaves the store with the matched record revoked and no successor. *)
Theorem failed_call_leaves :
  (forall user db e db',
     auth.GenerateTokens cfg w user db = (Err e, db') -> db' = db) /\
  (forall raw db e db',
     auth.RevokeRefreshToken w raw db = (Err e, db') -> db' = db) /\
  (forall raw db e db',
     auth.RefreshAccessToken cfg w raw db = (Err e, db') ->
     (db' = db /\
      (fails w SelectValidRefreshTokens = true \/ candidate w raw db = None
       \/ fails w RevokeRefreshTokenByID = true))
     \/
     (exists tokenRecord,
        candidate w raw db = Some tokenRecord /\
        fails w RevokeRefreshTokenByID = false /\
        db' = revoked_in w (rt_ID tokenRecord) db)).
Proof.
  split; [|split].
  - intros user db e db'. apply GenerateTokens_Err.
  - intros raw db e db'. apply RevokeRefreshToken_Err.
  - intros raw db e db'. rewrite RefreshAccessToken_unfold.
    destruct (fails w SelectValidRefreshTokens);
      [inversion 1; left; auto|].
    destruct (candidate w raw db) as [t|]; [|inversion 1; left; auto].
    destruct (fails w RevokeRefreshTokenByID);
      [inversion 1; left; auto|].
    intros H. right. exists t. split; [reflexivity|]. split; [reflexivity|].
    destruct (fails w SelectActiveUserByID); [now inversion H|].
    destruct (find _ (users db)) as [user|]; [|now inversion H].
    now apply GenerateTokens_Err in H.
Qed.

End Failure.

(** C3 does not hold of rotation: the insertion of the successor fails,
    the call returns "failed to store refresh token", and the presented
    record stays revoked with no successor in the store. *)
Lemma rotation_is_not_atomic :
  exists db',
    @auth.RefreshAccessToken Sample.toy Sample.cfg (Sample.insert_fails 100)
      Sample.raw0 Sample.db0
    = (Err (Errorf_w "failed to store refresh token" pgx_failure), db') /\
    refresh_tokens db' =
      [revoke (Sample.insert_fails 100) 10%N Sample.token0; Sample.token_bob] /\
    rt_RevokedAt (revoke (Sample.insert_fails 100) 10%N Sample.token0)
      = Some (100 * time.Second) /\
    db' <> Sample.db0.
Proof.
  eexists. split; [vm_compute; reflexivity|].
  split; [reflexivity|]. split; [reflexivity | discriminate].
Qed.

Lemma failed_call_leaves_witness :
  exists e db',
    @auth.RefreshAccessToken Sample.toy Sample.cfg (Sample.insert_fails 100)
      Sample.raw0 Sample.db0 = (Err e, db') /\
    db' = @revoked_in (Sample.insert_fails 100) 10%N Sample.db0.
Proof.
  destruct (@auth.RefreshAccessToken Sample.toy Sample.cfg (Sample.insert_fails 100)
              Sample.raw0 Sample.db0) as [[pair|e] db'] eqn:E;
    [vm_compute in E; discriminate|].
  exists e, db'. split; [reflexivity|].
  destruct (proj2 (proj2 (@failed_call_leaves Sample.toy Sample.cfg
                            (Sample.insert_fails 100)))
              Sample.raw0 Sample.db0 e db' E)
    as [[_ [H|[H|H]]] | [t [Hc [_ ->]]]]; try (vm_compute in H; discriminate).
  vm_compute in Hc. inversion Hc. reflexivity.
Defined.

(** ** Inactive users *)
Section Inactive.
Context {L : Libraries}.
Variable cfg : Config.
Variable w : World.

(** C6.  (1) When the user that reconciliation resolves is inactive, the
    callback answers 403 "User account is inactive" right after the
    reconciliation: the refresh-token table is untouched, no
    refresh_token cookie is set and the response redirects nowhere.
    (2) A rotation whose candidate belongs to a user with no active row
    fails and adds no row.  (3) An access token issued earlier still
    validates, until its own expiry, with the user's id as subject:
    validation reads the token, the public key and the clock only. *)
Theorem inactive_user_is_refused :
  (forall r db info user db1 state target,
     handlers.Cookie_ r "oauth_state" = Some state ->
     handlers.Query_Get r "state" = state ->
     handlers.Cookie_ r "oauth_redirect" = Some target ->
     handlers.Query_Get r "code" <> "" ->
     google w = Ok info ->
     auth.CreateOrUpdateUser cfg w info db = (Ok user, db1) ->
     u_IsActive user = false ->
     handlers.GoogleCallback cfg w r db =
       (handlers.http_Error
          [handlers.clearCookie w "oauth_state";
           handlers.clearCookie w "oauth_redirect"]
          (handlers.Text "User account is inactive") handlers.StatusForbidden,
        db1) /\
     refresh_tokens db1 = refresh_tokens db /\
     ~ sets_cookie "refresh_token" (fst (handlers.GoogleCallback cfg w r db)) /\
     handlers.Location (fst (handlers.GoogleCallback cfg w r db)) = None) /\
  (forall raw db,
     (forall tokenRecord u,
        candidate w raw db = Some tokenRecord -> In u (users db) ->
        u_ID u = rt_UserID tokenRecord -> u_IsActive u = false) ->
     exists e db',
       auth.RefreshAccessToken cfg w raw db = (Err e, db') /\
       List.length (refresh_tokens db') = List.length (refresh_tokens db)) /\
  (signatures_verify -> JWTPublicKey cfg = Public (JWTPrivateKey cfg) ->
   forall user db pair db' t,
     auth.GenerateTokens cfg w user db = (Ok pair, db') ->
     t < access_expiry cfg w ->
     exists claims,
       jwt.ValidateAccessToken t (AccessToken_ pair) (JWTPublicKey cfg) = Ok claims /\
       UserID claims = u_ID user).
Proof.
  split; [|split].
  - intros r db info user db1 state target Hst Hq Hrd Hcode Hg Hc Hinactive.
    assert (E : handlers.GoogleCallback cfg w r db =
                (handlers.http_Error
                   [handlers.clearCookie w "oauth_state";
                    handlers.clearCookie w "oauth_redirect"]
                   (handlers.Text "User account is inactive")
                   handlers.StatusForbidden, db1)).
    { unfold handlers.GoogleCallback, auth.ExchangeGoogleCode, lift.
      rewrite Hst, Hq, String.eqb_refl, Hrd. simpl.
      apply String.eqb_neq in Hcode. rewrite Hcode, Hg, Hc, Hinactive.
      reflexivity. }
    rewrite E. split; [reflexivity|]. split.
    { pose proof (CreateOrUpdateUser_tokens cfg w info db) as T.
      rewrite Hc in T. exact T. }
    split; [|reflexivity].
    intros [c [Hin Hname]]. simpl in Hin.
    destruct Hin as [<-|[<-|[]]]; discriminate.
  - intros raw db Hinactive. rewrite RefreshAccessToken_unfold.
    destruct (fails w SelectValidRefreshTokens); [eauto|].
    destruct (candidate w raw db) as [t|] eqn:C; [|eauto].
    destruct (fails w RevokeRefreshTokenByID); [eauto|].
    assert (Hlen : List.length (refresh_tokens (revoked_in w (rt_ID t) db))
                   = List.length (refresh_tokens db))
      by (simpl; apply List.length_map).
    destruct (fails w SelectActiveUserByID); [eauto|].
    destruct (find _ (users db)) as [u|] eqn:F; [|eauto].
    exfalso. apply find_some in F. destruct F as [Hin Hu].
    apply andb_true_iff in Hu. destruct Hu as [Hu _].
    apply andb_true_iff in Hu. destruct Hu as [Hid Hact].
    apply N.eqb_eq in Hid.
    rewrite (Hinactive t u eq_refl Hin Hid) in Hact. discriminate.
  - intros Hsig Hkey user db pair db' t Hgen Ht.
    eexists. split.
    + eapply issued_access_token_validates; eassumption.
    + reflexivity.
Qed.

End Inactive.

Lemma inactive_user_is_refused_witness :
  exists pair,
    fst Sample.issued = Ok pair /\
    handlers.StatusCode
      (fst (@handlers.GoogleCallback Sample.toy Sample.cfg
              (Sample.google_answers 130 Sample.alice_identity)
              Sample.callback_request Sample.deactivated))
      = handlers.StatusForbidden /\
    (exists e db',
       @auth.RefreshAccessToken Sample.toy Sample.cfg (Sample.world 140 x07 40%N)
         (RefreshToken_ pair) Sample.deactivated = (Err e, db') /\
       List.length (refresh_tokens db') = 3%nat) /\
    (exists claims,
       @jwt.ValidateAccessToken Sample.toy (999 * time.Second) (AccessToken_ pair) 7%nat = Ok claims /\
       UserID claims = 1%N).
Proof.
  destruct Sample.issued as [[pair|e] db1] eqn:E; [|vm_compute in E; discriminate].
  exists pair. split; [reflexivity|].
  split; [|split].
  - set (w := Sample.google_answers 130 Sample.alice_identity).
    destruct (@auth.CreateOrUpdateUser Sample.toy Sample.cfg w Sample.alice_identity
                Sample.deactivated) as [[user|e] db2] eqn:C;
      [|vm_compute in C; discriminate].
    assert (Hact : u_IsActive user = false)
      by (vm_compute in C; inversion C; reflexivity).
    destruct (proj1 (@inactive_user_is_refused Sample.toy Sample.cfg w)
                Sample.callback_request Sample.deactivated Sample.alice_identity
                user db2 "c3RhdGU=" "https://app.example.com"
                eq_refl eq_refl eq_refl) as [Hr _];
      [discriminate | reflexivity | exact C | exact Hact |].
    rewrite Hr. reflexivity.
  - vm_compute in E. inversion E; subst; clear E.
    destruct (proj1 (proj2 (@inactive_user_is_refused Sample.toy Sample.cfg
                              (Sample.world 140 x07 40%N)))
                "AQEBAQEBAQEBAQEBAQEBAQEBAQEBAQEBAQEBAQEBAQE=" Sample.deactivated)
      as [e [db' [He Hlen]]].
    + intros t u Hc Hin Hid. vm_compute in Hc. inversion Hc; subst; clear Hc.
      vm_compute in Hin. destruct Hin as [<-|[<-|[]]];
        [reflexivity | discriminate Hid].
    + exists e, db'. split; [exact He | exact Hlen].
  - unfold Sample.issued in E.
    destruct (proj2 (proj2 (@inactive_user_is_refused Sample.toy Sample.cfg
                              (Sample.world 100 x01 20%N)))
                toy_signatures_verify eq_refl Sample.alice Sample.db0 pair db1 (999 * time.Second) E)
      as [claims [V Hsub]]; [vm_compute; reflexivity|].
    exists claims. auto.
Defined.

(** ** Logout *)
Section LogoutErrors.
Context {L : Libraries}.
Variable cfg : Config.
Variable w : World.

(** C9, as the code has it.  For a raw value that matches no valid
    record, [RevokeRefreshToken] returns "refresh token not found" and
    changes nothing.  [Logout] drops whatever [RevokeRefreshToken]
    returns, this error, a failed scan and a failed update alike: its
    response is always 200 "Logged out successfully" with the cookie
    cleared, and does not depend on the store or on the cookie sent. *)
Theorem Logout_answers_alike (r : handlers.Request) (db : DB) :
  fst (handlers.Logout cfg w r db) =
    {| handlers.StatusCode := handlers.StatusOK;
       handlers.SetCookie :=
         [{| handlers.c_Name := "refresh_token"; handlers.c_Value := "";
             handlers.c_Expires := Add (now w) (-1 * time.Hour);
             handlers.c_HttpOnly := true;
             handlers.c_Secure := handlers.production cfg;
             handlers.c_SameSite := handlers.SameSiteStrictMode;
             handlers.c_Path := "/" |}];
       handlers.Location := None;
       handlers.Body_ := handlers.JSON_message "Logged out successfully" |} /\
  (forall raw,
     fails w SelectValidRefreshTokens = false -> candidate w raw db = None ->
     auth.RevokeRefreshToken w raw db =
       (Err (Errorf "refresh token not found"), db)) /\
  (forall raw e,
     handlers.Cookie_ r "refresh_token" = Some raw ->
     fst (auth.RevokeRefreshToken w raw db) = Err e ->
     refresh_tokens (snd (handlers.Logout cfg w r db)) = refresh_tokens db).
Proof.
  split; [reflexivity|]. split.
  - intros raw Hq Hc. rewrite RevokeRefreshToken_unfold, Hq, Hc. reflexivity.
  - intros raw e Hcookie He. unfold handlers.Logout. rewrite Hcookie. simpl.
    destruct (auth.RevokeRefreshToken w raw db) as [[u|e'] db'] eqn:E;
      [discriminate|].
    apply RevokeRefreshToken_Err in E. subst db'. simpl.
    destruct (handlers.ctx_UserID r); [apply LogAuthEvent_tokens | reflexivity].
Qed.

End LogoutErrors.

(** C9 does not hold beyond the no-match case: with the store
    unreachable, [RevokeRefreshToken] returns "failed to query refresh
    tokens" for a token that is valid and stored, [Logout] answers 200
    "Logged out successfully", and the token is still redeemable. *)
Lemma Logout_swallows_storage_failure :
  let w := Sample.outage 100 in
  let r := Sample.request "" (Some Sample.raw0) in
  @auth.RevokeRefreshToken Sample.toy w Sample.raw0 Sample.db0
    = (Err (Errorf_w "failed to query refresh tokens" pgx_failure), Sample.db0) /\
  handlers.StatusCode (fst (@handlers.Logout Sample.toy Sample.cfg w r Sample.db0))
    = handlers.StatusOK /\
  handlers.Body_ (fst (@handlers.Logout Sample.toy Sample.cfg w r Sample.db0))
    = handlers.JSON_message "Logged out successfully" /\
  snd (@handlers.Logout Sample.toy Sample.cfg w r Sample.db0) = Sample.db0 /\
  @candidate Sample.toy (Sample.world 101 x01 20%N) Sample.raw0 Sample.db0
    = Some Sample.token0.
Proof. intros w r. repeat split. Qed.

Lemma Logout_answers_alike_witness :
  let w := Sample.world 100 x01 20%N in
  @auth.RevokeRefreshToken Sample.toy w "bm8tc3VjaC10b2tlbg==" Sample.db0
    = (Err (Errorf "refresh token not found"), Sample.db0) /\
  handlers.StatusCode
    (fst (@handlers.Logout Sample.toy Sample.cfg w
            (Sample.request "" (Some "bm8tc3VjaC10b2tlbg==")) Sample.db0))
    = handlers.StatusOK.
Proof.
  intros w.
  pose proof (@Logout_answers_alike Sample.toy Sample.cfg w
                (Sample.request "" (Some "bm8tc3VjaC10b2tlbg==")) Sample.db0)
    as [Hresp [Hnomatch _]].
  split.
  - apply Hnomatch; reflexivity.
  - rewrite Hresp. reflexivity.
Defined.

(** ** The encoding of the random bytes *)
Section Base64.













End Base64.

(** ** Refresh tokens at rest *)
Section AtRest.
Context {L : Libraries}.
Variable cfg : Config.

Lemma Read_length (source : option (nat -> byte)) (n : nat) (b : list byte) :
  rand.Read source n = Some b -> List.length b = n.
Proof.
  destruct source as [f|]; simpl; [|discriminate].
  intros H. inversion H. now rewrite length_map, length_seq.
Qed.



(** *** Every entry point stores hashes only *)









End AtRest.


(** ** Two rotations at once *)
Section Race.
Context {L : Libraries}.
Variable cfg : Config.

(** The four statements of a rotation, run without interruption, are
    [RefreshAccessToken]. *)
Lemma uninterrupted_rotation (w wB : World) (raw : string) (b : auth.Rotation)
    (db : DB) :
  auth.interleave cfg w wB [auth.First; auth.First; auth.First; auth.First]
    (auth.Scanning raw) b db
  = (auth.Returned (fst (auth.RefreshAccessToken cfg w raw db)), b,
     snd (auth.RefreshAccessToken cfg w raw db)).
Proof.
  rewrite RefreshAccessToken_unfold.
  unfold auth.interleave, auth.step at 1, wrap, select_valid_refresh_tokens,
    candidate.
  destruct (fails w SelectValidRefreshTokens); [reflexivity|].
  destruct (auth.scan raw _) as [t|]; [|reflexivity].
  unfold auth.step at 1, wrap, revoke_refresh_token_by_id.
  destruct (fails w RevokeRefreshTokenByID); [reflexivity|].
  unfold auth.step at 1, wrap, select_active_user_by_id.
  destruct (fails w SelectActiveUserByID); [reflexivity|].
  simpl users. fold (revoked_in w (rt_ID t) db).
  destruct (find _ (users db)) as [user|]; [|reflexivity].
  unfold auth.step.
  destruct (auth.GenerateTokens cfg w user (revoked_in w (rt_ID t) db));
    reflexivity.
Qed.

End Race.

(** C2 fails on the code.  Two requests present the same valid raw token;
    both scans run before either revocation.  The update
    [SET revoked_at = NOW() WHERE id = $1] succeeds for both, nobody looks
    at the number of rows it changed, and both requests return a pair: the
    store ends with the one record revoked and two successors. *)
Lemma concurrent_rotations_both_succeed :
  let wA := Sample.world 100 x01 20%N in
  let wB := Sample.world 101 x02 21%N in
  let schedule := [auth.First; auth.Second; auth.First; auth.Second;
                   auth.First; auth.Second; auth.First; auth.Second] in
  exists pairA pairB db',
    @auth.interleave Sample.toy Sample.cfg wA wB schedule
      (auth.Scanning Sample.raw0) (auth.Scanning Sample.raw0) Sample.db0
    = (auth.Returned (Ok pairA), auth.Returned (Ok pairB), db') /\
    RefreshToken_ pairA <> RefreshToken_ pairB /\
    map rt_ID (refresh_tokens db') = [10%N; 11%N; 20%N; 21%N] /\
    map rt_UserID (refresh_tokens db') = [1%N; 2%N; 1%N; 1%N] /\
    map rt_RevokedAt (refresh_tokens db')
      = [Some (101 * time.Second); None; None; None].
Proof.
  intros wA wB schedule. eexists. eexists. eexists.
  split; [vm_compute; reflexivity|].
  repeat split; discriminate.
Qed.

(** * Further properties *)

(** ** Comma-separated configuration values *)
Section CommaSeparated.

Lemma Split_nonempty (s : string) (sep : ascii) : strings.Split s sep <> [].
Proof.
  destruct s as [|c s]; simpl; [discriminate|].
  destruct (Ascii.eqb c sep); [discriminate|].
  destruct (strings.Split s sep); discriminate.
Qed.

(** No piece of a split holds the separator. *)
Lemma Split_pieces (s : string) (sep : ascii) :
  Forall (fun piece => ~ In sep (list_ascii_of_string piece)) (strings.Split s sep).
Proof.
  induction s as [|c s IH]; simpl.
  - constructor; [intros [] | constructor].
  - destruct (Ascii.eqb c sep) eqn:E.
    + constructor; [intros [] | assumption].
    + destruct (strings.Split s sep) as [|piece pieces]; simpl.
      * constructor; [|constructor]. simpl. intros [H|[]].
        subst. rewrite Ascii.eqb_refl in E. discriminate.
      * inversion IH; subst. constructor; [|assumption].
        simpl. intros [H|H]; [|contradiction].
        subst. rewrite Ascii.eqb_refl in E. discriminate.
Qed.

(** The pieces of a split, joined by the separator, are the string. *)
Lemma Join_Split (s : string) (sep : ascii) :
  strings.Join (strings.Split s sep) (String sep EmptyString) = s.
Proof.
  induction s as [|c s IH]; simpl; [reflexivity|].
  destruct (Ascii.eqb c sep) eqn:E.
  - apply Ascii.eqb_eq in E. subst c.
    destruct (strings.Split s sep) as [|piece pieces] eqn:S.
    + exfalso. exact (Split_nonempty s sep S).
    + simpl. now rewrite <- IH.
  - destruct (strings.Split s sep) as [|piece pieces] eqn:S.
    + exfalso. exact (Split_nonempty s sep S).
    + destruct pieces; simpl in *; now rewrite <- IH.
Qed.

(** A list of pieces without separator, joined and split, is the list. *)
Lemma Split_Join (pieces : list string) (sep : ascii) :
  pieces <> [] ->
  Forall (fun piece => ~ In sep (list_ascii_of_string piece)) pieces ->
  strings.Split (strings.Join pieces (String sep EmptyString)) sep = pieces.
Proof.
  induction pieces as [|p rest IH]; [congruence|]. intros _ H.
  inversion H as [|? ? Hp Hrest]; subst.
  destruct rest as [|q rest].
  - simpl. clear IH H Hrest. induction p as [|c p IHp]; simpl; [reflexivity|].
    destruct (Ascii.eqb c sep) eqn:E.
    + apply Ascii.eqb_eq in E. subst. exfalso. apply Hp. now left.
    + rewrite IHp; [reflexivity|]. intros Hin. apply Hp. now right.
  - assert (IH' := IH ltac:(discriminate) Hrest). clear IH.
    change (strings.Join (p :: q :: rest) (String sep EmptyString))
      with (p ++ String sep (strings.Join (q :: rest) (String sep EmptyString)))%string.
    remember (strings.Join (q :: rest) (String sep EmptyString)) as J.
    clear HeqJ H Hrest.
    induction p as [|c p IHp].
    + simpl. rewrite Ascii.eqb_refl. now rewrite IH'.
    + simpl. destruct (Ascii.eqb c sep) eqn:E.
      * apply Ascii.eqb_eq in E. subst. exfalso. apply Hp. now left.
      * rewrite IHp; [reflexivity|]. intros Hin. apply Hp. now right.
Qed.

End CommaSeparated.


(** ** Trimming *)
Section Trimming.
Variable TrimFunc_IsSpace : string -> string.
Variable TrimRightFunc_IsSpace : string -> string.

Lemma trim_right_spec (reversed : list ascii) :
  Forall (fun c => strings.RuneSelf c = false) reversed ->
  exists blanks kept,
    reversed = (blanks ++ kept)%list /\
    Forall (fun c => strings.asciiSpace c = true) blanks /\
    strings.trim_right TrimRightFunc_IsSpace reversed
      = string_of_list_ascii (rev kept) /\
    match kept with [] => True | c :: _ => strings.asciiSpace c = false end.
Proof.
  induction 1 as [|c l Hc Hl IH].
  - exists [], []. repeat split; constructor.
  - simpl. rewrite Hc. destruct (strings.asciiSpace c) eqn:S.
    + destruct IH as [blanks [kept [-> [Hb [Ht Hk]]]]].
      exists (c :: blanks), kept. repeat split; try assumption.
      constructor; assumption.
    + exists [], (c :: l). repeat split; [constructor | assumption].
Qed.

(** On a string of ASCII bytes, [TrimSpace] removes blanks at both ends and
    nothing else, and leaves no blank at either end. *)
Lemma TrimSpace_spec (s : string) :
  ascii_only s ->
  exists before after,
    list_ascii_of_string s =
      (before ++ list_ascii_of_string
                   (strings.TrimSpace TrimFunc_IsSpace TrimRightFunc_IsSpace s)
       ++ after)%list /\
    Forall (fun c => strings.asciiSpace c = true) before /\
    Forall (fun c => strings.asciiSpace c = true) after /\
    trimmed (strings.TrimSpace TrimFunc_IsSpace TrimRightFunc_IsSpace s).
Proof.
  unfold ascii_only. induction s as [|c s IH]; intros Hs.
  - exists [], []. simpl. unfold trimmed. simpl.
    split; [reflexivity|]. split; [constructor|]. split; [constructor|].
    split; exact I.
  - inversion Hs as [|? ? Hc Hrest]; subst. simpl strings.TrimSpace. rewrite Hc.
    destruct (strings.asciiSpace c) eqn:S.
    + destruct (IH Hrest) as [before [after [E [Hb [Ha Ht]]]]].
      exists (c :: before), after. simpl. rewrite <- E.
      split; [reflexivity|]. split; [constructor; assumption|].
      split; assumption.
    + change (rev (list_ascii_of_string s) ++ [c])%list
        with (rev (list_ascii_of_string (String c s))).
      set (chars := list_ascii_of_string (String c s)).
      assert (Hascii : Forall (fun c => strings.RuneSelf c = false) (rev chars)).
      { apply Forall_rev. exact Hs. }
      destruct (trim_right_spec (rev chars) Hascii)
        as [blanks [kept [E [Hb [Ht Hk]]]]].
      rewrite Ht.
      assert (Echars : chars = (rev kept ++ rev blanks)%list).
      { rewrite <- rev_app_distr, <- E. symmetry. apply rev_involutive. }
      assert (Hkept : kept <> []).
      { intros ->. simpl in Echars. unfold chars in Echars. simpl in Echars.
        assert (In c (rev blanks)) by (rewrite <- Echars; now left).
        apply in_rev in H. rewrite Forall_forall in Hb.
        rewrite (Hb c H) in S. discriminate. }
      exists [], (rev blanks). rewrite list_ascii_of_string_of_list_ascii.
      split; [exact Echars|]. split; [constructor|].
      split; [now apply Forall_rev|].
      unfold trimmed, solid. rewrite list_ascii_of_string_of_list_ascii.
      split.
      * destruct (rev kept) as [|k ks] eqn:K.
        -- exact I.
        -- unfold chars in Echars. simpl in Echars. inversion Echars; subst k.
           split; assumption.
      * rewrite rev_involutive. destruct kept as [|k ks]; [exact I|].
        split; [|assumption].
        rewrite Forall_forall in Hascii. apply Hascii. rewrite E.
        apply in_or_app. right. now left.
Qed.

(** A string without blanks at its ends is left as it is, whatever lies
    between them. *)
Lemma TrimSpace_trimmed (s : string) :
  trimmed s -> strings.TrimSpace TrimFunc_IsSpace TrimRightFunc_IsSpace s = s.
Proof.
  unfold trimmed, solid. destruct s as [|c s]; [reflexivity|].
  intros [[Hc Sc] Hlast]. simpl strings.TrimSpace. rewrite Hc, Sc.
  change (rev (list_ascii_of_string s) ++ [c])%list
    with (rev (list_ascii_of_string (String c s))).
  destruct (rev (list_ascii_of_string (String c s))) as [|d l] eqn:E.
  - apply (f_equal (@List.length ascii)) in E. rewrite length_rev in E. discriminate.
  - destruct Hlast as [Hd Sd]. simpl. rewrite Hd, Sd.
    change (rev l ++ [d])%list with (rev (d :: l)).
    rewrite <- E, rev_involutive. apply string_of_list_ascii_of_string.
Qed.

End Trimming.

(** ** [parseCSV] *)
Section ParseCSV.
Context {L : Libraries} {R : Runtime}.

Lemma Split_chars (s : string) (sep : ascii) (piece : string) (c : ascii) :
  In piece (strings.Split s sep) -> In c (list_ascii_of_string piece) ->
  In c (list_ascii_of_string s).
Proof.
  revert piece. induction s as [|d s IH]; intros piece; simpl.
  - intros [<-|[]] [].
  - destruct (Ascii.eqb d sep).
    + intros [<-|H] Hc; [destruct Hc | right; eapply IH; eassumption].
    + destruct (strings.Split s sep) as [|p ps].
      * intros [<-|[]] [<-|[]]. now left.
      * intros [<-|H] Hc.
        -- destruct Hc as [<-|Hc]; [now left|]. right. apply (IH p); [now left | assumption].
        -- right. apply (IH piece); [now right | assumption].
Qed.

(** X1.  [parseCSV] never yields an empty entry, and yields no entry at
    all for the empty string.  For a value of ASCII bytes, every entry is
    free of commas and has no blank at either end. *)
Theorem parseCSV_entries (s : string) :
  loading.parseCSV EmptyString = [] /\
  ~ In EmptyString (loading.parseCSV s) /\
  (ascii_only s -> Forall entry (loading.parseCSV s)).
Proof.
  split; [reflexivity|]. unfold loading.parseCSV.
  destruct (String.eqb s "") eqn:E0.
  { split; [intros [] | constructor]. }
  split.
  - intros H. apply filter_In in H. destruct H as [_ H]. discriminate.
  - intros Hs. apply Forall_forall. intros e He.
    apply filter_In in He. destruct He as [He Hne].
    apply in_map_iff in He. destruct He as [piece [<- Hp]].
    assert (Hpiece : ascii_only piece).
    { apply Forall_forall. intros c Hc. unfold ascii_only in Hs.
      rewrite Forall_forall in Hs. apply Hs.
      eapply Split_chars; eassumption. }
    destruct (TrimSpace_spec TrimFunc_IsSpace TrimRightFunc_IsSpace piece Hpiece)
      as [before [after [Ep [_ [_ Ht]]]]].
    split; [|split].
    + intros Hempty. rewrite Hempty in Hne. discriminate.
    + intros Hcomma.
      pose proof (Split_pieces s ","%char) as Hfree.
      rewrite Forall_forall in Hfree. apply (Hfree piece Hp).
      rewrite Ep. apply in_or_app. right. apply in_or_app. now left.
    + exact Ht.
Qed.

(** X2.  A list of entries, written with commas between them, parses back
    to the same list: order and repetitions are kept. *)
Theorem parseCSV_Join (entries : list string) :
  Forall entry entries ->
  loading.parseCSV (strings.Join entries ",") = entries.
Proof.
  intros H. destruct entries as [|e rest]; [reflexivity|].
  unfold loading.parseCSV.
  assert (Hne : String.eqb (strings.Join (e :: rest) ",") "" = false).
  { inversion H as [|? ? [He _] _]; subst. apply String.eqb_neq.
    destruct e as [|c e]; [congruence|]. destruct rest; discriminate. }
  rewrite Hne, Split_Join.
  - clear Hne. induction H as [|x l [Hx [_ Ht]] _ IH]; [reflexivity|].
    simpl. rewrite (TrimSpace_trimmed _ _ x Ht).
    apply String.eqb_neq in Hx. rewrite Hx. simpl. now f_equal.
  - discriminate.
  - eapply Forall_impl; [|exact H]. intros x [_ [Hc _]]. exact Hc.
Qed.

End ParseCSV.

Lemma parseCSV_entries_witness :
  @loading.parseCSV Sample.toy Cases.runtime (Cases.environ "ADMIN_EMAILS")
    = ["root@example.com"; "ops@example.com"] /\
  Forall entry
    (@loading.parseCSV Sample.toy Cases.runtime (Cases.environ "ADMIN_EMAILS")).
Proof.
  split; [reflexivity|].
  apply (proj2 (proj2 (@parseCSV_entries Sample.toy Cases.runtime
                         (Cases.environ "ADMIN_EMAILS")))).
  unfold ascii_only. vm_compute. repeat constructor.
Defined.

Lemma parseCSV_Join_witness :
  @loading.parseCSV Sample.toy Cases.runtime
    "https://app.example.com,http://localhost:3000,https://app.example.com"
  = ["https://app.example.com"; "http://localhost:3000"; "https://app.example.com"].
Proof.
  apply (@parseCSV_Join Sample.toy Cases.runtime
           ["https://app.example.com"; "http://localhost:3000";
            "https://app.example.com"]).
  repeat constructor; try discriminate;
    try (unfold comma_free; vm_compute; intuition discriminate).
Defined.


(** ** Loading the configuration *)
Section Loading.
Context {L : Libraries} {R : Runtime}.
Variable Getenv : string -> string.

Lemma getEnv_empty_iff (key : string) :
  String.eqb (loading.getEnv Getenv key "") "" = false <-> Getenv key <> EmptyString.
Proof.
  unfold loading.getEnv. destruct (String.eqb (Getenv key) "") eqn:E.
  - apply String.eqb_eq in E. split; [discriminate | congruence].
  - rewrite E. apply String.eqb_neq in E. tauto.
Qed.

(** X3.  [Load] returns a configuration exactly when both durations
    parse, both key files load (no key is ever generated: the keys are the
    ones of the two files, whether or not they belong together) and
    DATABASE_URL, GOOGLE_CLIENT_ID and GOOGLE_CLIENT_SECRET are set to a
    non-empty value; every other field falls back to its default when its
    variable is unset or empty. *)
Theorem Load_Ok_iff (loaded : loading.Loaded) :
  loading.Load Getenv = Ok loaded <->
  exists accessExpiry refreshExpiry privateKey publicKey,
    ParseDuration (loading.getEnv Getenv "JWT_ACCESS_TOKEN_EXPIRY" "15m")
      = Some accessExpiry /\
    ParseDuration (loading.getEnv Getenv "JWT_REFRESH_TOKEN_EXPIRY" "168h")
      = Some refreshExpiry /\
    loading.loadPrivateKey
      (loading.getEnv Getenv "JWT_PRIVATE_KEY_PATH" "./keys/private_key.pem")
      = Ok privateKey /\
    loading.loadPublicKey
      (loading.getEnv Getenv "JWT_PUBLIC_KEY_PATH" "./keys/public_key.pem")
      = Ok publicKey /\
    Getenv "DATABASE_URL" <> EmptyString /\
    Getenv "GOOGLE_CLIENT_ID" <> EmptyString /\
    Getenv "GOOGLE_CLIENT_SECRET" <> EmptyString /\
    loaded =
      {| loading.Port := loading.getEnv Getenv "PORT" "8080";
         loading.DatabaseURL := Getenv "DATABASE_URL";
         loading.GoogleClientID := Getenv "GOOGLE_CLIENT_ID";
         loading.GoogleClientSecret := Getenv "GOOGLE_CLIENT_SECRET";
         loading.GoogleRedirectURL :=
           loading.getEnv Getenv "GOOGLE_REDIRECT_URL"
             "http://localhost:8080/api/auth/google/callback";
         loading.Core :=
           {| Env := loading.getEnv Getenv "ENV" "development";
              JWTPrivateKey := privateKey;
              JWTPublicKey := publicKey;
              JWTAccessTokenExpiry := accessExpiry;
              JWTRefreshTokenExpiry := refreshExpiry;
              AllowedOrigins :=
                loading.parseCSV
                  (loading.getEnv Getenv "ALLOWED_ORIGINS"
                     "http://localhost:3000,http://localhost:5173");
              AdminEmails := loading.parseCSV (Getenv "ADMIN_EMAILS") |} |}.
Proof.
  assert (Hget : forall key, Getenv key <> EmptyString ->
                             loading.getEnv Getenv key "" = Getenv key).
  { intros key H. unfold loading.getEnv. apply String.eqb_neq in H. now rewrite H. }
  assert (Hadm : loading.parseCSV (loading.getEnv Getenv "ADMIN_EMAILS" "")
                 = loading.parseCSV (Getenv "ADMIN_EMAILS")).
  { unfold loading.getEnv. destruct (String.eqb (Getenv "ADMIN_EMAILS") "") eqn:E;
      [|reflexivity]. apply String.eqb_eq in E. now rewrite E. }
  unfold loading.Load, loading.loadOrGenerateKeys, loading.generateAndSaveKeys.
  rewrite Hadm.
  destruct (ParseDuration (loading.getEnv Getenv "JWT_ACCESS_TOKEN_EXPIRY" "15m"))
    as [a|]; [|split; [discriminate | intros [? [? [? [? [H _]]]]]; discriminate]].
  destruct (ParseDuration (loading.getEnv Getenv "JWT_REFRESH_TOKEN_EXPIRY" "168h"))
    as [r|]; [|split; [discriminate | intros [? [? [? [? [_ [H _]]]]]]; discriminate]].
  destruct (loading.loadPrivateKey _) as [k|e];
    [|split; [discriminate | intros [? [? [? [? [_ [_ [H _]]]]]]]; discriminate]].
  destruct (loading.loadPublicKey _) as [p|e];
    [|split; [discriminate | intros [? [? [? [? [_ [_ [_ [H _]]]]]]]]; discriminate]].
  destruct (String.eqb (loading.getEnv Getenv "DATABASE_URL" "") "") eqn:D.
  { split; [discriminate|]. intros [? [? [? [? [_ [_ [_ [_ [H _]]]]]]]]].
    apply getEnv_empty_iff in H. congruence. }
  destruct (String.eqb (loading.getEnv Getenv "GOOGLE_CLIENT_ID" "") "") eqn:G.
  { split; [discriminate|]. intros [? [? [? [? [_ [_ [_ [_ [_ [H _]]]]]]]]]].
    apply getEnv_empty_iff in H. congruence. }
  destruct (String.eqb (loading.getEnv Getenv "GOOGLE_CLIENT_SECRET" "") "") eqn:S.
  { split; [discriminate|]. intros [? [? [? [? [_ [_ [_ [_ [_ [_ [H _]]]]]]]]]]].
    apply getEnv_empty_iff in H. congruence. }
  apply getEnv_empty_iff in D, G, S.
  rewrite (Hget _ D), (Hget _ G), (Hget _ S).
  split.
  - intros H. inversion H; subst; clear H.
    exists a, r, k, p. repeat split; assumption.
  - intros [a' [r' [k' [p' [Ha [Hr [Hk [Hp [_ [_ [_ ->]]]]]]]]]]].
    inversion Ha; inversion Hr; inversion Hk; inversion Hp. reflexivity.
Qed.

End Loading.

Lemma Load_Ok_iff_witness :
  exists loaded,
    @loading.Load Sample.toy Cases.runtime Cases.environ = Ok loaded /\
    AdminEmails (loading.Core loaded) = ["root@example.com"; "ops@example.com"] /\
    AllowedOrigins (loading.Core loaded)
      = ["http://localhost:3000"; "http://localhost:5173"] /\
    JWTAccessTokenExpiry (loading.Core loaded) = 15 * time.Minute.
Proof.
  eexists. split.
  - apply (proj2 (@Load_Ok_iff Sample.toy Cases.runtime Cases.environ _)).
    exists (15 * time.Minute), (168 * time.Hour), 7%nat, 7%nat.
    repeat split; try reflexivity; discriminate.
  - repeat split.
Defined.

(** A TTL that is not a whole number of seconds loads as it is given:
    [time.ParseDuration] reads "1500ms" and [Load] asks no more of it. *)
Lemma Load_takes_a_fraction_of_a_second :
  exists loaded,
    @loading.Load Sample.toy Cases.runtime Cases.hasty = Ok loaded /\
    JWTAccessTokenExpiry (loading.Core loaded) = 1500 * time.Millisecond.
Proof.
  eexists. split; [vm_compute; reflexivity | reflexivity].
Qed.

(** ** A login without a place to return to *)
Section NoOrigins.
Context {L : Libraries}.
Variable cfg : Config.
Variable w : World.

(** X4.  [GoogleLogin] panics (the index 0 of an empty slice) exactly when
    the request names no redirect target and no origin is configured; with
    no origin configured, every target that is named gets 400.  Such a
    configuration loads: a list of origins made of separators parses to no
    origin at all. *)
Theorem GoogleLogin_without_origins (r : handlers.Request) :
  (handlers.GoogleLogin cfg w r = None <->
   handlers.Query_Get r "redirect_uri" = EmptyString /\ AllowedOrigins cfg = []) /\
  (AllowedOrigins cfg = [] ->
   handlers.Query_Get r "redirect_uri" <> EmptyString ->
   handlers.GoogleLogin cfg w r =
     Some (handlers.http_Error [] (handlers.Text "Invalid redirect_uri")
             handlers.StatusBadRequest)).
Proof.
  unfold handlers.GoogleLogin. split.
  - destruct (String.eqb (handlers.Query_Get r "redirect_uri") "") eqn:E.
    + apply String.eqb_eq in E.
      destruct (AllowedOrigins cfg) as [|first rest] eqn:A; simpl.
      * tauto.
      * split; [|intros [_ H]; discriminate].
        destruct (negb _); discriminate.
    + apply String.eqb_neq in E. split; [|tauto].
      destruct (negb _); discriminate.
  - intros A Hne. apply String.eqb_neq in Hne. rewrite Hne.
    unfold handlers.validRedirect. rewrite A. reflexivity.
Qed.

End NoOrigins.

Lemma GoogleLogin_without_origins_witness :
  exists loaded,
    @loading.Load Sample.toy Cases.runtime Cases.no_origins = Ok loaded /\
    AllowedOrigins (loading.Core loaded) = [] /\
    @handlers.GoogleLogin Sample.toy (loading.Core loaded)
      (Sample.world 100 x01 20%N) (Sample.request "" None) = None /\
    @handlers.GoogleLogin Sample.toy (loading.Core loaded)
      (Sample.world 100 x01 20%N) (Sample.request "https://app.example.com" None)
    = Some (handlers.http_Error [] (handlers.Text "Invalid redirect_uri")
              handlers.StatusBadRequest).
Proof.
  eexists. split; [vm_compute; reflexivity|]. split; [reflexivity|].
  split.
  - apply (proj1 (@GoogleLogin_without_origins Sample.toy _
                    (Sample.world 100 x01 20%N) (Sample.request "" None))).
    split; reflexivity.
  - apply (proj2 (@GoogleLogin_without_origins Sample.toy _
                    (Sample.world 100 x01 20%N)
                    (Sample.request "https://app.example.com" None)));
      [reflexivity | discriminate].
Defined.


(** ** The authorization header *)
Section Header.

Lemma SplitN2_cases (s : string) (sep : ascii) :
  (~ In sep (list_ascii_of_string s) /\ strings.SplitN2 s sep = [s]) \/
  (exists a b, s = (a ++ String sep b)%string /\
               ~ In sep (list_ascii_of_string a) /\
               strings.SplitN2 s sep = [a; b]).
Proof.
  induction s as [|c s IH]; simpl.
  - left. split; [intros [] | reflexivity].
  - destruct (Ascii.eqb c sep) eqn:E.
    + apply Ascii.eqb_eq in E. subst. right. exists EmptyString, s.
      split; [reflexivity|]. split; [intros [] | reflexivity].
    + assert (c <> sep) by (intros ->; rewrite Ascii.eqb_refl in E; discriminate).
      destruct IH as [[Hno ->] | [a [b [-> [Hno ->]]]]].
      * left. split; [|reflexivity]. simpl. intros [?|?]; [congruence | contradiction].
      * right. exists (String c a), b. split; [reflexivity|].
        split; [|reflexivity]. simpl. intros [?|?]; [congruence | contradiction].
Qed.

End Header.

Section Middleware.
Context {L : Libraries} {R : Runtime}.
Variable publicKey : PublicKey.
Variable now : Time.

Lemma AuthMiddleware_Next (authHeader : string) (ctx : middleware.Context) :
  middleware.AuthMiddleware publicKey now authHeader = middleware.Next ctx <->
  exists tokenString token claims,
    authHeader = ("Bearer " ++ tokenString)%string /\
    ParseCompact tokenString = Some token /\
    jwt.ValidateAccessToken now token publicKey = Ok claims /\
    ctx = {| middleware.UserIDKey := Some (UserID claims);
             middleware.EmailKey := Some (Email claims);
             middleware.NameKey := Some (Name claims);
             middleware.RoleKey := Some (Role claims) |}.
Proof.
  unfold middleware.AuthMiddleware, middleware.ValidateAccessToken. split.
  - destruct (String.eqb authHeader "") eqn:E0; [discriminate|].
    destruct (SplitN2_cases authHeader " "%char)
      as [[_ ->] | [a [b [-> [_ ->]]]]]; [discriminate|].
    destruct (String.eqb a "Bearer") eqn:Ea; [|discriminate]. simpl.
    apply String.eqb_eq in Ea. subst a.
    destruct (ParseCompact b) as [token|] eqn:P; [|discriminate].
    destruct (jwt.ValidateAccessToken now token publicKey) as [claims|e] eqn:V;
      [|discriminate].
    intros H. inversion H; subst. exists b, token, claims. auto.
  - intros [tokenString [token [claims [-> [P [V ->]]]]]]. simpl.
    rewrite P, V. reflexivity.
Qed.

Lemma AuthMiddleware_Refused (authHeader msg : string) (code : Z) :
  middleware.AuthMiddleware publicKey now authHeader = middleware.Refused msg code ->
  code = handlers.StatusUnauthorized.
Proof.
  unfold middleware.AuthMiddleware, middleware.ValidateAccessToken.
  destruct (String.eqb authHeader ""); [now inversion 1|].
  destruct (strings.SplitN2 authHeader " ") as [|scheme [|tokenString [|]]];
    try (now inversion 1).
  destruct (negb (String.eqb scheme "Bearer")); [now inversion 1|].
  destruct (ParseCompact tokenString) as [token|]; [|now inversion 1].
  destruct (jwt.ValidateAccessToken now token publicKey); [discriminate|].
  now inversion 1.
Qed.

(** X5.  [AuthMiddleware] lets a request through exactly when its
    Authorization header is "Bearer ", with this spelling and one space,
    followed by a string that parses to a token which validates now; the
    context then carries the subject, email, name and role of the claims.
    Any other request is answered 401 and goes no further. *)
Theorem AuthMiddleware_passes (authHeader : string) (ctx : middleware.Context) :
  (middleware.AuthMiddleware publicKey now authHeader = middleware.Next ctx <->
   exists tokenString token claims,
     authHeader = ("Bearer " ++ tokenString)%string /\
     ParseCompact tokenString = Some token /\
     jwt.ValidateAccessToken now token publicKey = Ok claims /\
     ctx = {| middleware.UserIDKey := Some (UserID claims);
              middleware.EmailKey := Some (Email claims);
              middleware.NameKey := Some (Name claims);
              middleware.RoleKey := Some (Role claims) |}) /\
  (forall msg code,
     middleware.AuthMiddleware publicKey now authHeader = middleware.Refused msg code ->
     code = handlers.StatusUnauthorized).
Proof.
  split.
  - apply AuthMiddleware_Next.
  - intros msg code. apply AuthMiddleware_Refused.
Qed.

(** X6.  Stacked on [AuthMiddleware], [AdminMiddleware] lets a request
    through exactly when the role claim of its valid token is "admin";
    every other request is answered 401 or 403, and the 500 of a missing
    role does not occur; [IsAdmin] says the same. *)
Theorem admin_only_passes (authHeader : string) (ctx : middleware.Context) :
  (admin_only publicKey now authHeader = middleware.Next ctx <->
   middleware.AuthMiddleware publicKey now authHeader = middleware.Next ctx /\
   middleware.RoleKey ctx = Some "admin") /\
  (forall msg code,
     admin_only publicKey now authHeader = middleware.Refused msg code ->
     code = handlers.StatusUnauthorized \/ code = handlers.StatusForbidden) /\
  (forall c, middleware.AuthMiddleware publicKey now authHeader = middleware.Next c ->
     middleware.IsAdmin c = true <->
     middleware.AdminMiddleware c = middleware.Next c).
Proof.
  unfold admin_only.
  destruct (middleware.AuthMiddleware publicKey now authHeader) as [m c|c] eqn:A.
  - split; [|split].
    + split; [discriminate | intros [H _]; discriminate].
    + intros msg code H. inversion H; subst. left.
      exact (AuthMiddleware_Refused _ _ _ A).
    + discriminate.
  - apply AuthMiddleware_Next in A.
    destruct A as [ts [token [claims [_ [_ [_ ->]]]]]].
    unfold middleware.AdminMiddleware, middleware.IsAdmin. simpl.
    destruct (String.eqb (Role claims) "admin") eqn:E; simpl.
    + apply String.eqb_eq in E. split; [|split].
      * split.
        -- intros H. inversion H; subst. simpl. rewrite E. auto.
        -- intros [H _]. exact H.
      * discriminate.
      * intros c H. inversion H; subst. simpl. rewrite E. simpl. tauto.
    + apply String.eqb_neq in E. split; [|split].
      * split; [discriminate|]. intros [H Hr]. inversion H; subst.
        simpl in Hr. congruence.
      * intros msg code H. inversion H. now right.
      * intros c H. inversion H; subst. simpl.
        apply String.eqb_neq in E. rewrite E. simpl.
        split; discriminate.
Qed.

End Middleware.

Lemma AuthMiddleware_passes_witness :
  @middleware.AuthMiddleware Sample.toy Cases.runtime 7%nat (500 * time.Second) "Bearer alice.token"
    = middleware.Next
        {| middleware.UserIDKey := Some 1%N;
           middleware.EmailKey := Some "alice@example.com";
           middleware.NameKey := Some "Alice";
           middleware.RoleKey := Some "user" |} /\
  @middleware.AuthMiddleware Sample.toy Cases.runtime 7%nat (500 * time.Second) "bearer alice.token"
    = middleware.Refused "Invalid authorization header format" 401.
Proof.
  split; [|reflexivity].
  apply (proj1 (@AuthMiddleware_passes Sample.toy Cases.runtime 7%nat (500 * time.Second)
                  "Bearer alice.token" _)).
  exists "alice.token", Cases.access_alice,
    (issued_claims Sample.cfg (Sample.world 100 x01 20%N) Sample.alice).
  repeat split.
Defined.

Lemma admin_only_passes_witness :
  (exists ctx,
     @admin_only Sample.toy Cases.runtime 7%nat (500 * time.Second) "Bearer root.token"
       = middleware.Next ctx) /\
  @admin_only Sample.toy Cases.runtime 7%nat (500 * time.Second) "Bearer alice.token"
    = middleware.Refused "Admin access required" 403.
Proof.
  split; [|reflexivity].
  eexists.
  apply (proj1 (proj1 (@admin_only_passes Sample.toy Cases.runtime 7%nat (500 * time.Second)
                         "Bearer root.token" _))).
  split; reflexivity.
Defined.

(** ** The life of an access token *)
Section AccessToken.
Context {L : Libraries}.
Variable cfg : Config.
Variable w : World.

Lemma issued_access_token (user : User) (db db' : DB) (pair : auth.TokenPair) :
  auth.GenerateTokens cfg w user db = (Ok pair, db') ->
  exists sig,
    Sign SigningMethodRS256 (JWTPrivateKey cfg)
      (SigningMethodRS256, issued_claims cfg w user) = Some sig /\
    AccessToken_ pair = {| jwt.Method := SigningMethodRS256;
                           jwt.Claims_ := issued_claims cfg w user;
                           jwt.Signature_ := sig |}.
Proof.
  intros H. apply GenerateTokens_Ok in H.
  destruct H as [sig [b [hash [Hs [_ [_ [_ [-> _]]]]]]]]. exists sig. auto.
Qed.

(** X7.  An issued access token is accepted at every instant before its
    expiry, also before its issued-at instant, which is not checked, and
    refused with [ErrTokenExpired] from the instant of its expiry on. *)
Theorem access_token_lifetime
    (user : User) (db db' : DB) (pair : auth.TokenPair) (t : Time) :
  signatures_verify ->
  JWTPublicKey cfg = Public (JWTPrivateKey cfg) ->
  auth.GenerateTokens cfg w user db = (Ok pair, db') ->
  (t < access_expiry cfg w ->
   jwt.ValidateAccessToken t (AccessToken_ pair) (JWTPublicKey cfg)
     = Ok (issued_claims cfg w user)) /\
  (access_expiry cfg w <= t ->
   jwt.ValidateAccessToken t (AccessToken_ pair) (JWTPublicKey cfg)
     = Err jwt_ErrTokenExpired).
Proof.
  intros Hsig Hkey Hgen. split; intros Ht.
  - eapply issued_access_token_validates; eassumption.
  - apply issued_access_token in Hgen. destruct Hgen as [sig [Hs ->]].
    unfold jwt.ValidateAccessToken, jwt.ParseWithClaims, jwt.Validate. simpl.
    rewrite Hkey, (Hsig _ _ _ _ Hs). fold (access_expiry cfg w).
    apply Z.ltb_ge in Ht. rewrite Ht. reflexivity.
Qed.

(** X8.  The signature of an issued access token does not carry over: a
    token with that signature and any other header method or claims (a
    role changed to "admin", a later expiry) is refused, under any key. *)
Theorem altered_token_is_refused
    (user : User) (db db' : DB) (pair : auth.TokenPair) (t : Time)
    (m : SigningMethod) (claims : Claims) (pk : PublicKey) :
  signatures_name_their_message ->
  auth.GenerateTokens cfg w user db = (Ok pair, db') ->
  (m, claims) <> (jwt.Method (AccessToken_ pair), jwt.Claims_ (AccessToken_ pair)) ->
  exists e,
    jwt.ValidateAccessToken t
      {| jwt.Method := m; jwt.Claims_ := claims;
         jwt.Signature_ := jwt.Signature_ (AccessToken_ pair) |} pk = Err e.
Proof.
  intros Hlaw Hgen Hne.
  apply issued_access_token in Hgen. destruct Hgen as [sig [Hs E]].
  rewrite E in *. simpl in *.
  unfold jwt.ValidateAccessToken, jwt.ParseWithClaims. simpl.
  destruct m; try (eexists; reflexivity).
  rewrite (Hlaw _ _ _ _ _ _ _ Hs Hne). eexists; reflexivity.
Qed.

(** X9.  Nothing ties the two key files together.  When the public key is
    the public half of another private key than the one that signs, the
    service refuses every access token it issues. *)
Theorem mismatched_keys_refuse_own_tokens
    (other : PrivateKey) (user : User) (db db' : DB) (pair : auth.TokenPair)
    (t : Time) :
  signatures_name_their_key ->
  JWTPublicKey cfg = Public other -> JWTPrivateKey cfg <> other ->
  auth.GenerateTokens cfg w user db = (Ok pair, db') ->
  jwt.ValidateAccessToken t (AccessToken_ pair) (JWTPublicKey cfg)
    = Err jwt_ErrTokenSignatureInvalid.
Proof.
  intros Hlaw Hpub Hne Hgen.
  apply issued_access_token in Hgen. destruct Hgen as [sig [Hs ->]].
  unfold jwt.ValidateAccessToken, jwt.ParseWithClaims. simpl.
  rewrite Hpub, (Hlaw _ _ _ _ _ _ _ Hs Hne). reflexivity.
Qed.

End AccessToken.

Lemma method_eqb_eq (a b : SigningMethod) : Sample.method_eqb a b = true -> a = b.
Proof.
  destruct a as [[]|[]|[]|[]| |], b as [[]|[]|[]|[]| |]; simpl;
    intros H; first [reflexivity | discriminate H].
Qed.

Lemma option_Z_eqb_eq (a b : option Z) : option_eqb Z.eqb a b = true -> a = b.
Proof.
  destruct a, b; simpl; intros H; try discriminate; [|reflexivity].
  apply Z.eqb_eq in H. now subst.
Qed.

Lemma claims_eqb_eq (a b : Claims) : Sample.claims_eqb a b = true -> a = b.
Proof.
  unfold Sample.claims_eqb. intros H.
  repeat (apply andb_true_iff in H; destruct H as [H ?]).
  destruct a, b; simpl in *.
  apply N.eqb_eq in H.
  repeat match goal with
  | X : String.eqb _ _ = true |- _ => apply String.eqb_eq in X
  | X : option_eqb Z.eqb _ _ = true |- _ => apply option_Z_eqb_eq in X
  end.
  now subst.
Qed.

Lemma toy_signatures_name_their_message : @signatures_name_their_message Sample.toy.
Proof.
  intros m m' k pk [sm sc] [sm' sc'] sig H Hne. simpl in H.
  inversion H; subst; clear H. simpl.
  destruct (Sample.method_eqb sm sm') eqn:M;
    [|now rewrite andb_false_r].
  destruct (Sample.claims_eqb sc sc') eqn:C; [|now rewrite andb_false_r].
  apply method_eqb_eq in M. apply claims_eqb_eq in C. subst. congruence.
Qed.

Lemma access_token_lifetime_witness :
  exists pair,
    fst Sample.issued = Ok pair /\
    @jwt.ValidateAccessToken Sample.toy (999 * time.Second) (AccessToken_ pair) 7%nat
      = Ok (issued_claims Sample.cfg (Sample.world 100 x01 20%N) Sample.alice) /\
    @jwt.ValidateAccessToken Sample.toy (1000 * time.Second) (AccessToken_ pair) 7%nat
      = Err jwt_ErrTokenExpired.
Proof.
  destruct Sample.issued as [[pair|e] db1] eqn:E; [|vm_compute in E; discriminate].
  exists pair. split; [reflexivity|]. unfold Sample.issued in E.
  split.
  - apply (proj1 (@access_token_lifetime Sample.toy Sample.cfg
                    (Sample.world 100 x01 20%N) Sample.alice Sample.db0 db1 pair (999 * time.Second)
                    toy_signatures_verify eq_refl E)).
    vm_compute. reflexivity.
  - apply (proj2 (@access_token_lifetime Sample.toy Sample.cfg
                    (Sample.world 100 x01 20%N) Sample.alice Sample.db0 db1 pair (1000 * time.Second)
                    toy_signatures_verify eq_refl E)).
    vm_compute. discriminate.
Defined.

Lemma altered_token_is_refused_witness :
  exists pair e,
    fst Sample.issued = Ok pair /\
    @jwt.ValidateAccessToken Sample.toy (500 * time.Second)
      (@jwt.Build_Token Sample.toy SigningMethodRS256
         (issued_claims Sample.cfg (Sample.world 100 x01 20%N) Cases.root)
         (jwt.Signature_ (AccessToken_ pair))) 7%nat = Err e.
Proof.
  destruct Sample.issued as [[pair|e] db1] eqn:E; [|vm_compute in E; discriminate].
  unfold Sample.issued in E.
  destruct (@altered_token_is_refused Sample.toy Sample.cfg
              (Sample.world 100 x01 20%N) Sample.alice Sample.db0 db1 pair (500 * time.Second)
              SigningMethodRS256
              (issued_claims Sample.cfg (Sample.world 100 x01 20%N) Cases.root)
              7%nat toy_signatures_name_their_message E) as [e He].
  - vm_compute in E. inversion E; subst; clear E. simpl. discriminate.
  - exists pair, e. split; [reflexivity | exact He].
Defined.

Lemma mismatched_keys_refuse_own_tokens_witness :
  exists pair db',
    @auth.GenerateTokens Sample.toy Cases.mismatched (Sample.world 100 x01 20%N)
      Sample.alice Sample.db0 = (Ok pair, db') /\
    @jwt.ValidateAccessToken Sample.toy (500 * time.Second) (AccessToken_ pair) 8%nat
      = Err jwt_ErrTokenSignatureInvalid.
Proof.
  destruct (@auth.GenerateTokens Sample.toy Cases.mismatched
              (Sample.world 100 x01 20%N) Sample.alice Sample.db0)
    as [[pair|e] db'] eqn:E; [|vm_compute in E; discriminate].
  exists pair, db'. split; [reflexivity|].
  apply (@mismatched_keys_refuse_own_tokens Sample.toy Cases.mismatched
           (Sample.world 100 x01 20%N) 8%nat Sample.alice Sample.db0 db' pair (500 * time.Second)
           toy_signatures_name_their_key eq_refl); [discriminate | exact E].
Defined.


(** ** Rotation, issue and logout together *)
Section Sessions.
Context {L : Libraries}.
Variable cfg : Config.


(** X10.  A successful rotation is for the owner of the presented record:
    the new access token carries the claims of the owner's row as it is
    now (subject, and the current email, name and role), the rows of the
    presented record's id are revoked at this instant, one row is added
    for the same owner, and the users and the audit log are untouched. *)
Theorem rotation_stays_with_owner
    (w : World) (raw : string) (db db1 : DB) (pair : auth.TokenPair) :
  auth.RefreshAccessToken cfg w raw db = (Ok pair, db1) ->
  exists tokenRecord owner hash,
    candidate w raw db = Some tokenRecord /\
    In owner (users db) /\ u_ID owner = rt_UserID tokenRecord /\
    jwt.Claims_ (AccessToken_ pair) = issued_claims cfg w owner /\
    refresh_tokens db1 =
      (map (revoke w (rt_ID tokenRecord)) (refresh_tokens db)
       ++ [issued_row cfg w owner hash])%list /\
    users db1 = users db /\ auth_audit_log db1 = auth_audit_log db.
Proof.
  intros H. apply RefreshAccessToken_Ok in H.
  destruct H as [t [owner [Hc [Hin [Hid [_ Hgen]]]]]].
  apply GenerateTokens_Ok in Hgen.
  destruct Hgen as [sig [b [hash [_ [_ [_ [_ [-> ->]]]]]]]].
  exists t, owner, hash. simpl. auto 10.
Qed.


(** Once the rows of an id are all revoked, a raw value that answers to a
    record of that id, and to none of another id, has no candidate in any
    later store. *)
Lemma revoked_record_has_no_candidate
    (w' : World) (raw : string) (dbr db2 : DB) (r : RefreshToken) :
  In r (refresh_tokens dbr) -> accepts raw r ->
  all_revoked (rt_ID r) dbr ->
  later_table (refresh_tokens dbr) (refresh_tokens db2) ->
  single_match raw db2 ->
  candidate w' raw db2 = None.
Proof.
  intros Hin Hacc Hall Hl Hsingle.
  assert (Hall2 : all_revoked (rt_ID r) db2).
  { eapply all_revoked_later; [exact Hl | now apply in_map | exact Hall]. }
  destruct (later_table_In _ _ _ Hl Hin) as [r2 [Hin2 [Hid2 [_ [Hhash2 _]]]]].
  assert (Hacc2 : accepts raw r2) by (unfold accepts in *; now rewrite Hhash2).
  destruct (candidate w' raw db2) as [t|] eqn:C; [|reflexivity].
  exfalso. apply candidate_Some in C. destruct C as [Hint [Hv Hacct]].
  assert (Hidt : rt_ID t = rt_ID r).
  { rewrite (Hsingle t r2 Hint Hin2 Hacct Hacc2). exact Hid2. }
  pose proof (Hall2 t Hint Hidt) as Hrev. unfold revoked in Hrev.
  unfold valid in Hv. rewrite Hrev in Hv. discriminate.
Qed.

(** X12.  Logout ends the session: when [Logout] finds the record of the
    cookie and the store answers, then, whatever calls follow, a refresh
    with the same cookie is answered 401, sets no cookie and leaves the
    store as it is.  Premise: the raw value answers to one stored record
    only. *)
Theorem Logout_ends_the_session
    (w w' : World) (r r' : handlers.Request) (raw : string) (db : DB)
    (tokenRecord : RefreshToken) (calls : list (World * Call)) :
  handlers.Cookie_ r "refresh_token" = Some raw ->
  handlers.Cookie_ r' "refresh_token" = Some raw ->
  candidate w raw db = Some tokenRecord ->
  rt_ID tokenRecord <> uuid_Nil ->
  fails w SelectValidRefreshTokens = false ->
  fails w RevokeRefreshTokenByID = false ->
  single_match raw (run cfg calls (snd (handlers.Logout cfg w r db))) ->
  handlers.RefreshToken cfg w' r' (run cfg calls (snd (handlers.Logout cfg w r db)))
  = (handlers.http_Error []
       (handlers.TextWithError "Failed to refresh token: "
          (if fails w' SelectValidRefreshTokens
           then Errorf_w "failed to query refresh tokens" pgx_failure
           else auth.ErrInvalidRefreshToken))
       handlers.StatusUnauthorized,
     run cfg calls (snd (handlers.Logout cfg w r db))).
Proof.
  intros Hc Hc' Hcand Hnil Hq Hr Hsingle.
  set (db1 := snd (handlers.Logout cfg w r db)) in *.
  assert (Htok : refresh_tokens db1
                 = refresh_tokens (revoked_in w (rt_ID tokenRecord) db)).
  { unfold db1, handlers.Logout. rewrite Hc. simpl.
    rewrite RevokeRefreshToken_unfold, Hq, Hcand.
    apply N.eqb_neq in Hnil. rewrite Hnil, Hr. simpl.
    destruct (handlers.ctx_UserID r); [apply LogAuthEvent_tokens | reflexivity]. }
  pose proof (candidate_Some w raw db tokenRecord Hcand) as [Hin [_ Hacc]].
  assert (Hnone : candidate w' raw (run cfg calls db1) = None).
  { apply (revoked_record_has_no_candidate w' raw
             (revoked_in w (rt_ID tokenRecord) db) (run cfg calls db1)
             (revoke w (rt_ID tokenRecord) tokenRecord)).
    - simpl. now apply in_map.
    - unfold accepts, revoke in *. destruct (N.eqb _ _); exact Hacc.
    - assert (E : rt_ID (revoke w (rt_ID tokenRecord) tokenRecord) = rt_ID tokenRecord)
        by (unfold revoke; destruct (N.eqb _ _); reflexivity).
      rewrite E. apply revoked_in_all_revoked.
    - rewrite <- Htok. apply run_later.
    - exact Hsingle. }
  unfold handlers.RefreshToken. rewrite Hc', RefreshAccessToken_unfold, Hnone.
  destruct (fails w' SelectValidRefreshTokens); reflexivity.
Qed.

End Sessions.

Lemma rotation_stays_with_owner_witness :
  exists pair db1,
    @auth.RefreshAccessToken Sample.toy Sample.cfg (Sample.world 100 x01 20%N)
      Sample.raw0 Sample.db0 = (Ok pair, db1) /\
    UserID (jwt.Claims_ (AccessToken_ pair)) = 1%N /\
    map rt_UserID (refresh_tokens db1) = [1%N; 2%N; 1%N].
Proof.
  destruct (@auth.RefreshAccessToken Sample.toy Sample.cfg (Sample.world 100 x01 20%N)
              Sample.raw0 Sample.db0) as [[pair|e] db1] eqn:E;
    [|vm_compute in E; discriminate].
  exists pair, db1. split; [reflexivity|].
  destruct (@rotation_stays_with_owner Sample.toy Sample.cfg
              (Sample.world 100 x01 20%N) Sample.raw0 Sample.db0 db1 pair E)
    as [t [owner [hash [Hc [_ [Hid [Hcl [Htok _]]]]]]]].
  vm_compute in Hc. inversion Hc; subst t; clear Hc.
  rewrite Hcl, Htok. simpl. rewrite Hid. split; reflexivity.
Defined.


Lemma Logout_ends_the_session_witness :
  let w := Sample.world 100 x01 20%N in
  let r := Sample.request "" (Some Sample.raw0) in
  handlers.StatusCode
    (fst (@handlers.RefreshToken Sample.toy Sample.cfg (Sample.world 200 x02 21%N) r
            (snd (@handlers.Logout Sample.toy Sample.cfg w r Sample.db0))))
  = handlers.StatusUnauthorized.
Proof.
  intros w r.
  pose proof (@Logout_ends_the_session Sample.toy Sample.cfg w
                (Sample.world 200 x02 21%N) r r Sample.raw0 Sample.db0
                Sample.token0 [] eq_refl eq_refl eq_refl) as H.
  unfold run in H. cbn [fold_left] in H. rewrite H; [reflexivity | discriminate | reflexivity | reflexivity |].
  intros t t' Hin Hin' Hacc Hacc'. vm_compute in Hin, Hin'.
  repeat match goal with X : _ \/ _ |- _ => destruct X end;
    try contradiction; subst; vm_compute in Hacc, Hacc';
    try discriminate; reflexivity.
Defined.


(** ** Reconciliation, further *)
Section Users.
Context {L : Libraries}.
Variable cfg : Config.

Lemma find_all_false {A} (f : A -> bool) (l : list A) :
  (forall x, In x l -> f x = false) -> find f l = None.
Proof.
  induction l as [|x l IH]; intros H; simpl; [reflexivity|].
  rewrite (H x (or_introl eq_refl)). apply IH. intros y Hy. apply H. now right.
Qed.

Lemma find_by_id_unique (l : list User) (x : User) :
  NoDup (map u_ID l) -> In x l ->
  find (fun u => N.eqb (u_ID u) (u_ID x)) l = Some x.
Proof.
  induction l as [|y l IH]; intros Hnd Hin; [destruct Hin|].
  simpl in *. inversion Hnd as [|? ? Hny Hnd']; subst.
  destruct Hin as [->|Hin].
  - now rewrite N.eqb_refl.
  - destruct (N.eqb (u_ID y) (u_ID x)) eqn:E.
    + apply N.eqb_eq in E. exfalso. apply Hny. rewrite E. now apply in_map.
    + now apply IH.
Qed.

(** With no live row for the subject id, a row that holds the email or the
    subject id makes the insertion, and the reconciliation, fail. *)
Lemma CreateOrUpdateUser_clash (w : World) (info : GoogleUserInfo) (db : DB) :
  fails w SelectUserByGoogleID = false ->
  stored_user (g_ID info) db = None ->
  (exists u, In u (users db) /\
             (u_Email u = g_Email info \/ u_GoogleID u = Some (g_ID info))) ->
  auth.CreateOrUpdateUser cfg w info db
    = (Err (Errorf_w "failed to create user" pgx_failure), db).
Proof.
  intros Hq Hnone [u [Hin Hu]]. unfold stored_user in Hnone.
  unfold auth.CreateOrUpdateUser, select_user_by_google_id.
  rewrite Hq, Hnone. unfold wrap, insert_user.
  assert (E : existsb (fun u => N.eqb (u_ID u) (gen_random_uuid w)
                                || String.eqb (u_Email u) (g_Email info)
                                || option_eqb String.eqb (u_GoogleID u)
                                     (Some (g_ID info))) (users db) = true).
  { apply existsb_exists. exists u. split; [assumption|].
    destruct Hu as [->| ->]; simpl.
    - rewrite String.eqb_refl. now rewrite orb_true_r.
    - rewrite String.eqb_refl. now rewrite orb_true_r. }
  simpl. rewrite E, orb_true_r. reflexivity.
Qed.

(** X13.  The first login of an identity creates an active user from the
    identity (email, subject id, name, picture), appended to the table,
    when the store accepts the row.  The store refuses the row, and the
    login fails with "failed to create user", whenever a row of any state,
    soft-deleted ones included, already holds the email or the subject
    id. *)
Theorem first_login_creates_user (w : World) (info : GoogleUserInfo) (db : DB) :
  fails w SelectUserByGoogleID = false ->
  stored_user (g_ID info) db = None ->
  let row :=
    {| u_ID := gen_random_uuid w; u_Email := g_Email info;
       u_GoogleID := Some (g_ID info); u_Name := g_Name info;
       u_AvatarURL := Some (g_Picture info);
       u_Role := if auth.inAdminEmails cfg (g_Email info)
                 then RoleAdmin else RoleUser;
       u_IsActive := true; u_CreatedAt := now w; u_UpdatedAt := now w;
       u_DeletedAt := None |} in
  (fails w InsertUser = false ->
   (forall u, In u (users db) ->
      u_ID u <> gen_random_uuid w /\ u_Email u <> g_Email info /\
      u_GoogleID u <> Some (g_ID info)) ->
   auth.CreateOrUpdateUser cfg w info db
     = (Ok row, set_users (users db ++ [row]) db)) /\
  ((exists u, In u (users db) /\
              (u_Email u = g_Email info \/ u_GoogleID u = Some (g_ID info))) ->
   auth.CreateOrUpdateUser cfg w info db
     = (Err (Errorf_w "failed to create user" pgx_failure), db)).
Proof.
  intros Hq Hnone row. unfold stored_user in Hnone.
  unfold auth.CreateOrUpdateUser, select_user_by_google_id.
  rewrite Hq, Hnone. unfold wrap, insert_user. split.
  - intros Hi Hfree. rewrite Hi. simpl orb.
    assert (E : existsb (fun u => N.eqb (u_ID u) (gen_random_uuid w)
                                  || String.eqb (u_Email u) (g_Email info)
                                  || option_eqb String.eqb (u_GoogleID u)
                                       (Some (g_ID info))) (users db) = false).
    { destruct (existsb _ _) eqn:X; [|reflexivity].
      apply existsb_exists in X. destruct X as [u [Hin Hu]].
      destruct (Hfree u Hin) as [H1 [H2 H3]].
      apply orb_true_iff in Hu. destruct Hu as [Hu|Hu].
      - apply orb_true_iff in Hu. destruct Hu as [Hu|Hu].
        + apply N.eqb_eq in Hu. contradiction.
        + apply String.eqb_eq in Hu. contradiction.
      - destruct (u_GoogleID u) as [g|]; simpl in Hu; [|discriminate].
        apply String.eqb_eq in Hu. subst. exfalso. now apply H3. }
    simpl. rewrite E. reflexivity.
  - intros Hclash. fold (stored_user (g_ID info) db) in Hnone.
    pose proof (CreateOrUpdateUser_clash w info db Hq Hnone Hclash) as H.
    unfold auth.CreateOrUpdateUser, select_user_by_google_id, stored_user in H, Hnone.
    rewrite Hq, Hnone in H. exact H.
Qed.

(** X14.  A later login of a stored user refreshes the name and the
    picture from the identity and nothing else but the role upgrade and
    the update time: the email stays the stored one even when the
    identity's has changed, and the active flag, the subject id and the
    creation time stay; the table keeps its length, and the rows of other
    ids are as before.  Premise: ids are unique, as the primary key
    has it. *)
Theorem login_refreshes_profile
    (w : World) (info : GoogleUserInfo) (db : DB) (existing : User) :
  fails w SelectUserByGoogleID = false -> fails w UpdateUser = false ->
  NoDup (map u_ID (users db)) ->
  stored_user (g_ID info) db = Some existing ->
  exists user db',
    auth.CreateOrUpdateUser cfg w info db = (Ok user, db') /\
    u_ID user = u_ID existing /\ u_Email user = u_Email existing /\
    u_GoogleID user = u_GoogleID existing /\
    u_IsActive user = u_IsActive existing /\
    u_CreatedAt user = u_CreatedAt existing /\
    u_DeletedAt user = u_DeletedAt existing /\
    u_Name user = g_Name info /\ u_AvatarURL user = Some (g_Picture info) /\
    u_UpdatedAt user = now w /\
    In user (users db') /\
    List.length (users db') = List.length (users db) /\
    (forall v, In v (users db) -> u_ID v <> u_ID existing -> In v (users db')) /\
    refresh_tokens db' = refresh_tokens db.
Proof.
  intros Hq Hu Hnd Hs. unfold stored_user in Hs.
  pose proof (find_some _ _ Hs) as [Hin _].
  unfold auth.CreateOrUpdateUser, select_user_by_google_id.
  rewrite Hq, Hs. unfold wrap, update_user. rewrite Hu.
  rewrite (find_by_id_unique _ _ Hnd Hin), N.eqb_refl.
  eexists. eexists. split; [reflexivity|]. simpl.
  repeat split.
  - apply in_map_iff. exists existing. rewrite N.eqb_refl. auto.
  - apply List.length_map.
  - intros v Hv Hne. apply in_map_iff. exists v.
    apply N.eqb_neq in Hne. rewrite Hne. auto.
Qed.

End Users.

Section DeletedUsers.
Context {L : Libraries}.
Variable cfg : Config.

(** X15.  A soft delete is final for the identity.  After [DeleteUser]
    answered 200 for the user of a Google subject id, every later
    reconciliation of that identity fails with "failed to create user":
    the lookup skips the deleted row, and the insertion runs into the
    subject id the deleted row still holds.  Premise: the subject id
    belongs to rows of this user id only, as UNIQUE(google_id) has it. *)
Theorem deleted_user_cannot_return
    (w w2 : World) (failing : administration.Statement -> bool)
    (id : UUID) (info : GoogleUserInfo) (db : DB) (u : User) :
  administration.StatusCode
    (fst (administration.DeleteUser w failing (Some id) db)) = handlers.StatusOK ->
  In u (users db) -> u_GoogleID u = Some (g_ID info) ->
  (forall v, In v (users db) -> u_GoogleID v = Some (g_ID info) -> u_ID v = id) ->
  fails w2 SelectUserByGoogleID = false ->
  auth.CreateOrUpdateUser cfg w2 info
    (snd (administration.DeleteUser w failing (Some id) db))
  = (Err (Errorf_w "failed to create user" pgx_failure),
     snd (administration.DeleteUser w failing (Some id) db)).
Proof.
  unfold administration.DeleteUser.
  destruct (failing administration.SoftDeleteUser); [discriminate|].
  destruct (Nat.eqb _ 0); [discriminate|]. simpl fst. simpl snd.
  intros _ Hin Hg Hown Hq.
  set (upd := fun u0 : User => if administration.hit id u0 then _ else u0).
  set (db1 := set_users (map upd (users db)) db).
  assert (Hgid : forall v, u_GoogleID (upd v) = u_GoogleID v).
  { intros v. unfold upd. destruct (administration.hit id v); reflexivity. }
  apply CreateOrUpdateUser_clash; [exact Hq | |].
  - unfold stored_user. apply find_all_false. intros x Hx.
    simpl in Hx. apply in_map_iff in Hx. destruct Hx as [v [<- Hv]].
    rewrite Hgid.
    destruct (option_eqb String.eqb (u_GoogleID v) (Some (g_ID info))) eqn:G;
      [|reflexivity].
    assert (Hgv : u_GoogleID v = Some (g_ID info)).
    { destruct (u_GoogleID v) as [g|]; simpl in G; [|discriminate].
      apply String.eqb_eq in G. now subst. }
    pose proof (Hown v Hv Hgv) as Hid. simpl. unfold upd, administration.hit.
    rewrite Hid, N.eqb_refl. simpl.
    unfold administration.live. destruct (is_null (u_DeletedAt v)) eqn:D; simpl.
    + reflexivity.
    + exact D.
  - exists (upd u). split; [simpl; now apply in_map|].
    right. now rewrite Hgid.
Qed.

End DeletedUsers.

Lemma first_login_creates_user_witness :
  exists row db',
    @auth.CreateOrUpdateUser Sample.toy Sample.cfg (Sample.world 100 x01 3%N)
      Cases.carol_identity Sample.db0 = (Ok row, db') /\
    u_Email row = "carol@example.com" /\ u_IsActive row = true /\
    List.length (users db') = 3%nat.
Proof.
  eexists. eexists. split.
  - apply (proj1 (@first_login_creates_user Sample.toy Sample.cfg
                    (Sample.world 100 x01 3%N) Cases.carol_identity Sample.db0
                    eq_refl eq_refl)); [reflexivity|].
    intros u Hin. simpl in Hin. destruct Hin as [<-|[<-|[]]];
      repeat split; discriminate.
  - repeat split.
Defined.

Lemma login_refreshes_profile_witness :
  exists user db',
    @auth.CreateOrUpdateUser Sample.toy Sample.cfg (Sample.world 100 x01 3%N)
      Cases.alice_moved Sample.db0 = (Ok user, db') /\
    u_Email user = "alice@example.com" /\ u_Name user = "Alice A.".
Proof.
  destruct (@login_refreshes_profile Sample.toy Sample.cfg (Sample.world 100 x01 3%N)
              Cases.alice_moved Sample.db0 Sample.alice eq_refl eq_refl)
    as [user [db' [E [_ [Hmail [_ [_ [_ [_ [Hname _]]]]]]]]]].
  - simpl. repeat constructor; simpl; intuition discriminate.
  - reflexivity.
  - exists user, db'. auto.
Defined.

Lemma deleted_user_cannot_return_witness :
  let db1 := snd (administration.DeleteUser (Sample.world 100 x01 3%N)
                    Cases.answering (Some 1%N) Sample.db0) in
  @auth.CreateOrUpdateUser Sample.toy Sample.cfg (Sample.world 200 x02 4%N)
    Sample.alice_identity db1
  = (Err (Errorf_w "failed to create user" pgx_failure), db1).
Proof.
  intros db1.
  apply (@deleted_user_cannot_return Sample.toy Sample.cfg (Sample.world 100 x01 3%N)
           (Sample.world 200 x02 4%N) Cases.answering 1%N Sample.alice_identity
           Sample.db0 Sample.alice); try reflexivity.
  - now left.
  - intros v Hin Hg. simpl in Hin. destruct Hin as [<-|[<-|[]]];
      [reflexivity | discriminate Hg].
Defined.


(** ** The login flow *)
Section LoginFlow.
Context {L : Libraries}.
Variable cfg : Config.

(** X16.  The callback goes no further than the state check unless the
    state parameter equals the oauth_state cookie: with the cookie absent
    or different, it answers 400, sets no cookie and leaves the store as it
    is, whatever Google would have answered to the code. *)
Theorem callback_checks_state (r : handlers.Request) (db : DB) :
  (handlers.Cookie_ r "oauth_state" = None \/
   exists state, handlers.Cookie_ r "oauth_state" = Some state /\
                 handlers.Query_Get r "state" <> state) ->
  exists msg,
    forall w, handlers.GoogleCallback cfg w r db =
              (handlers.http_Error [] (handlers.Text msg) handlers.StatusBadRequest,
               db).
Proof.
  unfold handlers.GoogleCallback. intros [H | [state [H Hne]]]; rewrite H.
  - eexists. intros w. reflexivity.
  - apply String.eqb_neq in Hne. rewrite Hne. eexists. intros w. reflexivity.
Qed.

(** What a callback that redirects has gone through. *)
Lemma GoogleCallback_redirects
    (w : World) (r : handlers.Request) (db db' : DB) (resp : handlers.Response) :
  handlers.GoogleCallback cfg w r db = (resp, db') ->
  handlers.StatusCode resp = handlers.StatusTemporaryRedirect ->
  exists state target info user db1 pair db2,
    handlers.Cookie_ r "oauth_state" = Some state /\
    handlers.Query_Get r "state" = state /\
    handlers.Cookie_ r "oauth_redirect" = Some target /\
    handlers.Query_Get r "code" <> EmptyString /\
    google w = Ok info /\
    auth.CreateOrUpdateUser cfg w info db = (Ok user, db1) /\
    u_IsActive user = true /\
    auth.GenerateTokens cfg w user db1 = (Ok pair, db2) /\
    db' = auth.LogAuthEvent w (Some (u_ID user)) "LOGIN"
            (handlers.RemoteAddr r) (handlers.UserAgent r) db2 /\
    resp = handlers.http_Redirect
             [handlers.clearCookie w "oauth_state";
              handlers.clearCookie w "oauth_redirect";
              handlers.refreshCookie cfg w (RefreshToken_ pair)]
             (handlers.AuthCallback target (AccessToken_ pair))
             handlers.StatusTemporaryRedirect.
Proof.
  unfold handlers.GoogleCallback, auth.ExchangeGoogleCode, lift.
  destruct (handlers.Cookie_ r "oauth_state") as [state|];
    [|intros H; inversion H; subst; discriminate].
  destruct (String.eqb (handlers.Query_Get r "state") state) eqn:Es; simpl;
    [|intros H; inversion H; subst; discriminate].
  destruct (handlers.Cookie_ r "oauth_redirect") as [target|];
    [|intros H; inversion H; subst; discriminate].
  destruct (String.eqb (handlers.Query_Get r "code") "") eqn:Ec;
    [intros H; inversion H; subst; discriminate|].
  destruct (google w) as [info|e]; [|intros H; inversion H; subst; discriminate].
  destruct (auth.CreateOrUpdateUser cfg w info db) as [[user|e] db1] eqn:Ecu;
    [|intros H; inversion H; subst; discriminate].
  destruct (u_IsActive user) eqn:Ea; simpl;
    [|intros H; inversion H; subst; discriminate].
  destruct (auth.GenerateTokens cfg w user db1) as [[pair|e] db2] eqn:Egt;
    [|intros H; inversion H; subst; discriminate].
  intros H _. inversion H; subst; clear H.
  apply String.eqb_eq in Es. apply String.eqb_neq in Ec.
  exists state, target, info, user, db1, pair, db2.
  repeat (split; [first [assumption | reflexivity]|]). reflexivity.
Qed.

Lemma list_ascii_of_string_app (a b : string) :
  list_ascii_of_string (a ++ b) = (list_ascii_of_string a ++ list_ascii_of_string b)%list.
Proof. induction a as [|c a IH]; simpl; [reflexivity | now rewrite IH]. Qed.

Lemma string_of_list_ascii_app (a b : list ascii) :
  string_of_list_ascii (a ++ b)%list
  = (string_of_list_ascii a ++ string_of_list_ascii b)%string.
Proof. induction a as [|c a IH]; simpl; [reflexivity | now rewrite IH]. Qed.

Lemma sanitizeOrWarn_app (valid : ascii -> bool) (a b : string) :
  http.sanitizeOrWarn valid (a ++ b)
  = (http.sanitizeOrWarn valid a ++ http.sanitizeOrWarn valid b)%string.
Proof.
  unfold http.sanitizeOrWarn.
  now rewrite list_ascii_of_string_app, filter_app, string_of_list_ascii_app.
Qed.

Lemma sanitizeOrWarn_safe (s : string) :
  cookie_safe s -> http.sanitizeOrWarn http.validCookieValueByte s = s.
Proof.
  unfold cookie_safe, http.sanitizeOrWarn. intros H.
  rewrite <- (string_of_list_ascii_of_string s) at 2. f_equal.
  induction (list_ascii_of_string s) as [|c l IH]; [reflexivity|].
  simpl in H |- *. apply andb_true_iff in H. destruct H as [Hc Hl].
  rewrite Hc. f_equal. now apply IH.
Qed.

Lemma filter_forallb {A} (f : A -> bool) (l : list A) :
  forallb f (filter f l) = true.
Proof.
  induction l as [|x l IH]; [reflexivity|]. simpl.
  destruct (f x) eqn:E; [simpl; now rewrite E | exact IH].
Qed.

(** What comes back of a cookie value: the value without the bytes a
    cookie value may not hold. *)
Lemma parse_sanitize (v : string) :
  http.parseCookieValue (http.sanitizeCookieValue v)
  = Some (http.sanitizeOrWarn http.validCookieValueByte v).
Proof.
  unfold http.sanitizeCookieValue, http.sanitizeOrWarn.
  set (kept := filter http.validCookieValueByte (list_ascii_of_string v)).
  assert (Hvalid : forallb http.validCookieValueByte kept = true)
    by apply filter_forallb.
  rewrite list_ascii_of_string_of_list_ascii.
  destruct kept as [|c rest] eqn:K; [reflexivity|].
  change (String.length (string_of_list_ascii (c :: rest)) =? 0)%nat with false.
  cbv iota.
  assert (Hc : Ascii.eqb c http.DQUOTE = false).
  { simpl in Hvalid. apply andb_true_iff in Hvalid. destruct Hvalid as [Hv _].
    destruct (Ascii.eqb c http.DQUOTE) eqn:E; [|reflexivity].
    apply Ascii.eqb_eq in E. subst c. discriminate Hv. }
  destruct (existsb _ (c :: rest)).
  - unfold http.parseCookieValue.
    change (list_ascii_of_string
              (String http.DQUOTE
                 (string_of_list_ascii (c :: rest) ++ String http.DQUOTE "")))
      with (http.DQUOTE :: list_ascii_of_string
              (string_of_list_ascii (c :: rest) ++ String http.DQUOTE "")).
    rewrite list_ascii_of_string_app, list_ascii_of_string_of_list_ascii.
    change (list_ascii_of_string (String http.DQUOTE ""))
      with [http.DQUOTE].
    cbn [hd tl]. rewrite Ascii.eqb_refl.
    change (http.DQUOTE :: (c :: rest) ++ [http.DQUOTE])%list
      with ((http.DQUOTE :: c :: rest) ++ [http.DQUOTE])%list.
    rewrite last_last, Ascii.eqb_refl, removelast_last.
    replace (1 <? List.length ((http.DQUOTE :: c :: rest) ++ [http.DQUOTE]))%nat
      with true
      by (symmetry; apply Nat.ltb_lt; rewrite length_app; simpl; lia).
    cbn [andb]. now rewrite Hvalid.
  - unfold http.parseCookieValue.
    rewrite list_ascii_of_string_of_list_ascii. cbn [hd].
    rewrite Hc, andb_false_r. cbn [andb]. now rewrite Hvalid.
Qed.

(** X17.  A login that starts at [GoogleLogin] ends where the
    configuration allows.  When the callback request carries the cookies
    [GoogleLogin] set, a callback that redirects does so to the target
    [GoogleLogin] accepted, less the bytes a cookie value may not hold;
    and when every allowed origin is made of bytes a cookie value may
    hold, that target is allowed.  The callback itself does not look at
    the list; it takes the target from the cookie. *)
Theorem login_returns_to_allowed_target
    (w w2 : World) (r r2 : handlers.Request) (resp : handlers.Response)
    (db : DB) (target : string) (accessToken : jwt.Token) :
  handlers.GoogleLogin cfg w r = Some resp ->
  handlers.StatusCode resp = handlers.StatusTemporaryRedirect ->
  carries r2 resp ->
  handlers.Location (fst (handlers.GoogleCallback cfg w2 r2 db))
    = Some (handlers.AuthCallback target accessToken) ->
  (exists accepted,
     allowed_target cfg accepted /\
     target = http.sanitizeOrWarn http.validCookieValueByte accepted) /\
  ((forall origin, In origin (AllowedOrigins cfg) -> cookie_safe origin) ->
   allowed_target cfg target).
Proof.
  intros Hlogin Hstatus Hcarries Hloc.
  assert (Hcookie : exists t, handlers.validRedirect cfg t = true /\
                              handlers.Cookie_ r2 "oauth_redirect"
                              = Some (http.sanitizeOrWarn
                                        http.validCookieValueByte t)).
  { unfold handlers.GoogleLogin in Hlogin.
    destruct (if String.eqb (handlers.Query_Get r "redirect_uri") ""
              then nth_error (AllowedOrigins cfg) 0
              else Some (handlers.Query_Get r "redirect_uri")) as [t|];
      [|discriminate].
    destruct (handlers.validRedirect cfg t) eqn:V; simpl in Hlogin.
    - inversion Hlogin; subst resp; clear Hlogin.
      exists t. split; [exact V|].
      unfold carries in Hcarries. simpl in Hcarries.
      specialize (Hcarries _ (or_intror (or_introl eq_refl))).
      cbn [handlers.c_Name handlers.c_Value] in Hcarries.
      now rewrite parse_sanitize in Hcarries.
    - inversion Hlogin; subst resp. discriminate. }
  destruct Hcookie as [t [V Hc]].
  destruct (handlers.GoogleCallback cfg w2 r2 db) as [resp2 db'] eqn:E.
  simpl in Hloc.
  assert (Hs : handlers.StatusCode resp2 = handlers.StatusTemporaryRedirect).
  { revert E. unfold handlers.GoogleCallback, auth.ExchangeGoogleCode, lift.
    repeat match goal with
    | |- context [match ?x with _ => _ end] =>
        match x with
        | handlers.Cookie_ _ _ => destruct x
        | google _ => destruct x
        | auth.CreateOrUpdateUser _ _ _ _ => destruct x as [[?|?] ?]
        | auth.GenerateTokens _ _ _ _ => destruct x as [[?|?] ?]
        end
    | |- context [if ?x then _ else _] => destruct x
    end; intros E; inversion E; subst; try discriminate; reflexivity. }
  destruct (GoogleCallback_redirects w2 r2 db db' resp2 E Hs)
    as [state [target' [info [user [db1 [pair [db2 [_ [_ [Ht [_ [_ [_ [_ [_ [_ ->]]]]]]]]]]]]]]]].
  simpl in Hloc. inversion Hloc; subst.
  rewrite Hc in Ht. inversion Ht; subst.
  apply validRedirect_iff in V.
  split; [exists t; split; [exact V | reflexivity]|].
  intros Hsafe. destruct V as [origin [Hin [->|[path ->]]]].
  - rewrite sanitizeOrWarn_safe by now apply Hsafe.
    exists origin. split; [exact Hin | now left].
  - rewrite !sanitizeOrWarn_app, (sanitizeOrWarn_safe origin) by now apply Hsafe.
    exists origin. split; [exact Hin|]. right.
    exists (http.sanitizeOrWarn http.validCookieValueByte path). reflexivity.
Qed.

(** X18.  A login that succeeds hands out exactly what it stored.  The
    redirect goes to the target of the oauth_redirect cookie and carries
    an access token that validates, until its expiry, with the claims of
    an active user; the refresh_token cookie is HttpOnly, SameSite=Strict
    and holds the raw value; the refresh-token table gains one row, for
    that user. *)
Theorem login_success
    (w : World) (r : handlers.Request) (db db' : DB) (resp : handlers.Response) :
  signatures_verify ->
  JWTPublicKey cfg = Public (JWTPrivateKey cfg) ->
  handlers.GoogleCallback cfg w r db = (resp, db') ->
  handlers.StatusCode resp = handlers.StatusTemporaryRedirect ->
  exists user pair target hash,
    u_IsActive user = true /\
    handlers.Cookie_ r "oauth_redirect" = Some target /\
    handlers.Location resp
      = Some (handlers.AuthCallback target (AccessToken_ pair)) /\
    (forall t, t < access_expiry cfg w ->
       jwt.ValidateAccessToken t (AccessToken_ pair) (JWTPublicKey cfg)
         = Ok (issued_claims cfg w user)) /\
    In {| handlers.c_Name := "refresh_token";
          handlers.c_Value := RefreshToken_ pair;
          handlers.c_Expires := Add (now w) (JWTRefreshTokenExpiry cfg);
          handlers.c_HttpOnly := true;
          handlers.c_Secure := handlers.production cfg;
          handlers.c_SameSite := handlers.SameSiteStrictMode;
          handlers.c_Path := "/" |} (handlers.SetCookie resp) /\
    GenerateFromPassword (bcrypt_salt w) (RefreshToken_ pair) jwt.DefaultCost
      = Some hash /\
    refresh_tokens db'
      = (refresh_tokens db ++ [issued_row cfg w user hash])%list.
Proof.
  intros Hsig Hkey E Hs.
  destruct (GoogleCallback_redirects w r db db' resp E Hs)
    as [state [target [info [user [db1 [pair [db2
        [_ [_ [Ht [_ [_ [Hc [Ha [Hg [-> ->]]]]]]]]]]]]]]]].
  pose proof (CreateOrUpdateUser_tokens cfg w info db) as Htok.
  rewrite Hc in Htok. simpl in Htok.
  exists user, pair, target.
  pose proof Hg as Hg'. apply GenerateTokens_Ok in Hg'.
  destruct Hg' as [sig [b [hash [_ [_ [Hh [_ [Hp Hdb]]]]]]]].
  exists hash. split; [exact Ha|]. split; [exact Ht|]. split; [reflexivity|].
  split.
  { intros t Hlt. eapply issued_access_token_validates; eassumption. }
  split.
  { simpl. right. right. left. reflexivity. }
  split.
  { rewrite Hp. exact Hh. }
  rewrite LogAuthEvent_tokens, Hdb. simpl. now rewrite Htok.
Qed.

(** X19.  The audit log cannot make a login fail: with the insertion into
    the audit log failing or not, the callback gives the same response and
    leaves the same users and refresh tokens. *)
Theorem audit_failure_is_invisible
    (w : World) (r : handlers.Request) (db : DB) (a b : bool) :
  fst (handlers.GoogleCallback cfg (with_audit a w) r db)
    = fst (handlers.GoogleCallback cfg (with_audit b w) r db) /\
  users (snd (handlers.GoogleCallback cfg (with_audit a w) r db))
    = users (snd (handlers.GoogleCallback cfg (with_audit b w) r db)) /\
  refresh_tokens (snd (handlers.GoogleCallback cfg (with_audit a w) r db))
    = refresh_tokens (snd (handlers.GoogleCallback cfg (with_audit b w) r db)).
Proof.
  unfold handlers.GoogleCallback, auth.ExchangeGoogleCode, lift.
  destruct (handlers.Cookie_ r "oauth_state"); [|auto].
  destruct (negb _); [auto|].
  destruct (handlers.Cookie_ r "oauth_redirect"); [|auto].
  destruct (String.eqb _ ""); [auto|].
  change (google (with_audit a w)) with (google w).
  change (google (with_audit b w)) with (google w).
  destruct (google w) as [info|e]; [|auto].
  change (auth.CreateOrUpdateUser cfg (with_audit a w) info db)
    with (auth.CreateOrUpdateUser cfg w info db).
  change (auth.CreateOrUpdateUser cfg (with_audit b w) info db)
    with (auth.CreateOrUpdateUser cfg w info db).
  destruct (auth.CreateOrUpdateUser cfg w info db) as [[user|e] db1]; [|auto].
  destruct (negb (u_IsActive user)); [auto|].
  change (auth.GenerateTokens cfg (with_audit a w) user db1)
    with (auth.GenerateTokens cfg w user db1).
  change (auth.GenerateTokens cfg (with_audit b w) user db1)
    with (auth.GenerateTokens cfg w user db1).
  destruct (auth.GenerateTokens cfg w user db1) as [[pair|e] db2]; [|auto].
  unfold auth.LogAuthEvent, insert_audit_log. simpl fails.
  destruct a, b; simpl; auto.
Qed.

End LoginFlow.

Lemma callback_checks_state_witness :
  exists msg,
    forall w,
      @handlers.GoogleCallback Sample.toy Sample.cfg w
        (Sample.request "" (Some Sample.raw0)) Sample.db0
      = (handlers.http_Error [] (handlers.Text msg) handlers.StatusBadRequest,
         Sample.db0).
Proof.
  apply (@callback_checks_state Sample.toy Sample.cfg
           (Sample.request "" (Some Sample.raw0)) Sample.db0).
  left. reflexivity.
Defined.

Lemma login_returns_to_allowed_target_witness :
  @allowed_target Sample.toy Sample.cfg "https://app.example.com/homev=1".
Proof.
  destruct (@handlers.GoogleLogin Sample.toy Sample.cfg (Sample.world 100 x01 20%N)
              (Sample.request "https://app.example.com/home;v=1" None))
    as [resp|] eqn:E; [|vm_compute in E; discriminate].
  destruct (@handlers.GoogleCallback Sample.toy Sample.cfg
              (Sample.google_answers 130 Sample.alice_identity)
              (Cases.returning_to "https://app.example.com/homev=1") Sample.db0)
    as [resp2 db'] eqn:E2.
  assert (Hloc : exists tok, handlers.Location resp2
                   = Some (handlers.AuthCallback "https://app.example.com/homev=1"
                             tok)).
  { vm_compute in E2. inversion E2. eexists. reflexivity. }
  destruct Hloc as [tok Hloc].
  apply (proj2 (@login_returns_to_allowed_target Sample.toy Sample.cfg
           (Sample.world 100 x01 20%N)
           (Sample.google_answers 130 Sample.alice_identity)
           (Sample.request "https://app.example.com/home;v=1" None)
           (Cases.returning_to "https://app.example.com/homev=1")
           resp Sample.db0 "https://app.example.com/homev=1" tok E
           ltac:(vm_compute in E; inversion E; reflexivity)
           ltac:(vm_compute in E; inversion E; subst resp; intros c Hin;
                 simpl in Hin; destruct Hin as [<-|[<-|[]]]; reflexivity)
           ltac:(rewrite E2; exact Hloc))).
  intros origin [<-|[<-|[]]]; reflexivity.
Defined.

Lemma login_success_witness :
  exists user pair hash,
    u_IsActive user = true /\
    handlers.Location
      (fst (@handlers.GoogleCallback Sample.toy Sample.cfg
              (Sample.google_answers 130 Sample.alice_identity)
              Cases.returning Sample.db0))
      = Some (handlers.AuthCallback "https://app.example.com/home"
                (AccessToken_ pair)) /\
    refresh_tokens
      (snd (@handlers.GoogleCallback Sample.toy Sample.cfg
              (Sample.google_answers 130 Sample.alice_identity)
              Cases.returning Sample.db0))
      = (refresh_tokens Sample.db0
           ++ [issued_row Sample.cfg
                 (Sample.google_answers 130 Sample.alice_identity) user hash])%list.
Proof.
  destruct (@handlers.GoogleCallback Sample.toy Sample.cfg
              (Sample.google_answers 130 Sample.alice_identity)
              Cases.returning Sample.db0) as [resp db'] eqn:E.
  assert (Hs : handlers.StatusCode resp = handlers.StatusTemporaryRedirect).
  { vm_compute in E. inversion E. reflexivity. }
  destruct (@login_success Sample.toy Sample.cfg
              (Sample.google_answers 130 Sample.alice_identity)
              Cases.returning Sample.db0 db' resp
              toy_signatures_verify eq_refl E Hs)
    as [user [pair [target [hash [Ha [Ht [Hl [_ [_ [_ Hdb]]]]]]]]]].
  exists user, pair, hash.
  split; [exact Ha|]. split; [|exact Hdb].
  simpl. rewrite Hl. simpl in Ht. inversion Ht. reflexivity.
Defined.

(** ** The list of users *)
Section Listing.

Lemma int_small (z : Z) :
  strconv.MinInt <= z <= strconv.MaxInt -> strconv.int z = z.
Proof.
  unfold strconv.MinInt, strconv.MaxInt, strconv.int. intros H.
  rewrite Z.mod_small; lia.
Qed.

Lemma firstn_add {A} (a b : nat) (l : list A) :
  firstn (a + b) l = (firstn a l ++ firstn b (skipn a l))%list.
Proof.
  revert l. induction a as [|a IH]; intros l; [reflexivity|].
  destruct l as [|x l]; simpl.
  - now rewrite firstn_nil.
  - now rewrite IH.
Qed.

Lemma In_firstn {A} (n : nat) (l : list A) (x : A) : In x (firstn n l) -> In x l.
Proof.
  intros H. rewrite <- (firstn_skipn n l). apply in_or_app. now left.
Qed.

Lemma In_skipn {A} (n : nat) (l : list A) (x : A) : In x (skipn n l) -> In x l.
Proof.
  intros H. rewrite <- (firstn_skipn n l). apply in_or_app. now right.
Qed.

Lemma insert_desc_perm (u : User) (l : list User) :
  Permutation (administration.insert_desc u l) (u :: l).
Proof.
  induction l as [|v l IH]; simpl; [apply Permutation_refl|].
  destruct (u_CreatedAt v <=? u_CreatedAt u); [apply Permutation_refl|].
  eapply perm_trans; [apply perm_skip, IH | apply perm_swap].
Qed.

Lemma order_perm (l : list User) :
  Permutation (administration.order_by_created_at_desc l) l.
Proof.
  induction l as [|u l IH]; simpl; [apply perm_nil|].
  eapply perm_trans; [apply insert_desc_perm | apply perm_skip, IH].
Qed.

Lemma listing_perm (db : DB) :
  Permutation (administration.listing db) (filter administration.live (users db)).
Proof. apply order_perm. Qed.

Lemma listing_In (db : DB) (u : User) :
  In u (administration.listing db) ->
  In u (users db) /\ u_DeletedAt u = None.
Proof.
  intros H. apply (Permutation_in _ (listing_perm db)) in H.
  apply filter_In in H. destruct H as [Hin Hl]. split; [exact Hin|].
  unfold administration.live in Hl. now destruct (u_DeletedAt u).
Qed.

Lemma insert_desc_newest (u : User) (l : list User) :
  newest_first l ->
  (forall v, In v l -> u_CreatedAt v <> u_CreatedAt u) ->
  newest_first (administration.insert_desc u l).
Proof.
  induction l as [|v l IH]; simpl; intros Hs Hne.
  - split; [intros ? []|exact I].
  - destruct Hs as [Hv Hs].
    destruct (u_CreatedAt v <=? u_CreatedAt u) eqn:E.
    + apply Z.leb_le in E. simpl. split; [|split; assumption].
      intros x [Hx|Hx].
      * subst x. specialize (Hne v (or_introl eq_refl)). lia.
      * specialize (Hv x Hx). lia.
    + apply Z.leb_gt in E. simpl. split.
      * intros x Hx. apply (Permutation_in _ (insert_desc_perm u l)) in Hx.
        destruct Hx as [Hx|Hx]; [subst x; exact E | now apply Hv].
      * apply IH; [exact Hs|]. intros x Hx. apply Hne. now right.
Qed.

Lemma order_newest (l : list User) :
  NoDup (map u_CreatedAt l) ->
  newest_first (administration.order_by_created_at_desc l).
Proof.
  induction l as [|u l IH]; simpl; intros Hnd; [exact I|].
  inversion Hnd as [|? ? Hnot Hnd']; subst.
  apply insert_desc_newest; [now apply IH|].
  intros v Hv Heq. apply Hnot.
  apply (Permutation_in _ (order_perm l)) in Hv.
  rewrite <- Heq. now apply in_map.
Qed.

Lemma page_of_positive (r : handlers.Request) : 1 <= administration.page_of r.
Proof.
  unfold administration.page_of.
  destruct (strconv.Atoi (handlers.Query_Get r "page") <? 1) eqn:E; [lia|].
  now apply Z.ltb_ge in E.
Qed.

Lemma pageSize_of_range (r : handlers.Request) :
  1 <= administration.pageSize_of r <= 100.
Proof.
  unfold administration.pageSize_of.
  destruct (strconv.Atoi (handlers.Query_Get r "page_size") <? 1) eqn:E1;
    simpl; [lia|].
  destruct (100 <? strconv.Atoi (handlers.Query_Get r "page_size")) eqn:E2; [lia|].
  apply Z.ltb_ge in E1, E2. lia.
Qed.

Lemma ListUsers_rows (failing : administration.Statement -> bool)
    (r : handlers.Request) (db : DB) :
  failing administration.CountUsers = false ->
  failing administration.SelectUsersPage = false ->
  (administration.page_of r - 1) * administration.pageSize_of r <= strconv.MaxInt ->
  listed (administration.ListUsers failing r db)
  = map administration.scanned
      (firstn (Z.to_nat (administration.pageSize_of r))
         (skipn (Z.to_nat ((administration.page_of r - 1)
                           * administration.pageSize_of r))
            (administration.listing db))).
Proof.
  intros Hc Hs Hmax. unfold administration.ListUsers. rewrite Hc, Hs.
  pose proof (page_of_positive r). pose proof (pageSize_of_range r).
  rewrite int_small by (unfold strconv.MinInt; nia).
  destruct ((administration.page_of r - 1) * administration.pageSize_of r <? 0) eqn:E;
    [apply Z.ltb_lt in E; nia|].
  reflexivity.
Qed.

Lemma pages_prefix (failing : administration.Statement -> bool) (db : DB)
    (pageSize : Z) (rs : list handlers.Request) :
  failing administration.CountUsers = false ->
  failing administration.SelectUsersPage = false ->
  asks pageSize rs ->
  Z.of_nat (List.length rs) * pageSize <= strconv.MaxInt ->
  List.concat (map (fun r => listed (administration.ListUsers failing r db)) rs)
  = map administration.scanned
      (firstn (Z.to_nat (Z.of_nat (List.length rs) * pageSize))
         (administration.listing db)).
Proof.
  intros Hc Hs. induction rs as [|r rs IH] using rev_ind; intros Ha Hmax.
  - reflexivity.
  - assert (Hr : administration.page_of r = Z.of_nat (S (List.length rs)) /\
                 administration.pageSize_of r = pageSize).
    { apply Ha. rewrite nth_error_app2 by lia. now rewrite Nat.sub_diag. }
    destruct Hr as [Hp Hps].
    pose proof (pageSize_of_range r) as Hrange. rewrite Hps in Hrange.
    assert (Ha' : asks pageSize rs).
    { intros i x Hx. apply Ha. rewrite nth_error_app1; [exact Hx|].
      apply nth_error_Some. congruence. }
    rewrite length_app in Hmax |- *. simpl List.length in Hmax |- *.
    rewrite map_app, List.concat_app. simpl. rewrite app_nil_r.
    rewrite IH by (try assumption; nia).
    rewrite ListUsers_rows by (try assumption; rewrite Hp, Hps; nia).
    rewrite Hp, Hps, <- map_app. f_equal.
    replace (Z.of_nat (S (List.length rs)) - 1) with (Z.of_nat (List.length rs))
      by lia.
    replace (Z.to_nat (Z.of_nat (List.length rs + 1) * pageSize))
      with (Z.to_nat (Z.of_nat (List.length rs) * pageSize) + Z.to_nat pageSize)%nat
      by nia.
    now rewrite firstn_add.
Qed.

(** X20.  Whatever the query string says, a page of the list of users is
    well formed: the page number is at least 1, the page size lies between
    1 and 100, the page holds at most that many rows, each of them a row of
    the users table that is not deleted, the total counts the users that
    are not deleted, and the number of pages is the least one that holds
    them all. *)
Theorem ListUsers_page_shape (failing : administration.Statement -> bool)
    (r : handlers.Request) (db : DB) (resp : administration.ListUsersResponse) :
  administration.ListUsers failing r db
    = administration.OK (administration.JSON_list resp) ->
  Z.of_nat (List.length (users db)) <= strconv.MaxInt - 100 ->
  1 <= administration.Page resp /\
  1 <= administration.PageSize resp <= 100 /\
  (List.length (administration.Users resp)
   <= Z.to_nat (administration.PageSize resp))%nat /\
  (forall u, In u (administration.Users resp) ->
     administration.DeletedAt u = None /\
     exists row, In row (users db) /\ u = administration.scanned row) /\
  administration.Total resp
    = Z.of_nat (List.length (filter administration.live (users db))) /\
  (administration.TotalPages resp - 1) * administration.PageSize resp
    < administration.Total resp
    <= administration.TotalPages resp * administration.PageSize resp.
Proof.
  unfold administration.ListUsers. intros H Hsize.
  destruct (failing administration.CountUsers); [discriminate|].
  destruct (failing administration.SelectUsersPage || _); [discriminate|].
  inversion H; subst resp; clear H. simpl.
  pose proof (page_of_positive r) as Hp.
  pose proof (pageSize_of_range r) as Hps.
  split; [exact Hp|]. split; [exact Hps|]. split.
  { rewrite length_map. apply firstn_le_length. }
  split.
  { intros u Hu. apply in_map_iff in Hu. destruct Hu as [row [<- Hrow]].
    apply In_firstn, In_skipn, listing_In in Hrow. destruct Hrow as [Hin Hd].
    split; [exact Hd|]. exists row. auto. }
  split; [reflexivity|].
  pose proof (filter_length_le administration.live (users db)) as Hle.
  set (total := Z.of_nat (List.length (filter administration.live (users db)))) in *.
  set (ps := administration.pageSize_of r) in *.
  assert (Ht : 0 <= total <= strconv.MaxInt - 100) by lia.
  unfold strconv.MaxInt in *.
  rewrite int_small by (unfold strconv.MinInt, strconv.MaxInt; lia).
  rewrite Z.quot_div_nonneg by lia.
  pose proof (Z.mul_div_le (total + ps - 1) ps ltac:(lia)).
  pose proof (Z.mul_succ_div_gt (total + ps - 1) ps ltac:(lia)).
  nia.
Qed.

(** X21.  The pages of one size fit together.  When no two listed users
    were created at the same instant and the store answers, the pages 1,
    2, ... of one size, asked for against the same store and enough of
    them to hold every user, give the users that are not deleted, each
    once, the newest first. *)
Theorem ListUsers_pages_cover (failing : administration.Statement -> bool)
    (db : DB) (pageSize : Z) (rs : list handlers.Request) :
  failing administration.CountUsers = false ->
  failing administration.SelectUsersPage = false ->
  NoDup (map u_CreatedAt (filter administration.live (users db))) ->
  asks pageSize rs ->
  Z.of_nat (List.length (filter administration.live (users db)))
    <= Z.of_nat (List.length rs) * pageSize <= strconv.MaxInt ->
  List.concat (map (fun r => listed (administration.ListUsers failing r db)) rs)
    = map administration.scanned (administration.listing db) /\
  Permutation (administration.listing db)
    (filter administration.live (users db)) /\
  newest_first (administration.listing db).
Proof.
  intros Hc Hs Hnd Ha [Hall Hmax]. split; [|split].
  - rewrite (pages_prefix failing db pageSize rs) by assumption.
    rewrite firstn_all2; [reflexivity|].
    rewrite (Permutation_length (listing_perm db)). lia.
  - apply listing_perm.
  - now apply order_newest.
Qed.

End Listing.

Lemma ListUsers_page_shape_witness :
  exists resp,
    administration.ListUsers Cases.answering (Cases.page_request "2" "2") Cases.office
      = administration.OK (administration.JSON_list resp) /\
    administration.Total resp = 3 /\
    (administration.TotalPages resp - 1) * administration.PageSize resp
      < administration.Total resp
      <= administration.TotalPages resp * administration.PageSize resp.
Proof.
  eexists. split; [vm_compute; reflexivity|]. split; [reflexivity|].
  apply (ListUsers_page_shape Cases.answering (Cases.page_request "2" "2")
           Cases.office); [vm_compute; reflexivity | vm_compute; discriminate].
Defined.

Lemma ListUsers_pages_cover_witness :
  List.concat (map (fun r => listed (administration.ListUsers Cases.answering r Cases.office))
            [Cases.page_request "1" "2"; Cases.page_request "2" "2"])
    = map administration.scanned [Cases.carol; Cases.root; Sample.alice].
Proof.
  replace [Cases.carol; Cases.root; Sample.alice]
    with (administration.listing Cases.office) by (vm_compute; reflexivity).
  apply (proj1 (ListUsers_pages_cover Cases.answering Cases.office 2
           [Cases.page_request "1" "2"; Cases.page_request "2" "2"]
           eq_refl eq_refl
           ltac:(vm_compute; repeat constructor; simpl; intuition discriminate)
           ltac:(intros [|[|i]] r H; simpl in H; inversion H; subst;
                 [| |destruct i; discriminate]; vm_compute; split; reflexivity)
           ltac:(vm_compute; split; discriminate))).
Defined.

(** ** Updating, deleting, deactivating and activating users *)
Section Administration.
Context {L : Libraries}.
Variable cfg : Config.

Lemma find_map_hit (p : User -> bool) (f : User -> User) (l : list User) :
  (forall u, p (f u) = p u) ->
  find p (map f l) = option_map f (find p l).
Proof.
  intros Hp. induction l as [|u l IH]; simpl; [reflexivity|].
  rewrite Hp. destruct (p u); [reflexivity | exact IH].
Qed.

Lemma find_map_none (p : User -> bool) (f : User -> User) (l : list User) :
  (forall u, p (f u) = false) -> find p (map f l) = None.
Proof.
  intros Hp. induction l as [|u l IH]; simpl; [reflexivity|].
  now rewrite Hp.
Qed.

Lemma filter_map_none (p : User -> bool) (f : User -> User) (l : list User) :
  (forall u, p (f u) = false) -> filter p (map f l) = [].
Proof.
  intros Hp. induction l as [|u l IH]; simpl; [reflexivity|].
  now rewrite Hp.
Qed.

Lemma filter_nil_find {A} (p : A -> bool) (l : list A) :
  List.length (filter p l) = 0%nat -> find p l = None.
Proof.
  induction l as [|x l IH]; simpl; [reflexivity|].
  destruct (p x); [discriminate | exact IH].
Qed.

Lemma same_accounts_map (f : User -> User) (db : DB) :
  (forall u, identity_of (f u) = identity_of u) ->
  same_accounts db (set_users (map f (users db)) db).
Proof.
  intros Hf. split; [|split; reflexivity]. simpl.
  rewrite map_map. apply map_ext. exact Hf.
Qed.

Lemma same_accounts_refl (db : DB) : same_accounts db db.
Proof. repeat split. Qed.

(** A rotation finds no user when every row of the owner is inactive or
    deleted. *)
Lemma locked_out_refresh (w : World) (raw : string) (db : DB) (t : RefreshToken) :
  candidate w raw db = Some t ->
  locked_out (rt_UserID t) db ->
  exists e db', auth.RefreshAccessToken cfg w raw db = (Err e, db').
Proof.
  intros C Hl. rewrite RefreshAccessToken_unfold.
  destruct (fails w SelectValidRefreshTokens); [eauto|]. rewrite C.
  destruct (fails w RevokeRefreshTokenByID); [eauto|].
  destruct (fails w SelectActiveUserByID); [eauto|].
  destruct (find _ (users db)) as [u|] eqn:F; [|eauto].
  exfalso. apply find_some in F. destruct F as [Hin Hu].
  apply andb_true_iff in Hu. destruct Hu as [Hu Hlive].
  apply andb_true_iff in Hu. destruct Hu as [Hid Hact].
  apply N.eqb_eq in Hid. specialize (Hl u Hin Hid).
  unfold administration.live in Hl. rewrite Hact, Hlive in Hl. discriminate.
Qed.

Lemma DeleteUser_Ok (w : World) (failing : administration.Statement -> bool)
    (id : UUID) (db db' : DB) (resp : administration.Response) :
  administration.DeleteUser w failing (Some id) db = (resp, db') ->
  administration.StatusCode resp = handlers.StatusOK ->
  exists upd,
    db' = set_users (map upd (users db)) db /\
    (forall u, administration.hit id (upd u) = false) /\
    (forall u, identity_of (upd u) = identity_of u) /\
    (forall u, u_ID (upd u) = id -> administration.live (upd u) = false).
Proof.
  unfold administration.DeleteUser. intros H Hs.
  destruct (failing administration.SoftDeleteUser);
    [inversion H; subst; discriminate|].
  destruct (Nat.eqb _ 0); [inversion H; subst; discriminate|].
  inversion H; subst; clear H. eexists. split; [reflexivity|].
  split; [|split]; intros u; destruct (administration.hit id u) eqn:Eh.
  - unfold administration.hit, administration.live. simpl. apply andb_false_r.
  - exact Eh.
  - reflexivity.
  - reflexivity.
  - reflexivity.
  - intros Hid. unfold administration.hit in Eh. rewrite Hid, N.eqb_refl in Eh.
    exact Eh.
Qed.

(** X22.  Deleting a user is soft and final.  After a successful
    [DeleteUser] the users table has the same rows for the same persons
    and the sessions are as they were, but no handler finds the user any
    more: [GetUser], [GetCurrentUser] and [ActivateUser] answer 404
    whatever the store does, a second [DeleteUser] answers 404 and writes
    nothing, no page of [ListUsers] shows the user, and a rotation with
    one of the user's refresh tokens fails. *)
Theorem DeleteUser_is_soft (w : World) (failing : administration.Statement -> bool)
    (id : UUID) (db db' : DB) (resp : administration.Response) :
  administration.DeleteUser w failing (Some id) db = (resp, db') ->
  administration.StatusCode resp = handlers.StatusOK ->
  same_accounts db db' /\
  (forall f, administration.GetUser f (Some id) db'
             = administration.http_Error "User not found" handlers.StatusNotFound) /\
  (forall f, administration.GetCurrentUser f (Some id) db'
             = administration.http_Error "User not found" handlers.StatusNotFound) /\
  (forall w' f, administration.ActivateUser w' f (Some id) db'
     = (administration.http_Error "User not found" handlers.StatusNotFound, db')) /\
  (forall w' f, f administration.SoftDeleteUser = false ->
     administration.DeleteUser w' f (Some id) db'
     = (administration.http_Error "User not found" handlers.StatusNotFound, db')) /\
  (forall f r u, In u (listed (administration.ListUsers f r db')) ->
     administration.ID u <> id) /\
  (forall w' raw t, candidate w' raw db' = Some t -> rt_UserID t = id ->
     exists e db2, auth.RefreshAccessToken cfg w' raw db' = (Err e, db2)).
Proof.
  intros H Hs. destruct (DeleteUser_Ok w failing id db db' resp H Hs)
    as [upd [-> [Hhit [Hid Hlive]]]].
  assert (F : find (administration.hit id) (map upd (users db)) = None)
    by now apply find_map_none.
  split; [now apply same_accounts_map|].
  split.
  { intros f. unfold administration.GetUser. simpl users. rewrite F.
    now destruct (f administration.SelectUserByID). }
  split.
  { intros f. unfold administration.GetCurrentUser. simpl users. rewrite F.
    now destruct (f administration.SelectUserByID). }
  split.
  { intros w' f. unfold administration.ActivateUser. simpl users. rewrite F.
    now destruct (f administration.ActivateUserByID). }
  split.
  { intros w' f Hf. unfold administration.DeleteUser. simpl users.
    rewrite Hf, filter_map_none by assumption. reflexivity. }
  split.
  { intros f r u Hu Heq. unfold listed, administration.ListUsers in Hu.
    destruct (f administration.CountUsers); [destruct Hu|].
    destruct (f administration.SelectUsersPage || _); [destruct Hu|].
    simpl in Hu. apply in_map_iff in Hu. destruct Hu as [row [<- Hrow]].
    apply In_firstn, In_skipn in Hrow.
    apply (Permutation_in _ (listing_perm _)) in Hrow.
    apply filter_In in Hrow. destruct Hrow as [Hin Hl]. simpl in Hin.
    apply in_map_iff in Hin. destruct Hin as [u0 [<- _]].
    simpl in Heq. rewrite (Hlive u0 Heq) in Hl. discriminate. }
  intros w' raw t C Ht. apply (locked_out_refresh w' raw _ t C).
  intros u Hin Hu. simpl in Hin. apply in_map_iff in Hin.
  destruct Hin as [u0 [<- _]]. rewrite Ht in Hu.
  rewrite (Hlive u0 Hu). apply andb_false_r.
Qed.

Lemma DeactivateUser_Ok (w : World) (id : UUID) (db db' : DB)
    (resp : handlers.Response) :
  handlers.DeactivateUser w id db = (resp, db') ->
  handlers.StatusCode resp = handlers.StatusOK ->
  exists upd,
    db' = set_users (map upd (users db)) db /\
    find (administration.hit id) (users db) <> None /\
    (forall u, administration.hit id (upd u) = administration.hit id u) /\
    (forall u, identity_of (upd u) = identity_of u) /\
    (forall u, u_ID (upd u) = id ->
       u_IsActive (upd u) && administration.live (upd u) = false) /\
    (forall u, upd u =
       if administration.hit id u then
         {| u_ID := u_ID u; u_Email := u_Email u; u_GoogleID := u_GoogleID u;
            u_Name := u_Name u; u_AvatarURL := u_AvatarURL u; u_Role := u_Role u;
            u_IsActive := false; u_CreatedAt := u_CreatedAt u;
            u_UpdatedAt := now w; u_DeletedAt := u_DeletedAt u |}
       else u).
Proof.
  unfold handlers.DeactivateUser, deactivate_user. intros H Hs.
  destruct (fails w DeactivateUserByID); [inversion H; subst; discriminate|].
  change (fun u => N.eqb (u_ID u) id && is_null (u_DeletedAt u))
    with (administration.hit id) in H.
  destruct (find (administration.hit id) (users db)) as [u0|] eqn:F;
    [|inversion H; subst; discriminate].
  inversion H; subst; clear H. eexists. split; [reflexivity|].
  split; [discriminate|].
  split; [|split; [|split]]; intros u; [| | |reflexivity];
    unfold administration.hit, administration.live;
    destruct (N.eqb (u_ID u) id && is_null (u_DeletedAt u)) eqn:Eh.
  - exact Eh.
  - exact Eh.
  - reflexivity.
  - reflexivity.
  - reflexivity.
  - intros Hid. rewrite Hid, N.eqb_refl in Eh.
    simpl in Eh. rewrite Eh. apply andb_false_r.
Qed.

(** X23.  A deactivation locks the user out and can be undone without a
    trace.  After a successful [DeactivateUser] a rotation with one of the
    user's refresh tokens fails; the sessions themselves are untouched,
    and [ActivateUser] answers and leaves the store exactly as it would
    have without the deactivation. *)
Theorem ActivateUser_undoes_DeactivateUser
    (w : World) (id : UUID) (db db1 : DB) (resp : handlers.Response) :
  handlers.DeactivateUser w id db = (resp, db1) ->
  handlers.StatusCode resp = handlers.StatusOK ->
  same_accounts db db1 /\
  (forall w' raw t, candidate w' raw db1 = Some t -> rt_UserID t = id ->
     exists e db2, auth.RefreshAccessToken cfg w' raw db1 = (Err e, db2)) /\
  (forall w' f, f administration.ActivateUserByID = false ->
     administration.ActivateUser w' f (Some id) db1
       = administration.ActivateUser w' f (Some id) db /\
     administration.StatusCode (fst (administration.ActivateUser w' f (Some id) db1))
       = handlers.StatusOK).
Proof.
  intros H Hs. destruct (DeactivateUser_Ok w id db db1 resp H Hs)
    as [upd [-> [Hfound [Hhit [Hid [Hlock Hupd]]]]]].
  split; [now apply same_accounts_map|]. split.
  { intros w' raw t C Ht. apply (locked_out_refresh w' raw _ t C).
    intros u Hin Hu. simpl in Hin. apply in_map_iff in Hin.
    destruct Hin as [u0 [<- _]]. rewrite Ht in Hu. now apply Hlock. }
  intros w' f Hf. unfold administration.ActivateUser. rewrite Hf. simpl users.
  rewrite find_map_hit by exact Hhit.
  destruct (find (administration.hit id) (users db)) as [u0|] eqn:F;
    [|contradiction]. simpl. split; [|reflexivity].
  assert (Hpoint : forall u,
    (if administration.hit id (upd u) then
       {| u_ID := u_ID (upd u); u_Email := u_Email (upd u);
          u_GoogleID := u_GoogleID (upd u); u_Name := u_Name (upd u);
          u_AvatarURL := u_AvatarURL (upd u); u_Role := u_Role (upd u);
          u_IsActive := true; u_CreatedAt := u_CreatedAt (upd u);
          u_UpdatedAt := now w'; u_DeletedAt := u_DeletedAt (upd u) |}
     else upd u)
    = (if administration.hit id u then
         {| u_ID := u_ID u; u_Email := u_Email u; u_GoogleID := u_GoogleID u;
            u_Name := u_Name u; u_AvatarURL := u_AvatarURL u; u_Role := u_Role u;
            u_IsActive := true; u_CreatedAt := u_CreatedAt u;
            u_UpdatedAt := now w'; u_DeletedAt := u_DeletedAt u |}
       else u)).
  { intros u. rewrite Hhit, (Hupd u).
    destruct (administration.hit id u); reflexivity. }
  rewrite Hpoint. f_equal. unfold set_users. simpl. f_equal.
  rewrite map_map. apply map_ext. exact Hpoint.
Qed.

(** X24.  The administration handlers write the users table only, and of
    a user only the profile, the active flag and the deletion mark.
    Whatever the parameters and whatever the store does, [UpdateUser],
    [DeleteUser], [ActivateUser] and [DeactivateUser] leave every
    refresh token and the audit log as they are, add and remove no row,
    and change no id, email address, Google id, role or creation time. *)
Theorem administration_keeps_accounts
    (w : World) (failing : administration.Statement -> bool) (db : DB) :
  (forall id body,
     same_accounts db (snd (administration.UpdateUser w failing id body db))) /\
  (forall id, same_accounts db (snd (administration.DeleteUser w failing id db))) /\
  (forall id, same_accounts db (snd (administration.ActivateUser w failing id db))) /\
  (forall userID, same_accounts db (snd (handlers.DeactivateUser w userID db))).
Proof.
  split; [|split; [|split]].
  - intros [id|] [[name avatar_url]|]; simpl; try apply same_accounts_refl.
    destruct (failing administration.UpdateUserProfile);
      [apply same_accounts_refl|].
    destruct (find _ (users db)); [|apply same_accounts_refl].
    apply same_accounts_map. intros x.
    destruct (administration.hit id x); reflexivity.
  - intros [id|]; simpl; [|apply same_accounts_refl].
    destruct (failing administration.SoftDeleteUser); [apply same_accounts_refl|].
    destruct (Nat.eqb _ 0); [apply same_accounts_refl|].
    apply same_accounts_map. intros x.
    destruct (administration.hit id x); reflexivity.
  - intros [id|]; simpl; [|apply same_accounts_refl].
    destruct (failing administration.ActivateUserByID); [apply same_accounts_refl|].
    destruct (find _ (users db)); [|apply same_accounts_refl].
    apply same_accounts_map. intros x.
    destruct (administration.hit id x); reflexivity.
  - intros userID. unfold handlers.DeactivateUser, deactivate_user.
    destruct (fails w DeactivateUserByID); [apply same_accounts_refl|].
    destruct (find _ (users db)); [|apply same_accounts_refl].
    apply same_accounts_map. intros x.
    destruct (N.eqb (u_ID x) userID && is_null (u_DeletedAt x)); reflexivity.
Qed.

(** X25.  [UpdateUser] edits the name and the avatar only, and only what
    the body gives.  The user it answers with is a stored, not deleted
    user of this id with the name of the body, or the old name when the
    body has none; the avatar is the old one when the body has none, and
    no body can take an avatar away; address and active flag are the old
    ones.  [GetUser] then answers with the same user. *)
Theorem UpdateUser_edits_profile
    (w : World) (failing : administration.Statement -> bool) (id : UUID)
    (name avatar_url : option string) (db db' : DB)
    (user : administration.UserResponse) :
  administration.UpdateUser w failing (Some id) (Some (name, avatar_url)) db
    = (administration.OK (administration.JSON_user user), db') ->
  (exists old, In old (users db) /\ u_ID old = id /\ u_DeletedAt old = None /\
     administration.ID user = id /\
     administration.Name user = administration.COALESCE name (u_Name old) /\
     (avatar_url = None -> administration.AvatarURL user = u_AvatarURL old) /\
     (administration.AvatarURL user = None ->
        avatar_url = None /\ u_AvatarURL old = None) /\
     administration.Email user = u_Email old /\
     administration.IsActive user = u_IsActive old /\
     administration.UpdatedAt user = now w) /\
  (forall f, f administration.SelectUserByID = false ->
     administration.GetUser f (Some id) db'
       = administration.OK (administration.JSON_user user)).
Proof.
  unfold administration.UpdateUser. intros H.
  destruct (failing administration.UpdateUserProfile); [discriminate|].
  destruct (find (administration.hit id) (users db)) as [old|] eqn:F;
    [|discriminate].
  inversion H; subst; clear H.
  pose proof F as F'. apply find_some in F'. destruct F' as [Hin Hhit].
  rewrite Hhit. split.
  - exists old. unfold administration.hit, administration.live in Hhit.
    apply andb_true_iff in Hhit. destruct Hhit as [Hid Hl].
    apply N.eqb_eq in Hid.
    split; [exact Hin|]. split; [exact Hid|].
    split; [now destruct (u_DeletedAt old)|]. simpl.
    split; [exact Hid|]. split; [reflexivity|].
    split; [now intros ->|].
    split; [destruct avatar_url; [discriminate | auto]|].
    auto.
  - intros f Hf. unfold administration.GetUser. rewrite Hf. simpl users.
    rewrite find_map_hit, F.
    + simpl. now rewrite Hhit.
    + intros u. destruct (administration.hit id u) eqn:E; [|exact E].
      unfold administration.hit, administration.live in *. simpl. exact E.
Qed.

End Administration.

Section StaleTokens.
Context {L : Libraries} {R : Runtime}.
Variable cfg : Config.

(** X26.  An access token outlives its user.  Deleting a user does not
    touch the access tokens issued before: until its expiry such a token
    still passes [AuthMiddleware] with the subject and the role it was
    signed with, it would pass [AdminMiddleware] too when that role is
    "admin", and only [GetCurrentUser], which reads the store, answers
    404. *)
Theorem access_token_outlives_user
    (w w' : World) (failing : administration.Statement -> bool) (user : User)
    (db db1 db2 : DB) (pair : auth.TokenPair) (resp : administration.Response)
    (tokenString : string) (t : Time) :
  signatures_verify ->
  JWTPublicKey cfg = Public (JWTPrivateKey cfg) ->
  auth.GenerateTokens cfg w user db = (Ok pair, db1) ->
  ParseCompact tokenString = Some (AccessToken_ pair) ->
  administration.DeleteUser w' failing (Some (u_ID user)) db1 = (resp, db2) ->
  administration.StatusCode resp = handlers.StatusOK ->
  t < access_expiry cfg w ->
  exists ctx,
    middleware.AuthMiddleware (JWTPublicKey cfg) t ("Bearer " ++ tokenString)
      = middleware.Next ctx /\
    middleware.UserIDKey ctx = Some (u_ID user) /\
    middleware.RoleKey ctx = Some (u_Role user) /\
    (u_Role user = "admin" ->
     admin_only (JWTPublicKey cfg) t ("Bearer " ++ tokenString)
       = middleware.Next ctx) /\
    (forall f, administration.GetCurrentUser f (middleware.UserIDKey ctx) db2
       = administration.http_Error "User not found" handlers.StatusNotFound).
Proof.
  intros Hsig Hkey Hgen Hparse Hdel Hs Ht.
  pose proof (issued_access_token_validates cfg w user db db1 pair t
                Hsig Hkey Hgen Ht) as V.
  assert (A : middleware.AuthMiddleware (JWTPublicKey cfg) t
                ("Bearer " ++ tokenString)
              = middleware.Next
                  {| middleware.UserIDKey := Some (UserID (issued_claims cfg w user));
                     middleware.EmailKey := Some (Email (issued_claims cfg w user));
                     middleware.NameKey := Some (Name (issued_claims cfg w user));
                     middleware.RoleKey := Some (Role (issued_claims cfg w user)) |}).
  { apply AuthMiddleware_Next. exists tokenString, (AccessToken_ pair),
      (issued_claims cfg w user). repeat split; assumption. }
  eexists. split; [exact A|].
  split; [reflexivity|]. split; [reflexivity|]. split.
  { intros Hrole. unfold admin_only. rewrite A.
    unfold middleware.AdminMiddleware.
    cbn [middleware.RoleKey Role issued_claims]. now rewrite Hrole. }
  cbn [middleware.UserIDKey UserID issued_claims].
  intros f. destruct (DeleteUser_Ok w' failing _ db1 db2 resp Hdel Hs)
    as [upd [-> [Hhit _]]].
  unfold administration.GetCurrentUser. simpl users.
  rewrite find_map_none by exact Hhit.
  now destruct (f administration.SelectUserByID).
Qed.

End StaleTokens.

Lemma DeleteUser_is_soft_witness :
  administration.GetUser Cases.answering (Some 1%N)
    (snd (administration.DeleteUser (Sample.world 200 x02 50%N) Cases.answering
            (Some 1%N) Cases.office))
  = administration.http_Error "User not found" 404 /\
  exists e db2,
    @auth.RefreshAccessToken Sample.toy Sample.cfg (Sample.world 210 x03 51%N)
      Sample.raw0
      (snd (administration.DeleteUser (Sample.world 200 x02 50%N) Cases.answering
              (Some 1%N) Cases.office))
    = (Err e, db2).
Proof.
  destruct (administration.DeleteUser (Sample.world 200 x02 50%N) Cases.answering
              (Some 1%N) Cases.office) as [resp db'] eqn:E.
  assert (Hs : administration.StatusCode resp = handlers.StatusOK)
    by (vm_compute in E; inversion E; reflexivity).
  destruct (@DeleteUser_is_soft Sample.toy Sample.cfg (Sample.world 200 x02 50%N)
              Cases.answering 1%N Cases.office db' resp E Hs)
    as [_ [G [_ [_ [_ [_ R]]]]]].
  split; [apply G|].
  apply (R (Sample.world 210 x03 51%N) Sample.raw0 Sample.token0).
  - vm_compute in E. inversion E; subst. vm_compute. reflexivity.
  - reflexivity.
Defined.

Lemma ActivateUser_undoes_DeactivateUser_witness :
  administration.ActivateUser (Sample.world 130 x03 0%N) Cases.answering (Some 1%N)
    (snd (@handlers.DeactivateUser Sample.toy (Sample.world 120 x00 0%N) 1%N
            Cases.office))
  = administration.ActivateUser (Sample.world 130 x03 0%N) Cases.answering (Some 1%N)
      Cases.office.
Proof.
  destruct (@handlers.DeactivateUser Sample.toy (Sample.world 120 x00 0%N) 1%N
              Cases.office) as [resp db1] eqn:E.
  assert (Hs : handlers.StatusCode resp = handlers.StatusOK)
    by (vm_compute in E; inversion E; reflexivity).
  destruct (@ActivateUser_undoes_DeactivateUser Sample.toy Sample.cfg
              (Sample.world 120 x00 0%N) 1%N Cases.office db1 resp E Hs)
    as [_ [_ A]].
  apply (A (Sample.world 130 x03 0%N) Cases.answering). reflexivity.
Defined.

Lemma UpdateUser_edits_profile_witness :
  exists user db',
    administration.UpdateUser (Sample.world 150 x04 0%N) Cases.answering (Some 4%N)
      (Some (Some "Caroline", None)) Cases.office
    = (administration.OK (administration.JSON_user user), db') /\
    administration.AvatarURL user = Some "https://lh3.example.com/carol" /\
    administration.GetUser Cases.answering (Some 4%N) db'
    = administration.OK (administration.JSON_user user).
Proof.
  destruct (administration.UpdateUser (Sample.world 150 x04 0%N) Cases.answering
              (Some 4%N) (Some (Some "Caroline", None)) Cases.office)
    as [resp db'] eqn:E.
  assert (Hr : exists user,
             resp = administration.OK (administration.JSON_user user) /\
             administration.AvatarURL user = Some "https://lh3.example.com/carol").
  { vm_compute in E. inversion E. eexists. split; reflexivity. }
  destruct Hr as [user [-> Ha]]. exists user, db'.
  split; [reflexivity|]. split; [exact Ha|].
  apply (proj2 (UpdateUser_edits_profile (Sample.world 150 x04 0%N) Cases.answering
                  4%N (Some "Caroline") None Cases.office db' user E)).
  reflexivity.
Defined.

Lemma access_token_outlives_user_witness :
  exists ctx,
    @admin_only Sample.toy Cases.runtime 7%nat (500 * time.Second) "Bearer root.token"
      = middleware.Next ctx /\
    administration.GetCurrentUser Cases.answering (middleware.UserIDKey ctx)
      (snd (administration.DeleteUser (Sample.world 200 x02 50%N) Cases.answering
              (Some 3%N)
              (snd (@auth.GenerateTokens Sample.toy Sample.cfg
                      (Sample.world 100 x01 20%N) Cases.root Cases.office))))
    = administration.http_Error "User not found" 404.
Proof.
  destruct (@auth.GenerateTokens Sample.toy Sample.cfg (Sample.world 100 x01 20%N)
              Cases.root Cases.office) as [[pair|e] db1] eqn:G;
    [|vm_compute in G; discriminate].
  cbn [snd].
  destruct (administration.DeleteUser (Sample.world 200 x02 50%N) Cases.answering
              (Some 3%N) db1) as [resp db2] eqn:D.
  assert (Hs : administration.StatusCode resp = handlers.StatusOK)
    by (vm_compute in G; inversion G; subst; vm_compute in D; inversion D;
        reflexivity).
  assert (P : @ParseCompact Sample.toy Cases.runtime "root.token"
              = Some (AccessToken_ pair))
    by (vm_compute in G; inversion G; reflexivity).
  destruct (@access_token_outlives_user Sample.toy Cases.runtime Sample.cfg
              (Sample.world 100 x01 20%N) (Sample.world 200 x02 50%N)
              Cases.answering Cases.root Cases.office db1 db2 pair resp
              "root.token" (500 * time.Second) toy_signatures_verify eq_refl G P D Hs)
    as [ctx [_ [_ [_ [A M]]]]]; [vm_compute; reflexivity|].
  exists ctx. split; [apply A; reflexivity | apply M].
Defined.


(** ** The routes behind the middleware *)
Section Routes.
Context {L : Libraries} {R : Runtime}.
Variable cfg : Config.

(** X27.  The routes of user administration ask for a valid token, not for
    a role.  With the access token of any login, whatever its role, every
    route of the group reaches its handler until the token expires; so the
    holder can delete any user that is there, who is then locked out.
    Without a valid token no route of the group reaches its handler or
    writes. *)
Theorem users_routes_ask_for_no_role
    (w w' : World) (failing : administration.Statement -> bool) (user : User)
    (db0 db1 : DB) (pair : auth.TokenPair) (tokenString : string) :
  signatures_verify ->
  JWTPublicKey cfg = Public (JWTPrivateKey cfg) ->
  auth.GenerateTokens cfg w user db0 = (Ok pair, db1) ->
  ParseCompact tokenString = Some (AccessToken_ pair) ->
  now w' < access_expiry cfg w ->
  (exists ctx,
     middleware.UserIDKey ctx = Some (u_ID user) /\
     middleware.RoleKey ctx = Some (u_Role user) /\
     forall route db,
       api.Serve cfg w' failing ("Bearer " ++ tokenString) route db
       = api.Handle w' failing ctx route db) /\
  (forall id victim db,
     failing administration.SoftDeleteUser = false ->
     In victim (users db) -> u_ID victim = id -> u_DeletedAt victim = None ->
     exists db',
       api.Serve cfg w' failing ("Bearer " ++ tokenString)
         (api.DELETE_users_id (Some id)) db
       = (api.FromAdministration
            (administration.OK
               (administration.JSON_message "User deleted successfully")), db') /\
       locked_out id db') /\
  (forall authHeader route db msg code,
     middleware.AuthMiddleware (JWTPublicKey cfg) (now w') authHeader
       = middleware.Refused msg code ->
     api.Serve cfg w' failing authHeader route db
       = (api.FromMiddleware msg handlers.StatusUnauthorized, db)).
Proof.
  intros Hsig Hkey Hgen Hparse Ht.
  pose proof (issued_access_token_validates cfg w user db0 db1 pair (now w')
                Hsig Hkey Hgen Ht) as V.
  assert (A : middleware.AuthMiddleware (JWTPublicKey cfg) (now w')
                ("Bearer " ++ tokenString)
              = middleware.Next
                  {| middleware.UserIDKey := Some (UserID (issued_claims cfg w user));
                     middleware.EmailKey := Some (Email (issued_claims cfg w user));
                     middleware.NameKey := Some (Name (issued_claims cfg w user));
                     middleware.RoleKey := Some (Role (issued_claims cfg w user)) |}).
  { apply AuthMiddleware_Next. exists tokenString, (AccessToken_ pair),
      (issued_claims cfg w user). repeat split; assumption. }
  split; [|split].
  - exists {| middleware.UserIDKey := Some (UserID (issued_claims cfg w user));
              middleware.EmailKey := Some (Email (issued_claims cfg w user));
              middleware.NameKey := Some (Name (issued_claims cfg w user));
              middleware.RoleKey := Some (Role (issued_claims cfg w user)) |}.
    split; [reflexivity|]. split; [reflexivity|].
    intros route db. unfold api.Serve. now rewrite A.
  - intros id victim db Hf Hin Hid Hlive. unfold api.Serve. rewrite A.
    unfold api.Handle.
    destruct (administration.DeleteUser w' failing (Some id) db) as [resp db'] eqn:D.
    assert (Hresp : resp = administration.OK
                             (administration.JSON_message "User deleted successfully")).
    { unfold administration.DeleteUser in D. rewrite Hf in D.
      destruct (filter (administration.hit id) (users db)) as [|x l] eqn:Ef.
      - exfalso. assert (Hx : In victim (filter (administration.hit id) (users db))).
        { apply filter_In. split; [exact Hin|].
          unfold administration.hit, administration.live.
          now rewrite Hid, N.eqb_refl, Hlive. }
        rewrite Ef in Hx. destruct Hx.
      - simpl in D. now inversion D. }
    subst resp. exists db'. split; [reflexivity|].
    destruct (DeleteUser_Ok w' failing id db db' _ D eq_refl)
      as [upd [-> [_ [_ Hl]]]].
    intros u Hu Hidu. simpl in Hu. apply in_map_iff in Hu.
    destruct Hu as [u0 [<- _]]. rewrite (Hl u0 Hidu). apply andb_false_r.
  - intros authHeader route db msg code Href. unfold api.Serve. rewrite Href.
    now rewrite (AuthMiddleware_Refused _ _ _ _ _ Href).
Qed.

End Routes.

Lemma users_routes_ask_for_no_role_witness :
  exists db',
    @api.Serve Sample.toy Cases.runtime Sample.cfg (Sample.world 500 x02 50%N)
      Cases.answering "Bearer alice.token" (api.DELETE_users_id (Some 3%N))
      Cases.office
    = (api.FromAdministration
         (administration.OK
            (administration.JSON_message "User deleted successfully")), db') /\
    locked_out 3%N db'.
Proof.
  destruct (@auth.GenerateTokens Sample.toy Sample.cfg (Sample.world 100 x01 20%N)
              Sample.alice Sample.db0) as [[pair|e] db1] eqn:G;
    [|vm_compute in G; discriminate].
  assert (P : @ParseCompact Sample.toy Cases.runtime "alice.token"
              = Some (AccessToken_ pair))
    by (vm_compute in G; inversion G; reflexivity).
  destruct (@users_routes_ask_for_no_role Sample.toy Cases.runtime Sample.cfg
              (Sample.world 100 x01 20%N) (Sample.world 500 x02 50%N)
              Cases.answering Sample.alice Sample.db0 db1 pair "alice.token"
              toy_signatures_verify eq_refl G P)
    as [_ [D _]]; [vm_compute; reflexivity|].
  apply (D 3%N Cases.root Cases.office).
  - reflexivity.
  - simpl. auto.
  - reflexivity.
  - reflexivity.
Defined.

(** ** The exported key and the key files *)
Section ExportedKey.
Context {L : Libraries} {R : Runtime}.
Variable cfg : Config.

(** X28.  What [GetPublicKey] serves is not a public key file of the
    service.  The block holds the PKCS#1 encoding of the key and
    [loadPublicKey] reads PKIX keys only: a file with the served block
    does not load, and with it as the public key file no pair of keys
    loads; the client of the integration guide, which reads PKIX keys
    too, refuses the block as well; golang-jwt's
    [ParseRSAPublicKeyFromPEM] reads the same block to the configured
    key. *)
Theorem served_key_does_not_load (path : string) :
  pem_round_trip -> pkcs1_round_trip -> pkcs1_only ->
  ReadFile path = Some (handlers.GetPublicKey cfg) ->
  loading.loadPublicKey path = Err (Errorf "x509: failed to parse public key") /\
  (forall privateKeyPath,
     loading.loadOrGenerateKeys privateKeyPath path
     = Err (Errorf "RSA keys not found")) /\
  integration.fetchPublicKey (handlers.GetPublicKey cfg)
    = Err (Errorf "failed to parse public key: x509: failed to parse public key") /\
  jwt.ParseRSAPublicKeyFromPEM (handlers.GetPublicKey cfg) = Ok (JWTPublicKey cfg).
Proof.
  intros Hpem H1 Honly Hfile.
  assert (Hload : loading.loadPublicKey path
                  = Err (Errorf "x509: failed to parse public key")).
  { unfold loading.loadPublicKey, handlers.GetPublicKey in *.
    rewrite Hfile, Hpem. now destruct (Honly (JWTPublicKey cfg)) as [-> _]. }
  split; [exact Hload|]. split; [|split].
  - intros privateKeyPath. unfold loading.loadOrGenerateKeys.
    rewrite Hload. now destruct (loading.loadPrivateKey privateKeyPath).
  - unfold integration.fetchPublicKey, handlers.GetPublicKey.
    rewrite Hpem. now destruct (Honly (JWTPublicKey cfg)) as [-> _].
  - now apply GetPublicKey_parses.
Qed.

End ExportedKey.

Lemma served_key_does_not_load_witness :
  @loading.loadPublicKey Sample.toy Cases.runtime "./keys/served.pem"
    = Err (Errorf "x509: failed to parse public key") /\
  @loading.loadPublicKey Sample.toy Cases.runtime "./keys/public_key.pem"
    = Ok 7%nat.
Proof.
  split; [|reflexivity].
  apply (@served_key_does_not_load Sample.toy Cases.runtime Sample.cfg
           "./keys/served.pem" toy_pem_round_trip toy_pkcs1_round_trip
           toy_pkcs1_only eq_refl).
Defined.
